(** * MediaDownloader (app.py): a shallow embedding and its properties

    The development follows [app.py] top to bottom: the Python built-ins the
    program relies on ([str] methods, [float], [urllib.parse], [pathlib]),
    then the validators, the metrics scoring, the format policy, the path
    sanitizer, the job store, the job runners and the HTTP handlers.  The
    theorems come after all definitions.

    Python [str] values are modelled by [string], read as sequences of code
    points below 256.  Python exceptions are modelled by the [result] type. *)

From Stdlib Require Import ZArith Bool Ascii String List Lia.
From Stdlib Require Import Floats.SpecFloat.
From Stdlib Require DecimalPos DecimalZ DecimalString.
From stdpp Require Import base gmap strings list fin_maps.

Local Open Scope Z_scope.

(* ===================================================================== *)
(** * Exceptions                                                          *)
(* ===================================================================== *)

(** The exception classes that can be raised on the paths modelled here.
    [DownloadError] is yt-dlp's; [OtherException] stands for every other
    subclass of [Exception].  Each carries [str(exc)]. *)
Inductive exn : Type :=
  | ValueError (msg : string)
  | OverflowError (msg : string)
  | AttributeError (msg : string)
  | KeyError (msg : string)
  | ZeroDivisionError (msg : string)
  | RuntimeError (msg : string)
  | FileNotFoundError (msg : string)
  | DownloadError (msg : string)
  | OtherException (msg : string).

(** [str(exc)] *)
Definition exn_str (e : exn) : string :=
  match e with
  | ValueError m | OverflowError m | AttributeError m | KeyError m
  | ZeroDivisionError m | RuntimeError m | FileNotFoundError m | DownloadError m
  | OtherException m => m
  end.

Inductive result (A : Type) : Type :=
  | Ok (a : A)
  | Raise (e : exn).
Arguments Ok {A} a.
Arguments Raise {A} e.

Definition rbind {A B} (r : result A) (k : A -> result B) : result B :=
  match r with
  | Ok a => k a
  | Raise e => Raise e
  end.

Notation "'let?' x ':=' r 'in' k" := (rbind r (fun x => k))
  (at level 10, x pattern, r at level 100, k at level 200).

Definition returns {A} (r : result A) : bool :=
  match r with Ok _ => true | Raise _ => false end.

(* ===================================================================== *)
(** * Python [str] methods                                                *)
(* ===================================================================== *)

Definition code (c : ascii) : nat := nat_of_ascii c.

Definition in_range (lo hi : nat) (c : ascii) : bool :=
  ((lo <=? code c) && (code c <=? hi))%nat.

(** [c.isspace()] on code points below 256. *)
Definition py_isspace (c : ascii) : bool :=
  in_range 9 13 c || in_range 28 32 c || (code c =? 133)%nat || (code c =? 160)%nat.

(** [c.lower()] on code points below 256: A-Z and the Latin-1 capitals
    U+00C0-U+00DE (but not the multiplication sign U+00D7) move up by 32. *)
Definition py_lower_char (c : ascii) : ascii :=
  if in_range 65 90 c || (in_range 192 222 c && negb (code c =? 215)%nat)
  then ascii_of_nat (code c + 32)
  else c.

Fixpoint py_lower (s : string) : string :=
  match s with
  | EmptyString => EmptyString
  | String c s' => String (py_lower_char c) (py_lower s')
  end.

Definition is_empty (s : string) : bool :=
  match s with EmptyString => true | _ => false end.

(** Truthiness of a [str]. *)
Definition str_truthy (s : string) : bool := negb (is_empty s).

Fixpoint lstrip_by (p : ascii -> bool) (s : string) : string :=
  match s with
  | EmptyString => EmptyString
  | String c s' => if p c then lstrip_by p s' else s
  end.

Fixpoint rstrip_by (p : ascii -> bool) (s : string) : string :=
  match s with
  | EmptyString => EmptyString
  | String c s' =>
      let r := rstrip_by p s' in
      if is_empty r && p c then EmptyString else String c r
  end.

Definition strip_by (p : ascii -> bool) (s : string) : string :=
  rstrip_by p (lstrip_by p s).

Fixpoint char_in (c : ascii) (chars : string) : bool :=
  match chars with
  | EmptyString => false
  | String d chars' => Ascii.eqb c d || char_in c chars'
  end.

(** [s.strip()] *)
Definition py_strip (s : string) : string := strip_by py_isspace s.

(** [s.strip(chars)] *)
Definition py_strip_chars (chars s : string) : string :=
  strip_by (fun c => char_in c chars) s.

(** [s.startswith(p)] *)
Fixpoint startswith (s p : string) : bool :=
  match p, s with
  | EmptyString, _ => true
  | String _ _, EmptyString => false
  | String d p', String c s' => Ascii.eqb c d && startswith s' p'
  end.

(** [sub in s] *)
Fixpoint contains (sub s : string) : bool :=
  startswith s sub ||
  match s with
  | EmptyString => false
  | String _ s' => contains sub s'
  end.

(** [s[n:]] *)
Fixpoint drop_str (n : nat) (s : string) : string :=
  match n, s with
  | O, _ => s
  | S _, EmptyString => EmptyString
  | S n', String _ s' => drop_str n' s'
  end.

(** [s.replace(old, new)] for a non-empty [old]: occurrences are found from
    the left and do not overlap.  [skip] counts the characters of a matched
    occurrence that are still to be passed over. *)
Fixpoint replace_from (old new : string) (skip : nat) (s : string) : string :=
  match s with
  | EmptyString => EmptyString
  | String c s' =>
      match skip with
      | S k => replace_from old new k s'
      | O =>
          if startswith s old
          then new +:+ replace_from old new (String.length old - 1) s'
          else String c (replace_from old new O s')
      end
  end.

Definition py_replace (old new s : string) : string :=
  replace_from old new O s.

(** [s.split(sep, 1)] for a one-character [sep], as the pair (head, tail)
    when [sep] occurs, and [None] when the result has a single element. *)
Fixpoint split_once (sep : ascii) (s : string) : option (string * string) :=
  match s with
  | EmptyString => None
  | String c s' =>
      if Ascii.eqb c sep then Some (EmptyString, s')
      else match split_once sep s' with
           | Some (h, t) => Some (String c h, t)
           | None => None
           end
  end.

(** [s.split(sep)] for a one-character [sep]. *)
Fixpoint split_all (sep : ascii) (s : string) : list string :=
  match s with
  | EmptyString => [EmptyString]
  | String c s' =>
      if Ascii.eqb c sep then EmptyString :: split_all sep s'
      else match split_all sep s' with
           | h :: t => String c h :: t
           | [] => [String c EmptyString]
           end
  end.

(** [s.split(sep, 1)[1]] for a multi-character [sep] that is known to
    occur: the text after the first occurrence. *)
Fixpoint after_first (sep s : string) : string :=
  if startswith s sep then drop_str (String.length sep) s
  else match s with
       | EmptyString => EmptyString
       | String _ s' => after_first sep s'
       end.

(** [re.sub(r"[^...]", repl, s)] for a negated character class given by its
    membership test, and a replacement character. *)
Fixpoint re_sub_not (keep : ascii -> bool) (repl : ascii) (s : string) : string :=
  match s with
  | EmptyString => EmptyString
  | String c s' =>
      String (if keep c then c else repl) (re_sub_not keep repl s')
  end.

(** [s.rfind(c)], with [None] for -1. *)
Fixpoint rfind (c : ascii) (s : string) : option nat :=
  match s with
  | EmptyString => None
  | String d s' =>
      match rfind c s' with
      | Some i => Some (S i)
      | None => if Ascii.eqb d c then Some O else None
      end
  end.

(** [s[:n]] *)
Fixpoint take_str (n : nat) (s : string) : string :=
  match n, s with
  | O, _ => EmptyString
  | S _, EmptyString => EmptyString
  | S n', String c s' => String c (take_str n' s')
  end.

(* ===================================================================== *)
(** * Python numbers                                                      *)
(* ===================================================================== *)

(** A Python [float] is an IEEE 754 binary64 value; the arithmetic is the
    Standard Library's executable specification of it (round to nearest,
    ties to even).  A Python [int] is unbounded. *)
Definition float : Type := spec_float.

Definition fprec : Z := 53.
Definition femax : Z := 1024.

Definition fdiv : float -> float -> float := SFdiv fprec femax.
Definition fmul : float -> float -> float := SFmul fprec femax.
Definition fadd : float -> float -> float := SFadd fprec femax.

(** The nearest binary64 value of an integer (infinite when out of range). *)
Definition f_of_Z (z : Z) : float := binary_normalize fprec femax z 0 false.

(** The binary64 value nearest to the decimal [n / 10^d]: what a literal
    such as [3.5] or [0.3] denotes. *)
Definition f_dec (n : Z) (d : nat) : float :=
  fdiv (f_of_Z n) (f_of_Z (10 ^ Z.of_nat d)).

Definition f_is_nan (f : float) : bool :=
  match f with S754_nan => true | _ => false end.

Definition f_is_inf (f : float) : bool :=
  match f with S754_infinity _ => true | _ => false end.

(** [x >= y], [x <= y], [x > y] on floats; false when either is NaN. *)
Definition f_ge (x y : float) : bool := SFleb y x.
Definition f_le (x y : float) : bool := SFleb x y.
Definition f_gt (x y : float) : bool := SFltb y x.

(** Truthiness of a float: everything but the two zeros. *)
Definition f_truthy (f : float) : bool :=
  match f with S754_zero _ => false | _ => true end.

(** [float(z)] for an int [z]. *)
Definition float_of_int (z : Z) : result float :=
  let f := f_of_Z z in
  if f_is_inf f then Raise (OverflowError "int too large to convert to float")
  else Ok f.

(** [int(f)]: truncation towards zero. *)
Definition int_of_float (f : float) : result Z :=
  match f with
  | S754_zero _ => Ok 0
  | S754_nan => Raise (ValueError "cannot convert float NaN to integer")
  | S754_infinity _ =>
      Raise (OverflowError "cannot convert float infinity to integer")
  | S754_finite s m e =>
      let a := if 0 <=? e then Z.shiftl (Zpos m) e else Z.shiftr (Zpos m) (- e) in
      Ok (if s then - a else a)
  end.

(** [a / b] for two ints: the correctly rounded quotient. *)
Definition int_truediv (a b : Z) : result float :=
  if b =? 0 then Raise (ZeroDivisionError "division by zero")
  else
    let s := xorb (a <? 0) (b <? 0) in
    if a =? 0 then Ok (S754_zero s)
    else
      let '(q, e, l) := SFdiv_core_binary fprec femax (Z.abs a) 0 (Z.abs b) 0 in
      let f := binary_round_aux fprec femax s q e l in
      if f_is_inf f
      then Raise (OverflowError "integer division result too large for a float")
      else Ok f.

(** [x / y] for two floats. *)
Definition float_truediv (x y : float) : result float :=
  match y with
  | S754_zero _ => Raise (ZeroDivisionError "float division by zero")
  | _ => Ok (fdiv x y)
  end.

(** An [int] or a [float], as found in a progress dictionary or in JSON. *)
Inductive pynum : Type :=
  | PInt (z : Z)
  | PFloat (f : float).

Definition num_truthy (n : pynum) : bool :=
  match n with
  | PInt z => negb (z =? 0)
  | PFloat f => f_truthy f
  end.

(** [n > 0] *)
Definition num_gt0 (n : pynum) : bool :=
  match n with
  | PInt z => 0 <? z
  | PFloat f => f_gt f (S754_zero false)
  end.

(** [x / y] *)
Definition num_truediv (x y : pynum) : result float :=
  match x, y with
  | PInt a, PInt b => int_truediv a b
  | PInt a, PFloat g => let? f := float_of_int a in float_truediv f g
  | PFloat f, PInt b => let? g := float_of_int b in float_truediv f g
  | PFloat f, PFloat g => float_truediv f g
  end.

(** [x + y] *)
Definition num_add (x y : pynum) : result pynum :=
  match x, y with
  | PInt a, PInt b => Ok (PInt (a + b))
  | PInt a, PFloat g => let? f := float_of_int a in Ok (PFloat (fadd f g))
  | PFloat f, PInt b => let? g := float_of_int b in Ok (PFloat (fadd f g))
  | PFloat f, PFloat g => Ok (PFloat (fadd f g))
  end.

(** [f * 100] for a float [f]. *)
Definition times100 (f : float) : float := fmul f (f_of_Z 100).

(* ===================================================================== *)
(** * JSON values and the built-ins left abstract                         *)
(* ===================================================================== *)

(** What [request.get_json] yields.  A [JObject] lists the items of a
    Python [dict]. *)
#[warnings="-register-all"]
Inductive jvalue : Type :=
  | JNull
  | JBool (b : bool)
  | JInt (z : Z)
  | JFloat (f : float)
  | JStr (s : string)
  | JArray (items : list jvalue)
  | JObject (fields : list (string * jvalue)).

(** [bool(v)] *)
Definition truthy (v : jvalue) : bool :=
  match v with
  | JNull => false
  | JBool b => b
  | JInt z => negb (z =? 0)
  | JFloat f => f_truthy f
  | JStr s => str_truthy s
  | JArray items => match items with [] => false | _ => true end
  | JObject fields => match fields with [] => false | _ => true end
  end.

(** [d.get(k)] on the items of a dict; [None] is Python's [None], returned
    both for a missing key and for a stored null. *)
Fixpoint items_get (k : string) (fields : list (string * jvalue)) : option jvalue :=
  match fields with
  | [] => None
  | (k', v) :: rest => if String.eqb k k' then Some v else items_get k rest
  end.

Definition dict_get (k : string) (fields : list (string * jvalue)) : jvalue :=
  match items_get k fields with
  | Some v => v
  | None => JNull
  end.

(** Built-ins of Python and of its standard library whose results the
    program consumes but which are not modelled here in full: they are
    parameters of the embedding. *)
Record pyenv : Type := {
  (** [float(text)] for a [str]; [None] stands for [ValueError]. *)
  float_of_str : string -> option float;
  (** [str(v)] for a list or a dict; it raises when the container cannot
      be printed: [ValueError] when it holds an integer beyond the limit
      for integer string conversion, [RecursionError] when it is nested
      too deep. *)
  str_of_container : jvalue -> result string;
  (** The checks [urlsplit] makes on a network location with both square
      brackets: [_check_bracketed_host] on the text between them and,
      where the interpreter has it, [_check_bracketed_netloc]; [None] when
      they pass, the exception when one raises. *)
  bracketed_netloc_check : string -> option exn;
  (** [_checknetloc] past its first test: whether the NFKC form of the
      text differs from it and holds one of [/?#@:]. *)
  nfkc_unsafe : string -> bool;
  (** [sys.get_int_max_str_digits()]: 0 when integer string conversion has
      no limit (as before Python 3.11), otherwise at least 640. *)
  int_max_str_digits : nat;
  (** [json.dumps] as [jsonify] calls it, for the body of a response:
      [None] when it returns, the exception when it raises (it raises
      [ValueError] for an integer beyond the limit for integer string
      conversion). *)
  jsonify_error : list (string * jvalue) -> option exn;
  (** [str(Path(text).expanduser())]; it raises [RuntimeError] when a home
      directory cannot be determined. *)
  expanduser : string -> result string
}.

(* ===================================================================== *)
(** * [pathlib] (POSIX flavour, Python 3.10 to 3.13)                      *)
(* ===================================================================== *)

(** The components of [Path(text)]: the pieces between slashes, without the
    empty ones and the single dots. *)
Definition path_parts (text : string) : list string :=
  List.filter (fun x => negb (is_empty x) && negb (String.eqb x "."))
    (split_all "/" text).

(** [Path(text).name] *)
Definition path_name (text : string) : string :=
  List.last (path_parts text) EmptyString.

(** The index of the dot that starts the suffix of a file name: the last
    dot, when it is neither the first nor the last character. *)
Definition suffix_index (name : string) : option nat :=
  match rfind "." name with
  | Some i => if ((0 <? i) && (i <? String.length name - 1))%nat then Some i else None
  | None => None
  end.

(** [PurePath.suffix] and [PurePath.stem], on the name. *)
Definition name_suffix (name : string) : string :=
  match suffix_index name with
  | Some i => drop_str i name
  | None => EmptyString
  end.

Definition name_stem (name : string) : string :=
  match suffix_index name with
  | Some i => take_str i name
  | None => name
  end.

(* ===================================================================== *)
(** * Format policy                                                       *)
(* ===================================================================== *)

Definition quality_map : list (string * string) :=
  [("360p", "360"); ("720p", "720"); ("1080p60", "1080")].

Fixpoint assoc (k : string) (l : list (string * string)) : option string :=
  match l with
  | [] => None
  | (k', v) :: rest => if String.eqb k k' then Some v else assoc k rest
  end.

Definition get_format_selector (fmt quality : string) (sound_on : bool)
  : result string :=
  match assoc quality quality_map with
  | None => Raise (ValueError "Unsupported quality")
  | Some max_h =>
      if String.eqb fmt "mp3" then Ok "bestaudio/best"
      else if negb (String.eqb fmt "mp4") then Raise (ValueError "Unsupported format")
      else if String.eqb quality "1080p60" then
        if sound_on then
          Ok ("bestvideo[ext=mp4][height<=1080][fps>=60]+bestaudio[ext=m4a]"
              +:+ "/bestvideo[height<=1080][fps>=60]+bestaudio"
              +:+ "/best[ext=mp4][height<=1080][fps>=60]"
              +:+ "/best[height<=1080]")
        else
          Ok ("bestvideo[ext=mp4][height<=1080][fps>=60]"
              +:+ "/bestvideo[height<=1080][fps>=60]"
              +:+ "/bestvideo[height<=1080]")
      else if sound_on then
        Ok ("bestvideo[ext=mp4][height<=" +:+ max_h +:+ "]+bestaudio[ext=m4a]"
            +:+ "/best[ext=mp4][height<=" +:+ max_h +:+ "]"
            +:+ "/best[height<=" +:+ max_h +:+ "]")
      else
        Ok ("bestvideo[ext=mp4][height<=" +:+ max_h
            +:+ "]/bestvideo[height<=" +:+ max_h +:+ "]")
  end.

(* ===================================================================== *)
(** * Path sanitizer                                                      *)
(* ===================================================================== *)

(** The character class [[A-Za-z0-9._ -]]. *)
Definition safe_char (c : ascii) : bool :=
  in_range 65 90 c || in_range 97 122 c || in_range 48 57 c
  || char_in c "._ -".

(** [x or None] for a [str]. *)
Definition nonempty (s : string) : option string :=
  if is_empty s then None else Some s.

Definition sanitize_file_basename (name : option string) : option string :=
  match name with
  | None => None
  | Some name =>
      let text := py_strip name in
      let text :=
        if str_truthy (name_suffix (path_name text))
        then name_stem (path_name text)
        else text in
      let safe := py_strip_chars " ." (re_sub_not safe_char "_" text) in
      nonempty safe
  end.

(* ===================================================================== *)
(** * [urllib.parse] (CPython 3.12)                                       *)
(* ===================================================================== *)

Record parse_result : Type := {
  scheme : string;
  netloc : string;
  path : string;
  params : string;
  query : string;
  fragment : string
}.

Definition is_alpha (c : ascii) : bool := in_range 65 90 c || in_range 97 122 c.
Definition is_digit (c : ascii) : bool := in_range 48 57 c.

(** [scheme_chars]: letters, digits and [+-.]. *)
Definition scheme_char (c : ascii) : bool :=
  is_alpha c || is_digit c || char_in c "+-.".

Fixpoint all_chars (p : ascii -> bool) (s : string) : bool :=
  match s with
  | EmptyString => true
  | String c s' => p c && all_chars p s'
  end.

(** [_WHATWG_C0_CONTROL_OR_SPACE] *)
Definition c0_or_space (c : ascii) : bool := (code c <=? 32)%nat.

(** The characters of [_UNSAFE_URL_BYTES_TO_REMOVE]: tab, CR, LF. *)
Definition unsafe_url_char (c : ascii) : bool :=
  (code c =? 9)%nat || (code c =? 13)%nat || (code c =? 10)%nat.

Fixpoint remove_chars (p : ascii -> bool) (s : string) : string :=
  match s with
  | EmptyString => EmptyString
  | String c s' => if p c then remove_chars p s' else String c (remove_chars p s')
  end.

(** Cut [s] before the first character satisfying [p]: (before, from). *)
Fixpoint break_at (p : ascii -> bool) (s : string) : string * string :=
  match s with
  | EmptyString => (EmptyString, EmptyString)
  | String c s' =>
      if p c then (EmptyString, s)
      else let '(a, b) := break_at p s' in (String c a, b)
  end.

(** The scheme step of [urlsplit]: with [i = url.find(':')], a scheme is
    recognised when [i > 0], the first character is an ASCII letter and
    [url[:i]] has scheme characters only. *)
Definition split_scheme (url : string) : string * string :=
  match split_once ":" url with
  | Some (String c0 rest as head, tail) =>
      if is_alpha c0 && all_chars scheme_char head
      then (py_lower head, tail)
      else (EmptyString, url)
  | _ => (EmptyString, url)
  end.

(** [_splitnetloc(url, 2)]: the network location ends at the first of
    [/], [?], [#]. *)
Definition splitnetloc (url : string) : string * string :=
  break_at (fun c => char_in c "/?#") (drop_str 2 url).

(** [s.isascii()] *)
Definition isascii (s : string) : bool :=
  all_chars (fun c => (code c <? 128)%nat) s.

(** [_checknetloc(netloc)]: an empty or ASCII text passes; otherwise the
    characters [@:#?] are dropped and the NFKC form of the rest is
    looked at. *)
Definition checknetloc (E : pyenv) (netloc : string) : result unit :=
  if is_empty netloc || isascii netloc then Ok tt
  else if nfkc_unsafe E (remove_chars (fun c => char_in c "@:#?") netloc)
  then Raise (ValueError ("netloc '" +:+ netloc +:+
                          "' contains invalid characters under NFKC normalization"))
  else Ok tt.

Definition has_char (c : ascii) (s : string) : bool := char_in c s.

Definition urlsplit (E : pyenv) (url : string) : result parse_result :=
  let url := lstrip_by c0_or_space url in
  let url := remove_chars unsafe_url_char url in
  let '(sch, url) := split_scheme url in
  let? (nl, url) :=
    if startswith url "//" then
      let '(nl, rest) := splitnetloc url in
      if (has_char "[" nl && negb (has_char "]" nl))
         || (has_char "]" nl && negb (has_char "[" nl))
      then Raise (ValueError "Invalid IPv6 URL")
      else if has_char "[" nl && has_char "]" nl then
        match bracketed_netloc_check E nl with
        | Some e => Raise e
        | None => Ok (nl, rest)
        end
      else Ok (nl, rest)
    else Ok (EmptyString, url) in
  let '(url, frag) :=
    match split_once "#" url with
    | Some (a, b) => (a, b)
    | None => (url, EmptyString)
    end in
  let '(url, qry) :=
    match split_once "?" url with
    | Some (a, b) => (a, b)
    | None => (url, EmptyString)
    end in
  let? _ := checknetloc E nl in
  Ok {| scheme := sch; netloc := nl; path := url; params := EmptyString;
        query := qry; fragment := frag |}.

Definition uses_params : list string :=
  [""; "ftp"; "hdl"; "prospero"; "http"; "imap"; "https"; "shttp"; "rtsp";
   "rtsps"; "rtspu"; "sip"; "sips"; "mms"; "sftp"; "tel"].

Definition str_in (x : string) (l : list string) : bool :=
  existsb (String.eqb x) l.

(** [_splitparams]: the parameters start at the first [;] of the last path
    segment. *)
Definition splitparams (url : string) : string * string :=
  match rfind "/" url with
  | Some r =>
      match split_once ";" (drop_str r url) with
      | Some (a, b) => (take_str r url +:+ a, b)
      | None => (url, EmptyString)
      end
  | None =>
      match split_once ";" url with
      | Some (a, b) => (a, b)
      | None => (url, EmptyString)
      end
  end.

Definition urlparse (E : pyenv) (url : string) : result parse_result :=
  let? r := urlsplit E url in
  if str_in (scheme r) uses_params && has_char ";" (path r) then
    let '(p, prm) := splitparams (path r) in
    Ok {| scheme := scheme r; netloc := netloc r; path := p; params := prm;
          query := query r; fragment := fragment r |}
  else Ok r.

Definition hex_val (c : ascii) : option nat :=
  if is_digit c then Some (code c - 48)%nat
  else if in_range 97 102 c then Some (code c - 87)%nat
  else if in_range 65 70 c then Some (code c - 55)%nat
  else None.

(** The byte of a [%XX] escape at the head of [s], if there is one. *)
Definition escape_at (s : string) : option nat :=
  match s with
  | String "%" (String h (String l _)) =>
      match hex_val h, hex_val l with
      | Some a, Some b => Some (16 * a + b)%nat
      | _, _ => None
      end
  | _ => None
  end.

(** [unquote(s)]: every [%XX] escape is replaced by its byte and the bytes
    are decoded as UTF-8.  An escaped byte below 128 is the character with
    that code.  Escaped bytes from 128 on decode to characters outside
    ASCII (or to U+FFFD); this decoding is not modelled, and the result is
    then [None]: a text that is no ASCII string. *)
Fixpoint unquote_from (skip : nat) (s : string) : option string :=
  match s with
  | EmptyString => Some EmptyString
  | String c s' =>
      match skip with
      | S k => unquote_from k s'
      | O =>
          match escape_at s with
          | Some b =>
              if (b <? 128)%nat
              then option_map (String (ascii_of_nat b)) (unquote_from 2 s')
              else None
          | None => option_map (String c) (unquote_from O s')
          end
      end
  end.

Definition unquote (s : string) : option string := unquote_from O s.

(** [parse_qsl(qs)] with the defaults: fields are separated by [&]; a field
    without [=] or with a blank value is dropped. *)
Definition parse_qsl (qs : string) : list (option string * option string) :=
  flat_map
    (fun name_value =>
       if is_empty name_value then []
       else match split_once "=" name_value with
            | None => []
            | Some (n, v) =>
                if is_empty v then []
                else [(unquote (py_replace "+" " " n),
                       unquote (py_replace "+" " " v))]
            end)
    (split_all "&" qs).

(** [k in parse_qs(qs)] *)
Definition in_parse_qs (k qs : string) : bool :=
  existsb (fun nv => match fst nv with
                     | Some n => String.eqb n k
                     | None => false
                     end) (parse_qsl qs).

(* ===================================================================== *)
(** * URL validators                                                      *)
(* ===================================================================== *)

(** [url if "://" in url else f"https://{url}"] *)
Definition with_default_scheme (url : string) : string :=
  if contains "://" url then url else "https://" +:+ url.

(** [(parsed.netloc or "").lower().replace("www.", "")] *)
Definition host_of (p : parse_result) : string :=
  py_replace "www." "" (py_lower (netloc p)).

Definition is_valid_youtube_url (E : pyenv) (url : string) : result bool :=
  if is_empty url then Ok false
  else
    let? parsed := urlparse E (with_default_scheme url) in
    let host := host_of parsed in
    if String.eqb host "youtu.be" then
      Ok (str_truthy (py_strip_chars "/" (path parsed)))
    else if str_in host ["youtube.com"; "m.youtube.com"] then
      if String.eqb (path parsed) "/watch" then
        Ok (in_parse_qs "v" (query parsed))
      else if startswith (path parsed) "/shorts/" then
        Ok (str_truthy (after_first "/shorts/" (path parsed)))
      else Ok false
    else Ok false.

Definition is_valid_tiktok_url (E : pyenv) (url : string) : result bool :=
  if is_empty url then Ok false
  else
    let? parsed := urlparse E (with_default_scheme url) in
    let host := host_of parsed in
    if str_in host ["tiktok.com"; "m.tiktok.com"; "vm.tiktok.com"; "vt.tiktok.com"]
    then Ok (str_truthy (py_strip_chars "/" (path parsed)))
    else Ok false.

Definition is_valid_instagram_url (E : pyenv) (url : string) : result bool :=
  if is_empty url then Ok false
  else
    let? parsed := urlparse E (with_default_scheme url) in
    let host := host_of parsed in
    if negb (str_in host ["instagram.com"; "m.instagram.com"]) then Ok false
    else
      let path := path parsed in
      Ok (startswith path "/reel/" || startswith path "/p/"
          || startswith path "/tv/").

(* ===================================================================== *)
(** * Metrics scoring                                                     *)
(* ===================================================================== *)

(** The last part of [safe_float]: strip the text, drop [,], [%] and [$],
    and hand it to [float]; a [ValueError] gives [None]. *)
Definition float_of_text (E : pyenv) (str_value : string) : option float :=
  let text := py_replace "," "" (py_strip str_value) in
  let text := py_replace "%" "" text in
  let text := py_replace "$" "" text in
  float_of_str E text.

Definition safe_float (E : pyenv) (value : jvalue) : result (option float) :=
  match value with
  | JNull => Ok None
  | JBool b => let? f := float_of_int (if b then 1 else 0) in Ok (Some f)
  | JInt z => let? f := float_of_int z in Ok (Some f)
  | JFloat f => Ok (Some f)
  | JStr s => if is_empty s then Ok None else Ok (float_of_text E s)
  | JArray _ | JObject _ =>
      let? str_value := str_of_container E value in
      Ok (float_of_text E str_value)
  end.

Definition score_higher_better (value : option float) (good ok : float)
  : option Z :=
  match value with
  | None => None
  | Some v =>
      if f_ge v good then Some 95
      else if f_ge v ok then Some 75
      else Some 45
  end.

Definition score_lower_better (value : option float) (good ok : float)
  : option Z :=
  match value with
  | None => None
  | Some v =>
      if f_le v good then Some 95
      else if f_le v ok then Some 75
      else Some 45
  end.

(** One entry of the [results] list. *)
Record metric_result : Type := {
  m_name : string;
  m_value : option float;
  m_score : option Z;
  m_rating : string
}.

(** The two lists [add_metric] appends to. *)
Record metric_acc : Type := {
  results : list metric_result;
  tips : list string
}.

Definition add_metric (name : string) (value : option float) (score : option Z)
    (low_tip : string) (acc : metric_acc) : metric_acc :=
  match score with
  | None =>
      {| results := results acc ++
           [{| m_name := name; m_value := value; m_score := None;
               m_rating := "No data" |}];
         tips := tips acc |}
  | Some sc =>
      let rating :=
        if 90 <=? sc then "Excellent"
        else if 70 <=? sc then "Good" else "Needs Work" in
      {| results := results acc ++
           [{| m_name := name; m_value := value; m_score := Some sc;
               m_rating := rating |}];
         tips := if sc <? 70 then tips acc ++ [low_tip] else tips acc |}
  end.

(** [x or 0] for an optional float. *)
Definition or0 (x : option float) : pynum :=
  match x with
  | Some f => if f_truthy f then PFloat f else PInt 0
  | None => PInt 0
  end.

(** [x and x > 0] as a condition. *)
Definition positive_value (x : option float) : bool :=
  match x with
  | Some f => f_truthy f && f_gt f (S754_zero false)
  | None => false
  end.

Definition is_none {A} (x : option A) : bool :=
  match x with None => true | Some _ => false end.

Record analysis : Type := {
  overall_score : Z;
  verdict : string;
  metrics : list metric_result;
  out_tips : list string;
  notes : list string
}.

(** [[r["score"] for r in results if isinstance(r.get("score"), int)]] *)
Definition numeric_scores (rs : list metric_result) : list Z :=
  flat_map (fun r => match m_score r with Some sc => [sc] | None => [] end) rs.

Definition sum_Z (l : list Z) : Z := fold_right Z.add 0 l.

(** [int(sum(numeric_scores) / len(numeric_scores)) if numeric_scores else 0] *)
Definition overall_of (scores : list Z) : result Z :=
  match scores with
  | [] => Ok 0
  | _ =>
      let? q := int_truediv (sum_Z scores) (Z.of_nat (length scores)) in
      int_of_float q
  end.

Definition fz (z : Z) : float := f_of_Z z.

Definition analyze_metrics (E : pyenv) (m : list (string * jvalue))
  : result analysis :=
  let get k := safe_float E (dict_get k m) in
  let? views := get "views" in
  let? likes := get "likes" in
  let? dislikes := get "dislikes" in
  let? ctr := get "ctr" in
  let? avd := get "avd" in
  let? apv := get "apv" in
  let? impressions := get "impressions" in
  let? unique_viewers := get "unique_viewers" in
  let? watch_time := get "watch_time" in
  let? shares := get "shares" in
  let? comments := get "comments" in
  let? subs_gained := get "subs_gained" in
  let? subs_lost := get "subs_lost" in
  let? returning_viewers := get "returning_viewers" in
  let? new_viewers := get "new_viewers" in
  let? end_screen_ctr := get "end_screen_ctr" in
  let? card_clicks := get "card_teaser_clicks" in
  let? rpm := get "rpm" in
  let? cpm := get "cpm" in
  let? playback_cpm := get "playback_cpm" in
  let? estimated_revenue := get "estimated_revenue" in
  let? audience_retention := get "audience_retention" in
  let? relative_retention := get "relative_retention" in
  let? sub_to_view_ratio := get "sub_to_view_ratio" in
  let? engagement_rate := get "engagement_rate" in
  let? engagement_rate :=
    match views with
    | Some v =>
        if positive_value views && is_none engagement_rate then
          let? t := num_add (or0 likes) (or0 comments) in
          let? total_interactions := num_add t (or0 shares) in
          let? q := num_truediv total_interactions (PFloat v) in
          Ok (Some (times100 q))
        else Ok engagement_rate
    | None => Ok engagement_rate
    end in
  let? sub_to_view_ratio :=
    match views with
    | Some v =>
        if positive_value views && is_none sub_to_view_ratio then
          let? q := num_truediv (or0 subs_gained) (PFloat v) in
          Ok (Some (times100 q))
        else Ok sub_to_view_ratio
    | None => Ok sub_to_view_ratio
    end in
  let? apv :=
    match apv, avd with
    | None, Some a =>
        let? duration := get "duration_seconds" in
        match duration with
        | Some d =>
            if positive_value duration then
              let? q := float_truediv a d in Ok (Some (times100 q))
            else Ok apv
        | None => Ok apv
        end
    | _, _ => Ok apv
    end in
  let hb v good ok := score_higher_better v good ok in
  let acc := {| results := []; tips := [] |} in
  let acc := add_metric "CTR" ctr (hb ctr (fz 6) (f_dec 35 1))
    "Low CTR: test 2-3 stronger title/thumbnail combinations with clearer promise." acc in
  let acc := add_metric "AVD (sec)" avd (hb avd (fz 240) (fz 90))
    "Low AVD: tighten first 30 seconds and remove slow segments." acc in
  let acc := add_metric "APV (%)" apv (hb apv (fz 45) (fz 30))
    "Low APV: improve pacing and set up stronger open loops." acc in
  let acc := add_metric "Engagement Rate (%)" engagement_rate
    (hb engagement_rate (fz 4) (fz 2))
    "Low engagement: ask a specific comment question and add a stronger CTA." acc in
  let acc := add_metric "Audience Retention (%)" audience_retention
    (hb audience_retention (fz 45) (fz 30))
    "Low retention: inspect drop-off timestamps and trim weak sections." acc in
  let acc := add_metric "Relative Retention (%)" relative_retention
    (hb relative_retention (fz 100) (fz 80))
    "Relative retention is below peers: tighten storytelling and add pattern interrupts." acc in
  let acc := add_metric "Sub-to-View Ratio (%)" sub_to_view_ratio
    (hb sub_to_view_ratio (fz 1) (f_dec 3 1))
    "Low subscriber conversion: explicitly state why viewers should subscribe." acc in
  let acc := add_metric "End Screen CTR (%)" end_screen_ctr
    (hb end_screen_ctr (fz 1) (f_dec 5 1))
    "Low end-screen CTR: simplify to one clear next-video recommendation." acc in
  let acc := add_metric "Shares" shares (hb shares (fz 50) (fz 10))
    "Low shares: add practical takeaways people can send to others." acc in
  let acc := add_metric "Comments" comments (hb comments (fz 25) (fz 5))
    "Low comments: pin a polarizing or specific question." acc in
  let acc := add_metric "Subscribers Gained" subs_gained
    (hb subs_gained (fz 20) (fz 5))
    "Few subscribers gained: clarify channel value proposition in intro and outro." acc in
  let acc := add_metric "Subscribers Lost" subs_lost
    (score_lower_better subs_lost (fz 5) (fz 20))
    "High subscriber loss: align content topic with audience expectations." acc in
  let acc := add_metric "Returning Viewers" returning_viewers
    (hb returning_viewers (fz 1000) (fz 200))
    "Low returning viewers: publish consistent series and recurring formats." acc in
  let acc := add_metric "New Viewers" new_viewers (hb new_viewers (fz 1000) (fz 200))
    "Low new viewers: improve search intent alignment and topic selection." acc in
  let acc := add_metric "Card Teaser Clicks" card_clicks (hb card_clicks (fz 30) (fz 8))
    "Low card clicks: place cards at high-retention moments." acc in
  let acc := add_metric "RPM" rpm (hb rpm (fz 4) (f_dec 15 1))
    "Low RPM: target higher-intent topics and optimize audience geography." acc in
  let acc := add_metric "CPM" cpm (hb cpm (fz 8) (fz 3))
    "Low CPM: adjust content niche toward stronger advertiser demand." acc in
  let acc := add_metric "Playback-based CPM" playback_cpm (hb playback_cpm (fz 8) (fz 3))
    "Low playback CPM: improve ad-friendly pacing and topic fit." acc in
  let acc := add_metric "Estimated Revenue" estimated_revenue
    (hb estimated_revenue (fz 100) (fz 20))
    "Low revenue: focus on videos with stronger retention and ad suitability." acc in
  let? acc :=
    match views, impressions with
    | Some v, Some i =>
        if f_gt i (S754_zero false) then
          let? q := float_truediv v i in
          let view_from_impressions := Some (times100 q) in
          Ok (add_metric "View/Impression Ratio (%)" view_from_impressions
                (hb view_from_impressions (fz 6) (fz 3))
                "Low views from impressions: test new packaging (title/thumbnail) and improve hook delivery."
                acc)
        else Ok acc
    | _, _ => Ok acc
    end in
  let? acc :=
    match likes, dislikes with
    | Some l, Some d =>
        if f_gt (fadd l d) (S754_zero false) then
          let? q := float_truediv l (fadd l d) in
          let like_ratio := Some (times100 q) in
          Ok (add_metric "Like Ratio (%)" like_ratio
                (hb like_ratio (fz 95) (fz 85))
                "Low like ratio: clarify expectations in title and deliver on promise sooner."
                acc)
        else Ok acc
    | _, _ => Ok acc
    end in
  let? overall := overall_of (numeric_scores (results acc)) in
  let verdict :=
    if 85 <=? overall then "Strong performance"
    else if 70 <=? overall then "Healthy, but with optimization room"
    else "Underperforming" in
  let tips :=
    match tips acc with
    | [] => ["Metrics look healthy. Keep testing titles, thumbnails, and first-30-second hooks."]
    | t => t
    end in
  Ok {| overall_score := overall;
        verdict := verdict;
        metrics := results acc;
        out_tips := firstn 12 tips;
        notes :=
          ["Most advanced metrics (CTR, AVD, APV, retention, revenue, RPM/CPM) are YouTube Studio analytics inputs.";
           "Public fetch can auto-fill only limited fields like views/likes/comments/title/duration."] |}.

(* ===================================================================== *)
(** * Paths and the file system                                           *)
(* ===================================================================== *)

(** A [Path]: its root ([""], ["/"] or ["//"]) and its components. *)
Record ppath : Type := {
  p_root : string;
  p_parts : list string
}.

(** [Path(text)] *)
Definition parse_path (text : string) : ppath :=
  let root :=
    if negb (startswith text "/") then ""
    else if startswith text "//" && negb (startswith text "///") then "//"
    else "/" in
  {| p_root := root; p_parts := path_parts text |}.

Fixpoint join_with (sep : string) (l : list string) : string :=
  match l with
  | [] => EmptyString
  | [x] => x
  | x :: rest => x +:+ sep +:+ join_with sep rest
  end.

(** [str(p)] *)
Definition path_str (p : ppath) : string :=
  match p_root p, p_parts p with
  | EmptyString, [] => "."
  | r, parts => r +:+ join_with "/" parts
  end.

(** [p / text] *)
Definition path_join (p : ppath) (text : string) : ppath :=
  let q := parse_path text in
  if str_truthy (p_root q) then q
  else {| p_root := p_root p; p_parts := p_parts p ++ p_parts q |}.

(** [p.name] and [p.parent] *)
Definition p_name (p : ppath) : string := List.last (p_parts p) EmptyString.

Definition p_parent (p : ppath) : ppath :=
  {| p_root := p_root p; p_parts := removelast (p_parts p) |}.

(** [p.with_suffix(suffix)] for a suffix that starts with a dot. *)
Definition with_suffix (p : ppath) (suffix : string) : result ppath :=
  let name := p_name p in
  if is_empty name then Raise (ValueError "path has an empty name")
  else Ok {| p_root := p_root p;
             p_parts := removelast (p_parts p) ++ [name_stem name +:+ suffix] |}.

Fixpoint strings_eqb (a b : list string) : bool :=
  match a, b with
  | [], [] => true
  | x :: a', y :: b' => String.eqb x y && strings_eqb a' b'
  | _, _ => false
  end.

Definition path_eqb (p q : ppath) : bool :=
  String.eqb (p_root p) (p_root q) && strings_eqb (p_parts p) (p_parts q).

(** The directory entries that exist, each with its modification time, in
    the order in which a directory scan yields them. *)
Definition filesystem : Type := list (ppath * Z).

(** [p.exists()] *)
Definition path_exists (fs : filesystem) (p : ppath) : bool :=
  existsb (fun e => path_eqb (fst e) p) fs.

(** [dir.glob(f"{base}.*")] for a [base] without pattern characters: the
    entries of [dir] whose name starts with [base] and a dot. *)
Definition glob_base (fs : filesystem) (dir : ppath) (base : string)
  : list (ppath * Z) :=
  List.filter
    (fun e => path_eqb (p_parent (fst e)) dir
              && negb (is_empty (p_name (fst e)))
              && startswith (p_name (fst e)) (base +:+ "."))
    fs.

(** [sorted(l, key=mtime, reverse=True)]: a stable sort, latest first;
    entries of equal time keep their order. *)
Fixpoint insert_desc (x : ppath * Z) (l : list (ppath * Z)) : list (ppath * Z) :=
  match l with
  | [] => [x]
  | y :: rest => if snd y <=? snd x then x :: l else y :: insert_desc x rest
  end.

Definition sorted_by_mtime_desc (l : list (ppath * Z)) : list (ppath * Z) :=
  fold_right insert_desc [] l.

(* ===================================================================== *)
(** * The result of the external downloader                               *)
(* ===================================================================== *)

(** The fields of the [info] dictionary that the program reads:
    the [filepath] of each entry of [requested_downloads], and [title]. *)
Record info_dict : Type := {
  requested_downloads : list (option string);
  title : option string
}.

(** [a or b] for optional strings. *)
Definition or_else (a : option string) (b : option string) : option string :=
  match a with
  | Some s => if str_truthy s then a else b
  | None => b
  end.

Definition resolve_output_path (info : info_dict) (fmt : string)
    (download_dir : ppath) (preferred_base : option string) : result ppath :=
  let reported :=
    match requested_downloads info with
    | first :: _ => or_else first None
    | [] => None
    end in
  match reported with
  | Some fp =>
      let path := parse_path fp in
      if String.eqb fmt "mp3" then with_suffix path ".mp3" else Ok path
  | None =>
      let template_base :=
        or_else (or_else preferred_base (title info)) (Some "download") in
      let safe :=
        match sanitize_file_basename template_base with
        | Some s => s
        | None => "download"
        end in
      let ext := if String.eqb fmt "mp3" then "mp3" else "mp4" in
      Ok (path_join download_dir (safe +:+ "." +:+ ext))
  end.

(** Lines 277-285 of [run_download_job] (and 347-355 of
    [run_social_download_job]): the path of the downloaded file. *)
Definition locate_output (fs : filesystem) (info : info_dict) (fmt : string)
    (target_dir : ppath) (safe_name : string) : result ppath :=
  let? final_path := resolve_output_path info fmt target_dir (Some safe_name) in
  let final_path :=
    if negb (path_exists fs final_path) then
      match sorted_by_mtime_desc (glob_base fs target_dir safe_name) with
      | c :: _ => fst c
      | [] => final_path
      end
    else final_path in
  if negb (path_exists fs final_path)
  then Raise (FileNotFoundError "Download finished but output file was not found.")
  else Ok final_path.

(* ===================================================================== *)
(** * Job store                                                           *)
(* ===================================================================== *)

(** The arguments a worker thread is started with. *)
Inductive thread : Type :=
  | run_download_job_thread (job_id url fmt quality : string) (sound_on : bool)
      (output_dir output_name : option string)
  | run_social_download_job_thread (job_id url : string)
      (output_dir output_name : option string).

(** The shared state.  Python dictionaries are objects: [heap] holds the
    job records by address, and the module-level [jobs] maps a job id to
    the address of its record.  [spawned] lists the threads started. *)
Record world : Type := {
  jobs : gmap string nat;
  heap : gmap nat (gmap string jvalue);
  spawned : list thread
}.

Definition empty_world : world :=
  {| jobs := ∅; heap := ∅; spawned := [] |}.

(** The record at an address (an address in use always has one). *)
Definition deref (w : world) (l : nat) : gmap string jvalue :=
  default ∅ (heap w !! l).

(** The dictionary literal of lines 590-598 and 633-641. *)
Definition new_job_record (now : float) : gmap string jvalue :=
  list_to_map
    [("status", JStr "queued"); ("progress", JInt 0); ("error", JNull);
     ("file_path", JNull); ("file_name", JNull); ("saved_dir", JNull);
     ("created_at", JFloat now)].

(** [jobs[job_id] = {...}]: a new dictionary object is allocated and bound
    to the id. *)
Definition bind_job (job_id : string) (d : gmap string jvalue) (w : world) : world :=
  let l := fresh (dom (heap w)) in
  {| jobs := <[job_id := l]> (jobs w);
     heap := <[l := d]> (heap w);
     spawned := spawned w |}.

(** [dict.update]: the given fields are added or overwritten. *)
Definition dict_update (kwargs d : gmap string jvalue) : gmap string jvalue :=
  kwargs ∪ d.

Definition update_job (job_id : string) (kwargs : gmap string jvalue) (w : world)
  : world :=
  match jobs w !! job_id with
  | Some l =>
      {| jobs := jobs w;
         heap := alter (dict_update kwargs) l (heap w);
         spawned := spawned w |}
  | None => w
  end.

(** [create_job], given the fresh [uuid.uuid4().hex] and [time.time()]. *)
Definition create_job (job_id : string) (now : float) (w : world) : world :=
  bind_job job_id (new_job_record now) w.

Definition start_thread (t : thread) (w : world) : world :=
  {| jobs := jobs w; heap := heap w; spawned := spawned w ++ [t] |}.

(** The record of a job, if the id is bound. *)
Definition job_record (w : world) (job_id : string) : option (gmap string jvalue) :=
  match jobs w !! job_id with
  | Some l => Some (deref w l)
  | None => None
  end.

(* ===================================================================== *)
(** * Job runner                                                          *)
(* ===================================================================== *)

(** A dictionary passed to a progress hook: the keys the hook reads. *)
Record hook_event : Type := {
  ev_status : option string;
  total_bytes : option pynum;
  total_bytes_estimate : option pynum;
  downloaded_bytes : option pynum
}.

(** [a or b] for optional numbers, [b] being a number. *)
Definition num_or (a : option pynum) (b : pynum) : pynum :=
  match a with
  | Some n => if num_truthy n then n else b
  | None => b
  end.

Definition kw_progress (p : Z) : gmap string jvalue :=
  {[ "progress" := JInt p ]}.

(** The closure [hook]: the keyword arguments of the [update_job] call it
    makes, if it makes one. *)
Definition hook (d : hook_event) : result (option (gmap string jvalue)) :=
  match ev_status d with
  | Some status =>
      if String.eqb status "downloading" then
        let total := num_or (total_bytes d) (num_or (total_bytes_estimate d) (PInt 0)) in
        let downloaded := num_or (downloaded_bytes d) (PInt 0) in
        if num_gt0 total then
          let? q := num_truediv downloaded total in
          let? pct := int_of_float (times100 q) in
          Ok (Some (kw_progress (Z.max 1 (Z.min pct 99))))
        else Ok None
      else if String.eqb status "finished" then Ok (Some (kw_progress 98))
      else Ok None
  | None => Ok None
  end.

Record ydl_opts : Type := {
  opt_format : string;
  opt_outtmpl : string;
  opt_ffmpeg_location : option string;
  opt_extract_audio_mp3 : bool;
  opt_merge_output_format : option string
}.

(** How a call of [extract_info(url, download=True)] ends: with the info
    dictionary ([None] when the downloader returns [None]) and the file
    system it leaves behind, or with an exception. *)
Inductive download_end : Type :=
  | Finished (info : option info_dict) (fs : filesystem)
  | Failed (e : exn).

(** What the download does: the dictionaries it passes to the progress
    hook, in order, and how it ends. *)
Record download_run : Type := {
  events : list hook_event;
  ending : download_end
}.

(** The surroundings of a runner. *)
Record runner_env : Type := {
  DOWNLOAD_DIR : ppath;
  (** [target_dir.mkdir(parents=True, exist_ok=True)]: [None] on success,
      [str(exc)] on failure. *)
  mkdir : ppath -> option string;
  (** [detect_ffmpeg_bin_dir()]: the folder or [None]; it raises when
      [Path.home()] cannot determine a home directory. *)
  detect_ffmpeg_bin_dir : result (option string);
  extract_info : ydl_opts -> string -> download_run
}.

Definition kw_error (msg : string) : gmap string jvalue :=
  {[ "status" := JStr "error"; "error" := JStr msg; "progress" := JInt 0 ]}.

Definition kw_completed (final_path : ppath) : gmap string jvalue :=
  {[ "status" := JStr "completed";
     "progress" := JInt 100;
     "file_path" := JStr (path_str final_path);
     "file_name" := JStr (p_name final_path);
     "saved_dir" := JStr (path_str (p_parent final_path)) ]}.

(** The hook calls of a download, up to the first one that raises: the
    updates made, and the exception if a call raised (it then leaves
    [extract_info] in place of the download's own ending). *)
Fixpoint run_hooks (evs : list hook_event)
  : list (gmap string jvalue) * option exn :=
  match evs with
  | [] => ([], None)
  | d :: rest =>
      match hook d with
      | Raise e => ([], Some e)
      | Ok u =>
          let '(us, r) := run_hooks rest in
          (match u with Some kw => kw :: us | None => us end, r)
      end
  end.

(** [sanitize_file_basename(output_name) or job_id] *)
Definition safe_name_of (output_name : option string) (job_id : string) : string :=
  match sanitize_file_basename output_name with
  | Some s => if str_truthy s then s else job_id
  | None => job_id
  end.

(** The target directory of a runner; [Path(output_dir).expanduser()] is
    outside every [try]. *)
Definition target_dir_of (E : pyenv) (X : runner_env) (output_dir : option string)
  : result ppath :=
  match output_dir with
  | Some dir =>
      if str_truthy dir then let? e := expanduser E dir in Ok (parse_path e)
      else Ok (DOWNLOAD_DIR X)
  | None => Ok (DOWNLOAD_DIR X)
  end.

(** [str(target_dir / f"{safe_name}.%(ext)s")] *)
Definition outtmpl_of (target_dir : ppath) (safe_name : string) : string :=
  path_str (path_join target_dir (safe_name +:+ ".%(ext)s")).

(** The [try] block around [extract_info] and what follows it, as the list
    of [update_job] calls.  [age_gate] tells whether the age-restriction
    message is rewritten (it is in [run_download_job] only). *)
Definition download_and_finish (age_gate : bool) (run : download_run)
    (fmt : string) (target_dir : ppath) (safe_name : string)
  : list (gmap string jvalue) :=
  let '(us, raised) := run_hooks (events run) in
  let ending :=
    match raised with
    | Some e => Failed e
    | None => ending run
    end in
  let final :=
    match ending with
    | Finished None _ =>
        kw_error "'NoneType' object has no attribute 'get'"
    | Finished (Some info) fs =>
        match locate_output fs info fmt target_dir safe_name with
        | Ok final_path => kw_completed final_path
        | Raise e => kw_error (exn_str e)
        end
    | Failed (DownloadError msg) =>
        if age_gate && contains "Sign in to confirm your age" msg
        then kw_error "This video is age-restricted and cannot be downloaded without authentication."
        else kw_error msg
    | Failed e => kw_error (exn_str e)
    end in
  us ++ [final].

(** [run_download_job]: the keyword arguments of its [update_job(job_id, ...)]
    calls, in order.  An exception that no handler catches ends the thread
    without a further call. *)
Definition run_download_job (E : pyenv) (X : runner_env)
    (job_id url fmt quality : string) (sound_on : bool)
    (output_dir output_name : option string) : list (gmap string jvalue) :=
  match get_format_selector fmt quality sound_on with
  | Raise (ValueError msg) => [kw_error msg]
  | Raise _ => []
  | Ok format_selector =>
      match target_dir_of E X output_dir with
      | Raise _ => []
      | Ok target_dir =>
          match mkdir X target_dir with
          | Some exc => [kw_error ("Cannot create download folder: " +:+ exc)]
          | None =>
              let safe_name := safe_name_of output_name job_id in
              match detect_ffmpeg_bin_dir X with
              | Raise _ => []
              | Ok ffmpeg_bin_dir =>
                  let ydl_opts :=
                    {| opt_format := format_selector;
                       opt_outtmpl := outtmpl_of target_dir safe_name;
                       opt_ffmpeg_location := or_else ffmpeg_bin_dir None;
                       opt_extract_audio_mp3 := String.eqb fmt "mp3";
                       opt_merge_output_format :=
                         if negb (String.eqb fmt "mp3") && String.eqb fmt "mp4"
                            && sound_on
                         then Some "mp4" else None |} in
                  download_and_finish true (extract_info X ydl_opts url)
                    fmt target_dir safe_name
              end
          end
      end
  end.

Definition run_social_download_job (E : pyenv) (X : runner_env)
    (job_id url : string) (output_dir output_name : option string)
  : list (gmap string jvalue) :=
  match target_dir_of E X output_dir with
  | Raise _ => []
  | Ok target_dir =>
      match mkdir X target_dir with
      | Some exc => [kw_error ("Cannot create download folder: " +:+ exc)]
      | None =>
          let safe_name := safe_name_of output_name job_id in
          match detect_ffmpeg_bin_dir X with
          | Raise _ => []
          | Ok ffmpeg_bin_dir =>
              let ydl_opts :=
                {| opt_format :=
                     "bestvideo[ext=mp4]+bestaudio[ext=m4a]/best[ext=mp4]/best";
                   opt_outtmpl := outtmpl_of target_dir safe_name;
                   opt_ffmpeg_location := or_else ffmpeg_bin_dir None;
                   opt_extract_audio_mp3 := false;
                   opt_merge_output_format := Some "mp4" |} in
              download_and_finish false (extract_info X ydl_opts url)
                "mp4" target_dir safe_name
          end
      end
  end.

(** The successive states of the store under the calls of a runner. *)
Fixpoint apply_updates (job_id : string) (us : list (gmap string jvalue))
    (w : world) : list world :=
  match us with
  | [] => []
  | kw :: rest =>
      let w' := update_job job_id kw w in
      w' :: apply_updates job_id rest w'
  end.

(* ===================================================================== *)
(** * HTTP handlers                                                       *)
(* ===================================================================== *)

(** [(jsonify(body), status_code)].  A handler that raises makes Flask
    answer 500; this is the [Raise] case of a handler's result. *)
Record response : Type := {
  status_code : Z;
  body : list (string * jvalue)
}.

Definition error_response (code : Z) (msg : string) : response :=
  {| status_code := code; body := [("error", JStr msg)] |}.

(** [request.get_json(silent=True) or {}]; [None] is a body that is not
    JSON. *)
Definition request_data (json : option jvalue) : jvalue :=
  match json with
  | Some v => if truthy v then v else JObject []
  | None => JObject []
  end.

(** [data.get(k)] *)
Definition data_get (data : jvalue) (k : string) : result jvalue :=
  match data with
  | JObject fields => Ok (dict_get k fields)
  | _ => Raise (AttributeError "object has no attribute 'get'")
  end.

(** [(data.get(k) or default).strip()] *)
Definition get_stripped (data : jvalue) (k default : string) : result string :=
  let? v := data_get data k in
  match (if truthy v then v else JStr default) with
  | JStr s => Ok (py_strip s)
  | _ => Raise (AttributeError "object has no attribute 'strip'")
  end.

(** [bool(data.get(k, True))] *)
Definition get_flag (data : jvalue) (k : string) : result bool :=
  match data with
  | JObject fields =>
      match items_get k fields with
      | Some v => Ok (truthy v)
      | None => Ok true
      end
  | _ => Raise (AttributeError "object has no attribute 'get'")
  end.

(** The output folder and file name of a request: either the response of
    an early [return], or the two settings. *)
Definition output_settings (E : pyenv) (output_dir_raw output_name_raw : string)
  : string + (option string * option string) :=
  let dir :=
    if str_truthy output_dir_raw then
      match expanduser E output_dir_raw with
      | Ok d => inr (Some d)
      | Raise _ => inl "Invalid output folder path."
      end
    else inr None in
  match dir with
  | inl err => inl err
  | inr output_dir =>
      if str_truthy output_name_raw then
        match sanitize_file_basename (Some output_name_raw) with
        | Some n => if str_truthy n then inr (output_dir, Some n)
                    else inl "Invalid output file name."
        | None => inl "Invalid output file name."
        end
      else inr (output_dir, None)
  end.

(** [parse_output_settings]: (output_dir, output_name, error). *)
Definition parse_output_settings (E : pyenv) (data : jvalue)
  : result (option string * option string * option string) :=
  let? output_dir_raw := get_stripped data "output_dir" "" in
  let? output_name_raw := get_stripped data "output_name" "" in
  match output_settings E output_dir_raw output_name_raw with
  | inl err => Ok (None, None, Some err)
  | inr (d, n) => Ok (d, n, None)
  end.

(** The arguments of [run_download_job] after [job_id]. *)
Definition thread_args : Type :=
  (string * string * string * bool * option string * option string)%type.

(** [start_download] up to line 586: the response of an early [return], or
    the arguments for the worker thread. *)
Definition start_download_checks (E : pyenv) (json : option jvalue)
  : result (response + thread_args) :=
  let data := request_data json in
  let? url := get_stripped data "url" "" in
  let? fmt := get_stripped data "format" "mp4" in
  let fmt := py_lower fmt in
  let? quality := get_stripped data "quality" "1080p60" in
  let? sound_on := get_flag data "sound_on" in
  let? output_dir_raw := get_stripped data "output_dir" "" in
  let? output_name_raw := get_stripped data "output_name" "" in
  let? valid := is_valid_youtube_url E url in
  if negb valid then Ok (inl (error_response 400 "Invalid YouTube URL."))
  else if negb (str_in fmt ["mp4"; "mp3"])
  then Ok (inl (error_response 400 "Format must be mp4 or mp3."))
  else if negb (str_in quality ["360p"; "720p"; "1080p60"])
  then Ok (inl (error_response 400 "Quality must be 360p, 720p, or 1080p60."))
  else if String.eqb fmt "mp3" && negb sound_on
  then Ok (inl (error_response 400 "Sound Off is not valid for MP3 downloads."))
  else
    match output_settings E output_dir_raw output_name_raw with
    | inl err => Ok (inl (error_response 400 err))
    | inr (output_dir, output_name) =>
        Ok (inr (url, fmt, quality, sound_on, output_dir, output_name))
    end.

(** [start_download], given the request body, the fresh
    [uuid.uuid4().hex] and [time.time()]. *)
Definition start_download (E : pyenv) (json : option jvalue)
    (job_id : string) (now : float) (w : world) : result response * world :=
  match start_download_checks E json with
  | Raise e => (Raise e, w)
  | Ok (inl resp) => (Ok resp, w)
  | Ok (inr (url, fmt, quality, sound_on, output_dir, output_name)) =>
      let w := bind_job job_id (new_job_record now) w in
      let w := start_thread
                 (run_download_job_thread job_id url fmt quality sound_on
                    output_dir output_name) w in
      (Ok {| status_code := 200; body := [("job_id", JStr job_id)] |}, w)
  end.

(** [download_tiktok] and [download_instagram] differ in the validator and
    its message only. *)
Definition social_download (E : pyenv) (validator : pyenv -> string -> result bool)
    (invalid_msg : string) (json : option jvalue) (job_id : string) (now : float)
    (w : world) : result response * world :=
  let data := request_data json in
  let checks :=
    let? url := get_stripped data "url" "" in
    let? valid := validator E url in
    if negb valid then Ok (inl (error_response 400 invalid_msg))
    else
      let? (output_dir, output_name, error) := parse_output_settings E data in
      match error with
      | Some err =>
          if str_truthy err then Ok (inl (error_response 400 err))
          else Ok (inr (url, output_dir, output_name))
      | None => Ok (inr (url, output_dir, output_name))
      end in
  match checks with
  | Raise e => (Raise e, w)
  | Ok (inl resp) => (Ok resp, w)
  | Ok (inr (url, output_dir, output_name)) =>
      let w := create_job job_id now w in
      let w := start_thread
                 (run_social_download_job_thread job_id url output_dir output_name) w in
      (Ok {| status_code := 200; body := [("job_id", JStr job_id)] |}, w)
  end.

Definition download_tiktok (E : pyenv) :=
  social_download E is_valid_tiktok_url "Invalid TikTok URL.".

Definition download_instagram (E : pyenv) :=
  social_download E is_valid_instagram_url "Invalid Instagram URL.".

(** ** [get_progress], one shared-memory access at a time

    The handler fetches the record under the lock and reads its fields
    after the lock is released.  Other threads run between any two of
    these accesses, so the handler is a machine that makes one access per
    step. *)
Inductive gp_state : Type :=
  | GpStart
      (** before [job = jobs.get(job_id)] *)
  | GpGot (job : option nat)
      (** before [if not job] *)
  | GpPayload (job : nat) (payload : list (string * jvalue))
      (** building the payload: [status], [progress], [error] *)
  | GpTested (job : nat) (payload : list (string * jvalue))
      (** [job["status"] == "completed"] held: adding the file fields *)
  | GpDone (r : result response).

(** [job[k]] *)
Definition getitem (d : gmap string jvalue) (k : string) : result jvalue :=
  match d !! k with
  | Some v => Ok v
  | None => Raise (KeyError k)
  end.

Definition jstr_eqb (v : jvalue) (s : string) : bool :=
  match v with JStr t => String.eqb t s | _ => false end.

Definition gp_step (job_id : string) (w : world) (st : gp_state) : gp_state :=
  match st with
  | GpStart => GpGot (jobs w !! job_id)
  | GpGot None => GpDone (Ok (error_response 404 "Job not found."))
  | GpGot (Some l) =>
      if decide (deref w l = ∅)
      then GpDone (Ok (error_response 404 "Job not found."))
      else GpPayload l []
  | GpPayload l payload =>
      let read key name :=
        match getitem (deref w l) key with
        | Ok v => GpPayload l (payload ++ [(name, v)])
        | Raise e => GpDone (Raise e)
        end in
      match length payload with
      | 0%nat => read "status" "status"
      | 1%nat => read "progress" "progress"
      | 2%nat => read "error" "error"
      | _ =>
          match getitem (deref w l) "status" with
          | Ok v =>
              if jstr_eqb v "completed"
              then GpTested l (payload ++ [("download_url", JStr ("/file/" +:+ job_id))])
              else GpDone (Ok {| status_code := 200; body := payload |})
          | Raise e => GpDone (Raise e)
          end
      end
  | GpTested l payload =>
      let read key name (last : bool) :=
        match getitem (deref w l) key with
        | Ok v =>
            if last
            then GpDone (Ok {| status_code := 200; body := payload ++ [(name, v)] |})
            else GpTested l (payload ++ [(name, v)])
        | Raise e => GpDone (Raise e)
        end in
      match length payload with
      | 4%nat => read "file_name" "file_name" false
      | 5%nat => read "file_path" "saved_path" false
      | _ => read "saved_dir" "saved_dir" true
      end
  | GpDone r => GpDone r
  end.

(** What can happen between two accesses of the handler: another thread
    updates a job or creates one. *)
Inductive action : Type :=
  | Handler
  | Update (job_id : string) (kwargs : gmap string jvalue)
  | Create (job_id : string) (now : float).

Definition act (job_id : string) (a : action) (c : gp_state * world)
  : gp_state * world :=
  match a with
  | Handler => (gp_step job_id (snd c) (fst c), snd c)
  | Update j kwargs => (fst c, update_job j kwargs (snd c))
  | Create j now => (fst c, create_job j now (snd c))
  end.

(** A run of the handler for [job_id] under a schedule. *)
Definition run_schedule (job_id : string) (sched : list action)
    (c : gp_state * world) : gp_state * world :=
  fold_left (fun c a => act job_id a c) sched c.

(** The handler run without interruption. *)
Definition get_progress (job_id : string) (w : world) : gp_state :=
  fst (run_schedule job_id (repeat Handler 9) (GpStart, w)).

(** The store operations of a schedule, without the handler's steps. *)
Definition others (sched : list action) : list action :=
  List.filter (fun a => match a with Handler => false | _ => true end) sched.

(* ===================================================================== *)
(** * Concrete surroundings for the examples                              *)
(* ===================================================================== *)

(** An interpreter in which [float] accepts no text, every bracketed host
    passes, no network location is refused, integer string conversion has
    the default limit, [jsonify] succeeds, and a path expands to itself. *)
Definition E0 : pyenv :=
  {| float_of_str := fun _ => None;
     str_of_container := fun _ => Ok "[]";
     bracketed_netloc_check := fun _ => None;
     nfkc_unsafe := fun _ => false;
     int_max_str_digits := 4300;
     jsonify_error := fun _ => None;
     expanduser := fun s => Ok s |}.

Definition downloads : ppath := parse_path "/srv/downloads".

Definition bytes_event (status : string) (downloaded total : Z) : hook_event :=
  {| ev_status := Some status;
     total_bytes := Some (PInt total);
     total_bytes_estimate := None;
     downloaded_bytes := Some (PInt downloaded) |}.

(** A download that reports the last byte, then the end of the transfer,
    and leaves the file it names. *)
Definition plain_run (file : string) : download_run :=
  {| events := [bytes_event "downloading" 100 100; bytes_event "finished" 100 100];
     ending :=
       Finished (Some {| requested_downloads := [Some file]; title := None |})
         [(parse_path file, 1)] |}.

Definition X0 : runner_env :=
  {| DOWNLOAD_DIR := downloads;
     mkdir := fun _ => None;
     detect_ffmpeg_bin_dir := Ok None;
     extract_info := fun _ _ => plain_run "/srv/downloads/j1.mp4" |}.

Definition zero : float := S754_zero false.

(** The store right after job [j1] was created. *)
Definition w_j1 : world := create_job "j1" zero empty_world.

(** A download folder with two files of the same base name. *)
Definition two_clips : filesystem :=
  [(path_join downloads "clip.mp4", 1); (path_join downloads "clip.webm", 5)].

Definition no_report : info_dict :=
  {| requested_downloads := []; title := None |}.

(* ===================================================================== *)
(** * Vocabulary of the statements                                        *)
(* ===================================================================== *)

(** The first character of a string is not in [p]. *)
Definition head_ok (p : ascii -> bool) (s : string) : bool :=
  match s with
  | EmptyString => true
  | String c _ => negb (p c)
  end.

(** The last character of a string is not in [p]. *)
Fixpoint last_ok (p : ascii -> bool) (s : string) : bool :=
  match s with
  | EmptyString => true
  | String c EmptyString => negb (p c)
  | String _ s' => last_ok p s'
  end.

(** No character of [s] is [c]. *)
Definition no_char (c : ascii) (s : string) : bool :=
  all_chars (fun d => negb (Ascii.eqb d c)) s.

Definition dot_or_space (c : ascii) : bool := char_in c " .".

(** A sanitized name: safe characters only, and neither a space nor a dot
    at either end. *)
Definition sanitized (y : string) : Prop :=
  all_chars safe_char y = true /\
  head_ok dot_or_space y = true /\ last_ok dot_or_space y = true /\
  is_empty y = false.

(* ===================================================================== *)
(** * Vocabulary of the statements about the job store                    *)
(* ===================================================================== *)

(** The keys of a job record. *)
Definition job_fields : list string :=
  ["status"; "progress"; "error"; "file_path"; "file_name"; "saved_dir";
   "created_at"].

Definition has_fields (d : gmap string jvalue) : Prop :=
  forall k, In k job_fields -> is_Some (d !! k).

(** The stores the program can reach: jobs are created by the three
    endpoints (or by [create_job]) and changed by [update_job] only. *)
Inductive reachable (E : pyenv) : world -> Prop :=
  | reach_empty : reachable E empty_world
  | reach_create_job w job_id now :
      reachable E w -> reachable E (create_job job_id now w)
  | reach_start_download w json job_id now :
      reachable E w -> reachable E (snd (start_download E json job_id now w))
  | reach_download_tiktok w json job_id now :
      reachable E w -> reachable E (snd (download_tiktok E json job_id now w))
  | reach_download_instagram w json job_id now :
      reachable E w -> reachable E (snd (download_instagram E json job_id now w))
  | reach_update_job w job_id kwargs :
      reachable E w -> reachable E (update_job job_id kwargs w).

(** Every bound job id leads to a record with all the fields. *)
Definition store_ok (w : world) : Prop :=
  forall job_id l, jobs w !! job_id = Some l ->
    exists d, heap w !! l = Some d /\ has_fields d.

Definition progress_of (d : gmap string jvalue) : option Z :=
  match d !! "progress" with
  | Some (JInt p) => Some p
  | _ => None
  end.

Definition status_of (d : gmap string jvalue) : option string :=
  match d !! "status" with
  | Some (JStr s) => Some s
  | _ => None
  end.

(** The record of a job right after its creation and after each
    [update_job] call of its runner. *)
Definition job_history (job_id : string) (us : list (gmap string jvalue))
    (w : world) : list (option (gmap string jvalue)) :=
  map (fun w' => job_record w' job_id) (w :: apply_updates job_id us w).

Definition progress_history (job_id : string) (us : list (gmap string jvalue))
    (w : world) : list (option Z) :=
  map (fun r => match r with Some d => progress_of d | None => None end)
    (job_history job_id us w).

(** A call made by the progress hook. *)
Definition progress_update (kw : gmap string jvalue) : Prop :=
  exists q, kw = kw_progress q /\ 1 <= q <= 99.

(** The last call of a runner. *)
Definition final_update (kw : gmap string jvalue) : Prop :=
  (exists msg, kw = kw_error msg) \/ (exists p, kw = kw_completed p).

(** A record between creation and the last call. *)
Definition active (d : gmap string jvalue) : Prop :=
  status_of d = Some "queued" /\
  exists p, progress_of d = Some p /\ 0 <= p <= 99.

(** What C1 keeps of a record: the progress is an integer from 0 to 100,
    it is 100 for a completed job only, and an errored job has 0. *)
Definition progress_ok (d : gmap string jvalue) : Prop :=
  exists p, progress_of d = Some p /\ 0 <= p <= 100 /\
    (p = 100 -> status_of d = Some "completed") /\
    (status_of d = Some "error" -> p = 0).

(** The calls of a runner: those of the hook, then at most one last call. *)
Definition runner_calls (us : list (gmap string jvalue)) : Prop :=
  exists hooks final,
    us = hooks ++ final /\ Forall progress_update hooks /\
    (final = [] \/ exists kw, final = [kw] /\ final_update kw).

(** The job's record is at [l] in the store and is [d]. *)
Definition holds (w : world) (job_id : string) (l : nat) (d : gmap string jvalue) : Prop :=
  jobs w !! job_id = Some l /\ heap w !! l = Some d.

(** Successive progress values never go down. *)
Fixpoint nondecreasing (l : list (option Z)) : Prop :=
  match l with
  | a :: (b :: _) as rest =>
      match a, b with
      | Some x, Some y => x <= y
      | _, _ => False
      end /\ nondecreasing rest
  | _ => True
  end.

(** The file that the download of job [j1] leaves. *)
Definition j1_file : ppath := parse_path "/srv/downloads/j1.mp4".

(** The schedule of the torn read: the runner's last call lands after the
    handler has read [status] and before it reads [progress]. *)
Definition torn_schedule : list action :=
  [Handler; Handler; Handler; Update "j1" (kw_completed j1_file)]
  ++ repeat Handler 7.

(** The response body for a record whose status is not [completed]. *)
Definition short_payload (s p e : jvalue) : list (string * jvalue) :=
  [("status", s); ("progress", p); ("error", e)].

(** The response body for a completed job. *)
Definition full_payload (job_id : string) (s p e name path dir : jvalue)
  : list (string * jvalue) :=
  [("status", s); ("progress", p); ("error", e);
   ("download_url", JStr ("/file/" +:+ job_id));
   ("file_name", name); ("saved_path", path); ("saved_dir", dir)].

(* ===================================================================== *)
(** * The resolution order as the specification words it                  *)
(* ===================================================================== *)


(** The file path the result metadata reports, if it reports one. *)
Definition reported_filepath (info : info_dict) : option string :=
  match requested_downloads info with
  | first :: _ => or_else first None
  | [] => None
  end.



(** The default path the code builds when no path is reported. *)
Definition default_output_path (info : info_dict) (fmt : string)
    (target_dir : ppath) (safe_name : string) : ppath :=
  let base := or_else (or_else (Some safe_name) (title info)) (Some "download") in
  let safe := match sanitize_file_basename base with
              | Some s => s
              | None => "download"
              end in
  path_join target_dir (safe +:+ "." +:+ (if String.eqb fmt "mp3" then "mp3" else "mp4")).

(* ===================================================================== *)
(** * The YouTube rule as the specification words it                      *)
(* ===================================================================== *)

(** The host without a leading [www.]. *)
Definition strip_www_prefix (h : string) : string :=
  if startswith h "www." then drop_str 4 h else h.

(** A query field [name=value] with a non-blank value whose decoded name
    is [k]. *)
Definition field_names (k field : string) : bool :=
  match split_once "=" field with
  | Some (n, v) =>
      negb (is_empty v)
      && match unquote (py_replace "+" " " n) with
         | Some n' => String.eqb n' k
         | None => false
         end
  | None => false
  end.

Definition has_param (k qs : string) : bool :=
  existsb (field_names k) (split_all "&" qs).

(** The path has a character other than a slash. *)
Definition has_non_slash (path : string) : bool :=
  negb (all_chars (fun c => Ascii.eqb c "/") path).

(** The rule, for a given list of long-form hosts: the short-link host
    with a path, or a long-form host with [/watch] and a [v] parameter, or
    with [/shorts/<id>]. *)
Definition accepts_on (long_hosts : list string) (host path qs : string) : bool :=
  (String.eqb host "youtu.be" && has_non_slash path)
  || (str_in host long_hosts
      && ((String.eqb path "/watch" && has_param "v" qs)
          || (startswith path "/shorts/" && negb (is_empty (drop_str 8 path))))).

(** The claim names the canonical host only; the code also takes the
    mobile one. *)
Definition claimed_youtube_accepts : string -> string -> string -> bool :=
  accepts_on ["youtube.com"].

Definition youtube_accepts : string -> string -> string -> bool :=
  accepts_on ["youtube.com"; "m.youtube.com"].

(** A request whose URL opens a bracket that it never closes. *)
Definition unbalanced_bracket_request : option jvalue :=
  Some (JObject [("url", JStr "https://[youtu.be/x")]).

(** A valid request for mp3 with the sound switched off. *)
Definition mp3_sound_off_request : option jvalue :=
  Some (JObject [("url", JStr "https://youtu.be/abc123"); ("format", JStr "mp3");
                 ("quality", JStr "720p"); ("sound_on", JBool false)]).

(* ===================================================================== *)
(** * Vocabulary of the statements about the metrics                      *)
(* ===================================================================== *)

(** A metrics object whose click-through rate is an integer beyond the
    range of a float. *)
Definition huge_ctr_metrics : list (string * jvalue) :=
  [("ctr", JInt (10 ^ 400))].

(** A score is absent or one of 45, 75, 95. *)
Definition score_value (s : option Z) : Prop :=
  s = None \/ s = Some 45 \/ s = Some 75 \/ s = Some 95.

(** An entry of the result: without a score it is rated "No data". *)
Definition entry_ok (r : metric_result) : Prop :=
  score_value (m_score r) /\ (m_score r = None -> m_rating r = "No data").

(** Every integer of the object can be converted to a float. *)
Definition ints_convertible (m : list (string * jvalue)) : Prop :=
  forall k z, dict_get k m = JInt z -> returns (float_of_int z) = true.

(** [int(s / n)] *)
Definition int_mean (s n : Z) : result Z :=
  let? q := int_truediv s n in int_of_float q.

(** The table behind [int_mean_exact]: for up to [n] scores of each
    value, [int(s / n)] is the integer quotient. *)
Definition mean_row (a b c : nat) : bool :=
  let s := 45 * Z.of_nat a + 75 * Z.of_nat b + 95 * Z.of_nat c in
  let n := Z.of_nat (a + b + c) in
  (n =? 0)
  || match int_mean s n with
     | Ok q => q =? s / n
     | Raise _ => false
     end.

Definition mean_table (n : nat) : bool :=
  forallb
    (fun a => forallb
                (fun b => forallb (mean_row a b) (seq 0 (n - a - b)))
                (seq 0 (n - a)))
    (seq 0 n).

Definition is_score (s : Z) : Prop := s = 45 \/ s = 75 \/ s = 95.

(** A list or a dict *)
Definition is_container (v : jvalue) : bool :=
  match v with
  | JArray _ | JObject _ => true
  | _ => false
  end.

(** The only ways the analysis raises: [float(value)] on an integer of the
    object beyond the float range, or [str(value)] on a list or a dict of
    the object. *)
Definition overflow_cause (E : pyenv) (m : list (string * jvalue)) (e : exn)
  : Prop :=
  (exists k z, dict_get k m = JInt z /\ float_of_int z = Raise e) \/
  (exists k, is_container (dict_get k m) = true /\
             str_of_container E (dict_get k m) = Raise e).

(** [str(value)] returns for every list and dict of the object. *)
Definition containers_printable (E : pyenv) (m : list (string * jvalue)) : Prop :=
  forall k, is_container (dict_get k m) = true ->
            returns (str_of_container E (dict_get k m)) = true.

(** What holds of a returned analysis. *)
Definition analysis_good (r : analysis) : Prop :=
  Forall entry_ok (metrics r) /\
  (length (metrics r) <= 21)%nat /\
  overall_of (numeric_scores (metrics r)) = Ok (overall_score r).

Definition analysis_outcome (E : pyenv) (m : list (string * jvalue))
    (res : result analysis) : Prop :=
  match res with
  | Ok r => analysis_good r
  | Raise e => overflow_cause E m e
  end.

(** The accumulator holds at most [n] entries, all well-formed. *)
Definition acc_ok (n : nat) (acc : metric_acc) : Prop :=
  Forall entry_ok (results acc) /\ (length (results acc) <= n)%nat.

(** A sum of [x or 0] terms: the int 0 or a float. *)
Definition small_num (n : pynum) : Prop := n = PInt 0 \/ exists f, n = PFloat f.

(* ===================================================================== *)
(** * Vocabulary of the further statements about the job store            *)
(* ===================================================================== *)

(** Every record in memory has all the fields, every bound job id leads
    to a record, and no two job ids share one. *)
Definition store_inv (w : world) : Prop :=
  (forall l d, heap w !! l = Some d -> has_fields d) /\
  (forall j l, jobs w !! j = Some l -> is_Some (heap w !! l)) /\
  (forall j j' l, jobs w !! j = Some l -> jobs w !! j' = Some l -> j = j').

(** The number of accesses the handler still has to make, at most. *)
Definition gp_remaining (st : gp_state) : nat :=
  match st with
  | GpStart => 9
  | GpGot _ => 8
  | GpPayload _ payload => 7 - length payload
  | GpTested _ payload => 7 - length payload
  | GpDone _ => 0
  end.

(** The handler's state fits the store: the record it holds is in memory,
    and it has not raised. *)
Definition gp_ok (w : world) (st : gp_state) : Prop :=
  match st with
  | GpStart => True
  | GpGot job => forall l, job = Some l -> is_Some (heap w !! l)
  | GpPayload l payload => is_Some (heap w !! l) /\ (length payload <= 3)%nat
  | GpTested l payload =>
      is_Some (heap w !! l) /\ (4 <= length payload <= 6)%nat
  | GpDone r => exists resp, r = Ok resp /\
                  (status_code resp = 200 \/
                   resp = error_response 404 "Job not found.")
  end.

(** The number of handler steps in a schedule. *)
Definition handler_steps (sched : list action) : nat :=
  length (List.filter (fun a => match a with Handler => true | _ => false end) sched).

(* ===================================================================== *)
(** * Vocabulary of the further statements about policy and runners       *)
(* ===================================================================== *)

Definition supported_quality (quality : string) : Prop :=
  quality = "360p" \/ quality = "720p" \/ quality = "1080p60".

Definition supported_format (fmt : string) : Prop :=
  fmt = "mp3" \/ fmt = "mp4".



(* ===================================================================== *)
(** * Vocabulary of the further statements about the metrics              *)
(* ===================================================================== *)

(** The names of the entries that every analysis has, in order. *)
Definition base_metric_names : list string :=
  ["CTR"; "AVD (sec)"; "APV (%)"; "Engagement Rate (%)";
   "Audience Retention (%)"; "Relative Retention (%)";
   "Sub-to-View Ratio (%)"; "End Screen CTR (%)"; "Shares"; "Comments";
   "Subscribers Gained"; "Subscribers Lost"; "Returning Viewers";
   "New Viewers"; "Card Teaser Clicks"; "RPM"; "CPM"; "Playback-based CPM";
   "Estimated Revenue"].

(** The tip of an analysis without a low score. *)
Definition healthy_tip : string :=
  "Metrics look healthy. Keep testing titles, thumbnails, and first-30-second hooks.".

(** An entry whose score brings a tip: [score < 70]. *)
Definition low_score (r : metric_result) : bool :=
  match m_score r with
  | Some sc => sc <? 70
  | None => false
  end.

(** One tip for each entry with a low score. *)
Definition tips_counted (acc : metric_acc) : Prop :=
  length (tips acc) = length (List.filter low_score (results acc)).

(** The names of the entries that follow the base entries. *)
Definition ratio_names (extra : list string) : Prop :=
  extra = [] \/ extra = ["View/Impression Ratio (%)"]
  \/ extra = ["Like Ratio (%)"]
  \/ extra = ["View/Impression Ratio (%)"; "Like Ratio (%)"].

(** The names of the entries of an accumulator: the base names, then
    [extra]. *)
Definition names_from_base (extra : list string) (acc : metric_acc) : Prop :=
  map m_name (results acc) = base_metric_names ++ extra.

Definition verdict_of (overall : Z) : string :=
  if 85 <=? overall then "Strong performance"
  else if 70 <=? overall then "Healthy, but with optimization room"
  else "Underperforming".

(* ===================================================================== *)
(** * [get_file], one shared-memory access at a time                      *)
(* ===================================================================== *)

(** What [get_file] answers: a JSON body with a status code, or the file
    response that [send_file] built for the file it opened. *)
Inductive file_response : Type :=
  | FileJson (r : response)
  | FileSent (path : ppath) (download_name : jvalue).

(** What [send_file] depends on besides the file system. *)
Record send_env : Type := {
  (** [app.root_path], the folder of the application: a relative path is
      resolved against it, not against the working directory. *)
  root_path : ppath;
  (** The [OSError] that [path.exists()] lets through, if any: it answers
      [False] for a missing path and raises for one it may not examine
      ([PermissionError]). *)
  exists_error : ppath -> option exn;
  (** The [OSError] of [path.stat()] on a path that does not exist
      ([FileNotFoundError], or [NotADirectoryError]). *)
  stat_error : ppath -> exn;
  (** What [send_file] raises, if anything, for a path that exists, with
      the download name: in [stat()], in building the headers or in
      [open(path, "rb")] ([IsADirectoryError] for a folder,
      [PermissionError], [FileNotFoundError] for a file removed
      meanwhile, [TypeError] for a name that is no [str]). *)
  respond_error : ppath -> jvalue -> option exn
}.

(** [Path(root, p)]: [p] when it has a root, otherwise its components
    after those of [root]. *)
Definition path_under (root p : ppath) : ppath :=
  if str_truthy (p_root p) then p
  else {| p_root := p_root root; p_parts := p_parts root ++ p_parts p |}.

(** [send_file(path, as_attachment=True, download_name=name)]: the path is
    taken under [app.root_path] and examined with [stat()], then the
    response is built and the file opened.  Nothing here is inside a
    [try]. *)
Definition send_file (SE : send_env) (fs : filesystem) (path : ppath)
    (download_name : jvalue) : result file_response :=
  let target := path_under (root_path SE) path in
  if negb (path_exists fs target) then Raise (stat_error SE target)
  else match respond_error SE target download_name with
       | Some e => Raise e
       | None => Ok (FileSent target download_name)
       end.

(** The handler fetches the record under the lock and reads its fields
    after the lock is released, as [get_progress] does.  The file system
    is the same during one run of the handler. *)
Inductive gf_state : Type :=
  | GfStart
      (** before [job = jobs.get(job_id)] *)
  | GfGot (job : option nat)
      (** before [if not job] *)
  | GfStatus (job : nat)
      (** before [job.get("status") != "completed"] *)
  | GfPath (job : nat)
      (** before [not job.get("file_path")] *)
  | GfOpen (job : nat)
      (** before [Path(job["file_path"])] and [path.exists()] *)
  | GfName (job : nat) (path : ppath)
      (** before [job.get("file_name") or path.name] and [send_file] *)
  | GfDone (r : result file_response).

(** [d.get(k)] on a job record. *)
Definition record_get (d : gmap string jvalue) (k : string) : jvalue :=
  default JNull (d !! k).

Definition not_ready : file_response :=
  FileJson (error_response 400 "File is not ready.").

Definition gf_step (SE : send_env) (fs : filesystem) (job_id : string) (w : world)
    (st : gf_state) : gf_state :=
  match st with
  | GfStart => GfGot (jobs w !! job_id)
  | GfGot None => GfDone (Ok (FileJson (error_response 404 "Job not found.")))
  | GfGot (Some l) =>
      if decide (deref w l = ∅)
      then GfDone (Ok (FileJson (error_response 404 "Job not found.")))
      else GfStatus l
  | GfStatus l =>
      if jstr_eqb (record_get (deref w l) "status") "completed"
      then GfPath l
      else GfDone (Ok not_ready)
  | GfPath l =>
      if truthy (record_get (deref w l) "file_path")
      then GfOpen l
      else GfDone (Ok not_ready)
  | GfOpen l =>
      match getitem (deref w l) "file_path" with
      | Ok (JStr s) =>
          let path := parse_path s in
          match exists_error SE path with
          | Some e => GfDone (Raise e)
          | None =>
              if path_exists fs path then GfName l path
              else GfDone (Ok (FileJson
                                 (error_response 404 "File no longer exists.")))
          end
      | Ok _ =>
          GfDone (Raise (OtherException
                           "expected str, bytes or os.PathLike object"))
      | Raise e => GfDone (Raise e)
      end
  | GfName l path =>
      let name := record_get (deref w l) "file_name" in
      GfDone (send_file SE fs path (if truthy name then name else JStr (p_name path)))
  | GfDone r => GfDone r
  end.

Definition gf_act (SE : send_env) (fs : filesystem) (job_id : string) (a : action)
    (c : gf_state * world) : gf_state * world :=
  match a with
  | Handler => (gf_step SE fs job_id (snd c) (fst c), snd c)
  | Update j kwargs => (fst c, update_job j kwargs (snd c))
  | Create j now => (fst c, create_job j now (snd c))
  end.

(** A run of the handler for [job_id] under a schedule. *)
Definition run_file_schedule (SE : send_env) (fs : filesystem) (job_id : string)
    (sched : list action) (c : gf_state * world) : gf_state * world :=
  fold_left (fun c a => gf_act SE fs job_id a c) sched c.

(** The handler run without interruption. *)
Definition get_file (SE : send_env) (fs : filesystem) (job_id : string)
    (w : world) : gf_state :=
  fst (run_file_schedule SE fs job_id (repeat Handler 6) (GfStart, w)).

(** ** Vocabulary of the statements about [get_file] *)

(** A path in the form [Path] keeps: the root is empty, [/] or [//], and
    no component is empty, a single dot, or holds a slash. *)
Definition part_ok (x : string) : Prop :=
  no_char "/" x = true /\ is_empty x = false /\ x <> ".".

Definition wf_path (p : ppath) : Prop :=
  (p_root p = "" \/ p_root p = "/" \/ p_root p = "//") /\
  Forall part_ok (p_parts p).

(** The [update_job] calls of the runners: those of the hook and the last
    one. *)
Definition runner_update (kw : gmap string jvalue) : Prop :=
  progress_update kw \/ final_update kw.

(** A schedule in which the store is changed by runners and by the
    creation of jobs. *)
Definition runner_schedule (sched : list action) : Prop :=
  Forall (fun a => match a with
                   | Update _ kw => runner_update kw
                   | _ => True
                   end) sched.

(** The stores that the endpoints and the runners reach. *)
Inductive served (E : pyenv) : world -> Prop :=
  | served_empty : served E empty_world
  | served_start_download w json job_id now :
      served E w -> served E (snd (start_download E json job_id now w))
  | served_download_tiktok w json job_id now :
      served E w -> served E (snd (download_tiktok E json job_id now w))
  | served_download_instagram w json job_id now :
      served E w -> served E (snd (download_instagram E json job_id now w))
  | served_update_job w job_id kw :
      served E w -> runner_update kw -> served E (update_job job_id kw w).

(** The [file_path] of a record is [None] or a [str]. *)
Definition path_field_ok (d : gmap string jvalue) : Prop :=
  d !! "file_path" = Some JNull \/ exists s, d !! "file_path" = Some (JStr s).

Definition paths_typed (w : world) : Prop :=
  forall l d, heap w !! l = Some d -> path_field_ok d.

(** The three JSON errors of [get_file]. *)
Definition file_error (r : response) : Prop :=
  r = error_response 404 "Job not found." \/
  r = error_response 400 "File is not ready." \/
  r = error_response 404 "File no longer exists.".

(** How [get_file] ends: with one of its three JSON errors, with the
    exception of [path.exists()], or with what [send_file] does, response
    or exception, for a recorded path that [path.exists()] found. *)
Definition file_answer_ok (SE : send_env) (fs : filesystem)
    (r : result file_response) : Prop :=
  (exists j, r = Ok (FileJson j) /\ file_error j) \/
  (exists path e, exists_error SE path = Some e /\ r = Raise e) \/
  (exists path name,
      exists_error SE path = None /\ path_exists fs path = true /\
      r = send_file SE fs path name).

(** The handler's state fits the store. *)
Definition gf_ok (SE : send_env) (fs : filesystem) (w : world) (st : gf_state)
  : Prop :=
  match st with
  | GfStart => True
  | GfGot job => forall l, job = Some l -> is_Some (heap w !! l)
  | GfStatus l | GfPath l => is_Some (heap w !! l)
  | GfOpen l => exists d s, heap w !! l = Some d /\ d !! "file_path" = Some (JStr s)
  | GfName l path =>
      is_Some (heap w !! l) /\ exists_error SE path = None /\
      path_exists fs path = true
  | GfDone r => file_answer_ok SE fs r
  end.

(** What [get_file] answers for a job in the store [w], with the file
    system [fs]: "File is not ready." unless the job is completed, and then
    the exception of [path.exists()] if it raises, what [send_file] does
    for the recorded path and name if the path exists, "File no longer
    exists." if not. *)
Definition answers_by_status (SE : send_env) (fs : filesystem) (job_id : string)
    (w : world) : Prop :=
  exists d,
    job_record w job_id = Some d /\
    ((status_of d = Some "completed" /\
      exists p,
        d !! "file_path" = Some (JStr (path_str p)) /\
        get_file SE fs job_id w
        = GfDone (match exists_error SE p with
                  | Some e => Raise e
                  | None =>
                      if path_exists fs p
                      then send_file SE fs p (JStr (p_name p))
                      else Ok (FileJson
                                 (error_response 404 "File no longer exists."))
                  end))
     \/ (status_of d <> Some "completed" /\
         get_file SE fs job_id w = GfDone (Ok not_ready))).

(** The store after all the calls of a runner. *)
Definition after_runner (job_id : string) (us : list (gmap string jvalue))
    (w : world) : world :=
  List.last (apply_updates job_id us w) w.

(** The number of accesses the handler still has to make, at most. *)
Definition gf_remaining (st : gf_state) : nat :=
  match st with
  | GfStart => 6
  | GfGot _ => 5
  | GfStatus _ => 4
  | GfPath _ => 3
  | GfOpen _ => 2
  | GfName _ _ => 1
  | GfDone _ => 0
  end.

(** A response of [get_file]: one of its JSON errors, or a file that
    exists. *)
Definition file_response_ok (fs : filesystem) (resp : file_response) : Prop :=
  match resp with
  | FileJson j => file_error j
  | FileSent target _ => path_exists fs target = true
  end.

(** An application in [/srv/app] in which every path can be examined and
    every file that exists can be sent. *)
Definition SE0 : send_env :=
  {| root_path := parse_path "/srv/app";
     exists_error := fun _ => None;
     stat_error := fun p =>
       FileNotFoundError ("[Errno 2] No such file or directory: '"
                          +:+ path_str p +:+ "'");
     respond_error := fun _ _ => None |}.

(** A store in which job [j1] was completed with a relative path, as a
    runner records it for a relative [output_dir]. *)
Definition w_relative : world :=
  update_job "j1" (kw_completed (parse_path "out/j1.mp4"))
    (create_job "j1" zero empty_world).

(* ===================================================================== *)
(** * [analyze_video]                                                     *)
(* ===================================================================== *)

(** The handler of [/analyze_video]: the response of the early [return],
    or the analysis that [jsonify] serialises (status 200). *)
Definition analyze_video (E : pyenv) (json : option jvalue)
  : result (response + analysis) :=
  let data := request_data json in
  let? v := data_get data "metrics" in
  let metrics := if truthy v then v else JObject [] in
  match metrics with
  | JObject m => let? r := analyze_metrics E m in Ok (inr r)
  | _ => Ok (inl (error_response 400 "metrics must be an object."))
  end.

(* ===================================================================== *)
(** * [parse_duration] and [fetch_info]                                   *)
(* ===================================================================== *)

(** The decimal text of an [int]. *)
Definition int_text (n : Z) : string :=
  DecimalString.NilZero.string_of_int (Z.to_int n).

(** The number of decimal digits of an [int], without its sign. *)
Definition decimal_digits (n : Z) : nat := String.length (int_text (Z.abs n)).

(** Below this number of digits the interpreter does not look at the
    limit. *)
Definition str_digits_threshold : nat := 640.

(** Whether the decimal conversion of [n] is refused: there is a limit,
    and [n] has more digits than the threshold and than the limit. *)
Definition exceeds_str_digits (E : pyenv) (n : Z) : bool :=
  (str_digits_threshold <? decimal_digits n)%nat
  && (0 <? int_max_str_digits E)%nat
  && (int_max_str_digits E <? decimal_digits n)%nat.

Definition int_str_error (E : pyenv) : exn :=
  ValueError ("Exceeds the limit ("
              +:+ DecimalString.NilZero.string_of_uint
                    (Nat.to_uint (int_max_str_digits E))
              +:+ " digits) for integer string conversion; "
              +:+ "use sys.set_int_max_str_digits() to increase the limit").

(** [f"{n:d}"] for an [int]. *)
Definition format_d (E : pyenv) (n : Z) : result string :=
  if exceeds_str_digits E n then Raise (int_str_error E) else Ok (int_text n).

(** Zeros put before a text of less than two characters. *)
Definition pad2 (s : string) : string :=
  if (String.length s <? 2)%nat then "0" +:+ s else s.

(** [f"{n:02d}"] for an [int]. *)
Definition format_02d (E : pyenv) (n : Z) : result string :=
  let? s := format_d E n in Ok (pad2 s).

(** The three numbers [h], [m], [s] of [parse_duration]. *)
Definition duration_hours (seconds : Z) : Z := seconds / 3600.
Definition duration_minutes (seconds : Z) : Z := (seconds mod 3600) / 60.
Definition duration_seconds (seconds : Z) : Z := seconds mod 60.

(** The two f-strings of [parse_duration], for an [int]; the fields are
    formatted from left to right. *)
Definition format_duration (E : pyenv) (seconds : Z) : result string :=
  let h := duration_hours seconds in
  let m := duration_minutes seconds in
  let s := duration_seconds seconds in
  if negb (h =? 0) then
    let? th := format_d E h in
    let? tm := format_02d E m in
    let? ts := format_02d E s in
    Ok (th +:+ ":" +:+ tm +:+ ":" +:+ ts)
  else
    let? tm := format_d E m in
    let? ts := format_02d E s in
    Ok (tm +:+ ":" +:+ ts).

(** The [TypeError] of [seconds // 3600] for a value that is no number. *)
Definition floordiv_type_error (type_name : string) : exn :=
  OtherException ("unsupported operand type(s) for //: '" +:+ type_name
                  +:+ "' and 'int'").

(** [parse_duration(seconds)] for whatever the metadata holds under
    [duration].  A [bool] is an [int]; the floor division of a [float] is a
    [float], which the format code [d] refuses; a [str], a [list] or a
    [dict] has no floor division by an [int]. *)
Definition parse_duration (E : pyenv) (seconds : jvalue) : result string :=
  if negb (truthy seconds) then Ok "Unknown"
  else
    match seconds with
    | JInt z => format_duration E z
    | JBool b => format_duration E (if b then 1 else 0)
    | JFloat _ =>
        Raise (ValueError "Unknown format code 'd' for object of type 'float'")
    | JStr _ => Raise (floordiv_type_error "str")
    | JArray _ => Raise (floordiv_type_error "list")
    | JObject _ => Raise (floordiv_type_error "dict")
    | JNull => Raise (floordiv_type_error "NoneType")
    end.

(** [info.get(k, default)] *)
Definition info_get (info : list (string * jvalue)) (k : string) (default : jvalue)
  : jvalue :=
  match items_get k info with
  | Some v => v
  | None => default
  end.

Definition age_restricted_message : string :=
  "Age-restricted video detected. Sign-in/auth cookies are required.".

(** The dictionary that [fetch_info] answers with. *)
Definition info_body (info : list (string * jvalue)) (duration : string)
  : list (string * jvalue) :=
  [("title", info_get info "title" (JStr "Unknown title"));
   ("thumbnail", info_get info "thumbnail" (JStr ""));
   ("duration", JStr duration);
   ("duration_seconds", dict_get "duration" info);
   ("views", dict_get "view_count" info);
   ("likes", dict_get "like_count" info);
   ("dislikes", dict_get "dislike_count" info);
   ("comments", dict_get "comment_count" info);
   ("channel",
    if truthy (dict_get "channel" info)
    then dict_get "channel" info
    else dict_get "uploader" info);
   ("upload_date", dict_get "upload_date" info)].

(** The [try] block of [fetch_info].  [probe url] is
    [YoutubeDL(opts).extract_info(url, download=False)]: the metadata
    dictionary, [None], or an exception.  The dictionary is built, with
    the duration formatted, and then [jsonify] serialises it. *)
Definition fetch_attempt (E : pyenv)
    (probe : string -> result (option (list (string * jvalue))))
    (url : string) : result response :=
  let? info := probe url in
  match info with
  | None => Raise (AttributeError "'NoneType' object has no attribute 'get'")
  | Some info =>
      let? duration := parse_duration E (dict_get "duration" info) in
      match jsonify_error E (info_body info duration) with
      | Some e => Raise e
      | None => Ok {| status_code := 200; body := info_body info duration |}
      end
  end.

(** The handler of [/fetch_info]. *)
Definition fetch_info (E : pyenv)
    (probe : string -> result (option (list (string * jvalue))))
    (json : option jvalue) : result response :=
  let data := request_data json in
  let? url := get_stripped data "url" "" in
  let? valid := is_valid_youtube_url E url in
  if negb valid then Ok (error_response 400 "Invalid YouTube URL.")
  else
    match fetch_attempt E probe url with
    | Ok resp => Ok resp
    | Raise (DownloadError msg) =>
        Ok (error_response 400
              (if contains "Sign in to confirm your age" msg
               then age_restricted_message else msg))
    | Raise e => Ok (error_response 500 (exn_str e))
    end.

(** ** Vocabulary of the statements about durations *)

(** [f"{n:02d}"] where the conversion is not refused. *)
Definition text_02d (n : Z) : string := pad2 (int_text n).

(** The text of a duration where no conversion is refused. *)
Definition duration_text (seconds : Z) : string :=
  let h := duration_hours seconds in
  let m := duration_minutes seconds in
  let s := duration_seconds seconds in
  if negb (h =? 0)
  then int_text h +:+ ":" +:+ text_02d m +:+ ":" +:+ text_02d s
  else int_text m +:+ ":" +:+ text_02d s.

(** The fields of a formatted duration, between the colons. *)
Definition duration_fields (seconds : Z) : list string :=
  let h := duration_hours seconds in
  let m := duration_minutes seconds in
  let s := duration_seconds seconds in
  if negb (h =? 0) then [int_text h; text_02d m; text_02d s]
  else [int_text m; text_02d s].

(** The table behind [text_02d_injective]: on 0..59, two numbers with
    the same two-digit text are equal. *)
Definition pad_table : bool :=
  forallb
    (fun x => forallb
                (fun y => negb (String.eqb (text_02d (Z.of_nat x))
                                           (text_02d (Z.of_nat y)))
                          || (x =? y)%nat)
                (seq 0 60))
    (seq 0 60).

(** The table behind [format_d_small]: the numbers 0..59 have at most two
    digits. *)
Definition digits_table : bool :=
  forallb (fun x => (decimal_digits (Z.of_nat x) <=? 2)%nat) (seq 0 60).

(** The keys of the body of a successful [fetch_info]. *)
Definition info_keys : list string :=
  ["title"; "thumbnail"; "duration"; "duration_seconds"; "views"; "likes";
   "dislikes"; "comments"; "channel"; "upload_date"].

(* ===================================================================== *)
(* ===================================================================== *)
(** * Properties                                                          *)
(* ===================================================================== *)
(* ===================================================================== *)

(* ===================================================================== *)
(** * Facts about the string functions                                    *)
(* ===================================================================== *)

Lemma is_empty_true (s : string) : is_empty s = true -> s = EmptyString.
Proof. destruct s; [reflexivity | discriminate]. Qed.

Lemma all_chars_re_sub (keep : ascii -> bool) (repl : ascii) (s : string) :
  keep repl = true -> all_chars keep (re_sub_not keep repl s) = true.
Proof.
  intros Hr. induction s as [|c s IH]; simpl; [reflexivity|].
  rewrite IH, andb_true_r. destruct (keep c) eqn:Hc; assumption.
Qed.

Lemma re_sub_fixed (keep : ascii -> bool) (repl : ascii) (s : string) :
  all_chars keep s = true -> re_sub_not keep repl s = s.
Proof.
  induction s as [|c s IH]; simpl; [reflexivity|].
  intros [Hc Hs]%andb_true_iff. rewrite Hc, IH by assumption. reflexivity.
Qed.

Lemma all_chars_lstrip (q p : ascii -> bool) (s : string) :
  all_chars q s = true -> all_chars q (lstrip_by p s) = true.
Proof.
  induction s as [|c s IH]; simpl; [reflexivity|].
  intros H. destruct (p c).
  - apply IH. apply andb_true_iff in H. tauto.
  - exact H.
Qed.

Lemma all_chars_rstrip (q p : ascii -> bool) (s : string) :
  all_chars q s = true -> all_chars q (rstrip_by p s) = true.
Proof.
  induction s as [|c s IH]; simpl; [reflexivity|].
  intros [Hc Hs]%andb_true_iff.
  destruct (is_empty (rstrip_by p s) && p c); simpl; [reflexivity|].
  rewrite Hc. apply IH, Hs.
Qed.

Lemma all_chars_strip (q p : ascii -> bool) (s : string) :
  all_chars q s = true -> all_chars q (strip_by p s) = true.
Proof. intros H. apply all_chars_rstrip, all_chars_lstrip, H. Qed.

Lemma head_ok_lstrip (p : ascii -> bool) (s : string) :
  head_ok p (lstrip_by p s) = true.
Proof.
  induction s as [|c s IH]; simpl; [reflexivity|].
  destruct (p c) eqn:Hc; [exact IH | simpl; rewrite Hc; reflexivity].
Qed.

Lemma lstrip_fixed (p : ascii -> bool) (s : string) :
  head_ok p s = true -> lstrip_by p s = s.
Proof.
  destruct s as [|c s]; simpl; [reflexivity|].
  intros H. apply negb_true_iff in H. rewrite H. reflexivity.
Qed.

Lemma last_ok_rstrip (p : ascii -> bool) (s : string) :
  last_ok p (rstrip_by p s) = true.
Proof.
  induction s as [|c s IH]; simpl; [reflexivity|].
  destruct (rstrip_by p s) as [|d r] eqn:Hr; simpl.
  - destruct (p c) eqn:Hc; simpl; [reflexivity | rewrite Hc; reflexivity].
  - exact IH.
Qed.

Lemma rstrip_fixed (p : ascii -> bool) (s : string) :
  last_ok p s = true -> rstrip_by p s = s.
Proof.
  induction s as [|c s IH]; simpl; [reflexivity|].
  destruct s as [|d s'].
  - simpl. intros H. apply negb_true_iff in H. rewrite H. reflexivity.
  - intros H. rewrite (IH H). reflexivity.
Qed.

Lemma head_ok_rstrip (p : ascii -> bool) (s : string) :
  head_ok p s = true -> head_ok p (rstrip_by p s) = true.
Proof.
  destruct s as [|c s]; simpl; [reflexivity|].
  intros H. destruct (is_empty (rstrip_by p s) && p c); [reflexivity | exact H].
Qed.

Lemma strip_fixed (p : ascii -> bool) (s : string) :
  head_ok p s = true -> last_ok p s = true -> strip_by p s = s.
Proof.
  intros Hh Hl. unfold strip_by. rewrite (lstrip_fixed p s Hh).
  apply rstrip_fixed, Hl.
Qed.

Lemma strip_ends (p : ascii -> bool) (s : string) :
  head_ok p (strip_by p s) = true /\ last_ok p (strip_by p s) = true.
Proof.
  unfold strip_by. split.
  - apply head_ok_rstrip, head_ok_lstrip.
  - apply last_ok_rstrip.
Qed.

(** On strings over [q], stripping by [p] removes no more than stripping
    by [p'], when [p] and [q] together imply [p']. *)
Lemma head_ok_weaken (q p p' : ascii -> bool) (s : string) :
  (forall c, q c = true -> p c = true -> p' c = true) ->
  all_chars q s = true -> head_ok p' s = true -> head_ok p s = true.
Proof.
  intros Himp. destruct s as [|c s]; simpl; [reflexivity|].
  intros [Hq _]%andb_true_iff Hp'. apply negb_true_iff in Hp'.
  apply negb_true_iff. destruct (p c) eqn:Hp; [|reflexivity].
  rewrite (Himp c Hq Hp) in Hp'. discriminate.
Qed.

Lemma last_ok_weaken (q p p' : ascii -> bool) (s : string) :
  (forall c, q c = true -> p c = true -> p' c = true) ->
  all_chars q s = true -> last_ok p' s = true -> last_ok p s = true.
Proof.
  intros Himp. induction s as [|c s IH]; [reflexivity|].
  destruct s as [|d s'].
  - simpl. intros [Hq _]%andb_true_iff Hp'. apply negb_true_iff in Hp'.
    apply negb_true_iff. destruct (p c) eqn:Hp; [|reflexivity].
    rewrite (Himp c Hq Hp) in Hp'. discriminate.
  - intros Hall Hl. apply IH; [|exact Hl].
    simpl in Hall. apply andb_true_iff in Hall. tauto.
Qed.

Lemma ascii_eqb_eq (a b : ascii) : Ascii.eqb a b = true -> a = b.
Proof. apply Ascii.eqb_eq. Qed.

Lemma no_char_of_all (q : ascii -> bool) (c : ascii) (s : string) :
  q c = false -> all_chars q s = true -> no_char c s = true.
Proof.
  intros Hc. unfold no_char. induction s as [|d s IH]; simpl; [reflexivity|].
  intros [Hd Hs]%andb_true_iff. rewrite IH by assumption.
  rewrite andb_true_r. apply negb_true_iff.
  destruct (Ascii.eqb d c) eqn:He; [|reflexivity].
  apply ascii_eqb_eq in He. congruence.
Qed.

Lemma no_char_char_in (c : ascii) (s : string) :
  no_char c s = negb (char_in c s).
Proof.
  unfold no_char. induction s as [|d s IH]; simpl; [reflexivity|].
  rewrite IH, negb_orb, (Ascii.eqb_sym c d). reflexivity.
Qed.

Lemma split_all_plain (sep : ascii) (s : string) :
  no_char sep s = true -> split_all sep s = [s].
Proof.
  unfold no_char. induction s as [|c s IH]; simpl; [reflexivity|].
  intros [Hc Hs]%andb_true_iff. apply negb_true_iff in Hc.
  rewrite Hc, (IH Hs). reflexivity.
Qed.

Lemma rfind_absent (c : ascii) (s : string) :
  no_char c s = true -> rfind c s = None.
Proof.
  unfold no_char. induction s as [|d s IH]; simpl; [reflexivity|].
  intros [Hd Hs]%andb_true_iff. apply negb_true_iff in Hd.
  rewrite (IH Hs), Hd. reflexivity.
Qed.

Lemma rfind_lt (c : ascii) (s : string) (i : nat) :
  rfind c s = Some i -> (i < String.length s)%nat.
Proof.
  revert i. induction s as [|d s IH]; simpl; [discriminate|].
  intros i. destruct (rfind c s) as [j|].
  - intros [= <-]. specialize (IH j eq_refl). lia.
  - destruct (Ascii.eqb d c); [intros [= <-]; lia | discriminate].
Qed.

Lemma rfind_head (p : ascii -> bool) (c : ascii) (s : string) :
  p c = true -> rfind c s = Some O -> head_ok p s = false.
Proof.
  intros Hp. destruct s as [|d s]; simpl; [discriminate|].
  destruct (rfind c s); [discriminate|].
  destruct (Ascii.eqb d c) eqn:He; [|discriminate].
  apply ascii_eqb_eq in He. subst d. intros _. rewrite Hp. reflexivity.
Qed.

Lemma rfind_last (p : ascii -> bool) (c : ascii) (s : string) (i : nat) :
  p c = true -> rfind c s = Some i -> S i = String.length s ->
  last_ok p s = false.
Proof.
  intros Hp. revert i. induction s as [|d s IH]; [discriminate|].
  intros i Hf Hlen. simpl in Hf, Hlen.
  destruct (rfind c s) as [j|] eqn:Hj.
  - injection Hf as <-. destruct s as [|e s']; [discriminate|].
    apply (IH j eq_refl). lia.
  - destruct (Ascii.eqb d c) eqn:He; [|discriminate].
    injection Hf as <-. destruct s as [|e s']; [|simpl in Hlen; lia].
    apply ascii_eqb_eq in He. subst d. simpl. rewrite Hp. reflexivity.
Qed.

Lemma rfind_present (c : ascii) (s : string) :
  char_in c s = true -> exists i, rfind c s = Some i.
Proof.
  induction s as [|d s IH]; simpl; [discriminate|].
  intros H. destruct (rfind c s) as [j|]; [eauto|].
  destruct (char_in c s).
  - destruct (IH eq_refl) as [i Hi]. discriminate.
  - rewrite orb_false_r, Ascii.eqb_sym in H. rewrite H. eauto.
Qed.

Lemma length_re_sub (keep : ascii -> bool) (repl : ascii) (s : string) :
  String.length (re_sub_not keep repl s) = String.length s.
Proof. induction s as [|c s IH]; simpl; congruence. Qed.

Lemma length_lstrip (p : ascii -> bool) (s : string) :
  (String.length (lstrip_by p s) <= String.length s)%nat.
Proof.
  induction s as [|c s IH]; simpl; [lia|]. destruct (p c); simpl; lia.
Qed.

Lemma length_rstrip (p : ascii -> bool) (s : string) :
  (String.length (rstrip_by p s) <= String.length s)%nat.
Proof.
  induction s as [|c s IH]; simpl; [lia|].
  destruct (is_empty (rstrip_by p s) && p c); simpl; lia.
Qed.

Lemma length_strip (p : ascii -> bool) (s : string) :
  (String.length (strip_by p s) <= String.length s)%nat.
Proof.
  unfold strip_by. pose proof (length_rstrip p (lstrip_by p s)).
  pose proof (length_lstrip p s). lia.
Qed.

Lemma length_take (n : nat) (s : string) :
  (String.length (take_str n s) <= n)%nat.
Proof.
  revert s. induction n as [|n IH]; intros [|c s]; simpl; try lia.
  specialize (IH s). lia.
Qed.

Lemma drop_nonempty (n : nat) (s : string) :
  (n < String.length s)%nat -> is_empty (drop_str n s) = false.
Proof.
  revert s. induction n as [|n IH]; intros [|c s]; simpl; intros H;
    try lia; try reflexivity.
  apply IH. lia.
Qed.

(** ** The shape of a sanitized name *)

Lemma nonempty_some (s y : string) :
  nonempty s = Some y -> s = y /\ is_empty y = false.
Proof.
  unfold nonempty. destruct (is_empty s) eqn:He; [discriminate|].
  intros [= <-]. split; [reflexivity | exact He].
Qed.

Lemma sanitize_sanitized (name : option string) (y : string) :
  sanitize_file_basename name = Some y -> sanitized y.
Proof.
  destruct name as [name|]; [|discriminate]. unfold sanitize_file_basename.
  intros H. apply nonempty_some in H as [<- Hne].
  unfold sanitized, py_strip_chars.
  split; [|split; [|split]]; try exact Hne.
  - apply all_chars_strip, all_chars_re_sub. reflexivity.
  - apply strip_ends.
  - apply strip_ends.
Qed.

Lemma safe_space_is_blank (c : ascii) :
  safe_char c = true -> py_isspace c = true -> dot_or_space c = true.
Proof.
  destruct c as [[] [] [] [] [] [] [] []]; vm_compute; congruence.
Qed.

Lemma path_name_plain (y : string) :
  no_char "/" y = true -> is_empty y = false -> y <> "." ->
  path_name y = y.
Proof.
  intros Hs Hne Hdot. unfold path_name, path_parts.
  rewrite (split_all_plain _ _ Hs). simpl. rewrite Hne. simpl.
  destruct (String.eqb y ".") eqn:He.
  - apply String.eqb_eq in He. contradiction.
  - reflexivity.
Qed.

Lemma sanitized_strip (y : string) : sanitized y -> py_strip y = y.
Proof.
  intros (Hall & Hh & Hl & _). apply strip_fixed.
  - apply (head_ok_weaken safe_char _ dot_or_space); auto using safe_space_is_blank.
  - apply (last_ok_weaken safe_char _ dot_or_space); auto using safe_space_is_blank.
Qed.

Lemma sanitized_path_name (y : string) : sanitized y -> path_name y = y.
Proof.
  intros (Hall & Hh & Hl & Hne). apply path_name_plain; [| exact Hne |].
  - apply (no_char_of_all safe_char); [reflexivity | exact Hall].
  - intros ->. discriminate.
Qed.

(** A sanitized name without a dot is left as it is. *)
Lemma sanitize_plain (y : string) :
  sanitized y -> char_in "." y = false ->
  sanitize_file_basename (Some y) = Some y.
Proof.
  intros Hy Hdot. pose proof Hy as (Hall & Hh & Hl & Hne).
  unfold sanitize_file_basename.
  rewrite (sanitized_strip y Hy), (sanitized_path_name y Hy).
  unfold name_suffix, suffix_index.
  rewrite rfind_absent by (rewrite no_char_char_in, Hdot; reflexivity).
  simpl. rewrite (re_sub_fixed _ _ _ Hall).
  unfold py_strip_chars. rewrite strip_fixed by assumption.
  unfold nonempty. rewrite Hne. reflexivity.
Qed.

(** A sanitized name with a dot loses its last extension. *)
Lemma sanitize_dotted (y : string) :
  sanitized y -> char_in "." y = true ->
  sanitize_file_basename (Some y) <> Some y.
Proof.
  intros Hy Hdot. pose proof Hy as (Hall & Hh & Hl & Hne).
  destruct (rfind_present _ _ Hdot) as [i Hi].
  pose proof (rfind_lt _ _ _ Hi) as Hlt.
  assert (Hi0 : i <> O).
  { intros ->. rewrite (rfind_head dot_or_space "." y eq_refl Hi) in Hh. discriminate. }
  assert (HiL : S i <> String.length y).
  { intros HL. rewrite (rfind_last dot_or_space "." y i eq_refl Hi HL) in Hl. discriminate. }
  unfold sanitize_file_basename.
  rewrite (sanitized_strip y Hy), (sanitized_path_name y Hy).
  unfold name_suffix, name_stem, suffix_index. rewrite Hi.
  assert (Hc : ((0 <? i) && (i <? String.length y - 1))%nat = true).
  { apply andb_true_iff. split; apply Nat.ltb_lt; lia. }
  rewrite Hc. unfold str_truthy. rewrite (drop_nonempty i y Hlt). simpl.
  intros H. apply nonempty_some in H as [H _].
  apply (f_equal String.length) in H. unfold py_strip_chars in H.
  pose proof (length_strip (fun c => char_in c " .") (re_sub_not safe_char "_" (take_str i y))) as H1.
  rewrite length_re_sub in H1. pose proof (length_take i y). lia.
Qed.

(** C6 does not hold as stated: a name with two extensions loses one at
    each application. *)
Lemma sanitize_not_idempotent :
  sanitize_file_basename (Some "clip.final.mp4") = Some "clip.final" /\
  sanitize_file_basename (Some "clip.final") = Some "clip" /\
  sanitize_file_basename (Some "clip.final") <> Some "clip.final".
Proof. split; [|split]; [reflexivity | reflexivity | discriminate]. Qed.

(** C6, amended: sanitizing a sanitized name gives the same name exactly
    when that name has no dot; a remaining dot starts an extension, which
    the next application strips. *)
Theorem sanitize_idempotent_iff_no_dot (name : option string) (y : string)
    (Hy : sanitize_file_basename name = Some y) :
  sanitize_file_basename (Some y) = Some y <-> char_in "." y = false.
Proof.
  apply sanitize_sanitized in Hy. split.
  - intros H. destruct (char_in "." y) eqn:Hd; [|reflexivity].
    exfalso. exact (sanitize_dotted y Hy Hd H).
  - apply sanitize_plain, Hy.
Qed.

(** C6, amended, at a name with a space, a question mark and one extension. *)
Lemma sanitize_idempotent_witness :
  sanitize_file_basename (Some "  my clip?.mp4 ") = Some "my clip_" /\
  (sanitize_file_basename (Some "my clip_") = Some "my clip_"
   <-> char_in "." "my clip_" = false).
Proof.
  split; [reflexivity|].
  apply (sanitize_idempotent_iff_no_dot (Some "  my clip?.mp4 ")). reflexivity.
Defined.

(* ===================================================================== *)
(** * Format policy                                                       *)
(* ===================================================================== *)

(** C2 does not hold as stated: for [mp3] the selector ignores [sound_on]
    and returns the audio expression also when the sound is off. *)
Lemma mp3_sound_off_is_not_rejected :
  get_format_selector "mp3" "360p" false = Ok "bestaudio/best".
Proof. reflexivity. Qed.

Lemma get_format_selector_nonempty (fmt quality : string) (sound_on : bool) :
  fmt = "mp4" \/ fmt = "mp3" ->
  quality = "360p" \/ quality = "720p" \/ quality = "1080p60" ->
  exists expr, get_format_selector fmt quality sound_on = Ok expr
               /\ expr <> EmptyString.
Proof.
  intros [-> | ->] [-> | [-> | ->]]; destruct sound_on;
    (eexists; split; [reflexivity | discriminate]).
Qed.

Lemma get_format_selector_mp3 (quality : string) (sound_on : bool) :
  quality = "360p" \/ quality = "720p" \/ quality = "1080p60" ->
  get_format_selector "mp3" quality sound_on = Ok "bestaudio/best".
Proof. intros [-> | [-> | ->]]; reflexivity. Qed.

(* ===================================================================== *)
(** * Output basename                                                     *)
(* ===================================================================== *)

Lemma safe_name_of_fallback (output_name : option string) (job_id : string) :
  sanitize_file_basename output_name = None ->
  safe_name_of output_name job_id = job_id.
Proof. unfold safe_name_of. intros ->. reflexivity. Qed.

Lemma safe_name_of_nonempty (output_name : option string) (job_id : string) :
  job_id <> EmptyString -> safe_name_of output_name job_id <> EmptyString.
Proof.
  intros Hid. unfold safe_name_of.
  destruct (sanitize_file_basename output_name) as [s|]; [|exact Hid].
  destruct s; simpl; [exact Hid | discriminate].
Qed.

Lemma append_empty (s : string) : EmptyString +:+ s = s.
Proof. reflexivity. Qed.

Lemma append_cons (c : ascii) (a b : string) :
  String c a +:+ b = String c (a +:+ b).
Proof. reflexivity. Qed.

Lemma all_chars_app (p : ascii -> bool) (a b : string) :
  all_chars p (a +:+ b) = all_chars p a && all_chars p b.
Proof.
  induction a as [|c a IH]; [reflexivity|].
  rewrite append_cons. simpl. rewrite IH, andb_assoc. reflexivity.
Qed.

Lemma startswith_no_char (c : ascii) (t : string) :
  no_char c t = true -> startswith t (String c EmptyString) = false.
Proof.
  destruct t as [|d t]; simpl; [reflexivity|].
  unfold no_char. simpl. intros [Hd _]%andb_true_iff.
  apply negb_true_iff in Hd. rewrite Hd. reflexivity.
Qed.

Lemma app_not_dot (s ext : string) :
  (2 <= String.length ext)%nat -> s +:+ ext <> ".".
Proof.
  intros Hlen H. destruct s as [|c s].
  - rewrite append_empty in H. rewrite H in Hlen. simpl in Hlen. lia.
  - rewrite append_cons in H. injection H as _ H. destruct s.
    + rewrite append_empty in H. rewrite H in Hlen. simpl in Hlen. lia.
    + rewrite append_cons in H. discriminate.
Qed.

Lemma app_nonempty (s ext : string) :
  is_empty ext = false -> is_empty (s +:+ ext) = false.
Proof. destruct s; [rewrite append_empty; auto | reflexivity]. Qed.

(** [Path(t)] for a text without a slash that is neither empty nor a
    single dot: one component, no root. *)
Lemma parse_path_single (t : string) :
  no_char "/" t = true -> is_empty t = false -> t <> "." ->
  parse_path t = {| p_root := EmptyString; p_parts := [t] |}.
Proof.
  intros Hs Hne Hdot. unfold parse_path, path_parts.
  rewrite (startswith_no_char "/" t Hs), (split_all_plain "/" t Hs). simpl.
  rewrite Hne. destruct (String.eqb_spec t "."); [contradiction|]. reflexivity.
Qed.

Lemma path_join_single (dir : ppath) (t : string) :
  no_char "/" t = true -> is_empty t = false -> t <> "." ->
  path_join dir t = {| p_root := p_root dir; p_parts := p_parts dir ++ [t] |}.
Proof.
  intros Hs Hne Hdot. unfold path_join.
  rewrite (parse_path_single t Hs Hne Hdot). reflexivity.
Qed.

Lemma parent_of_child (dir : ppath) (t : string) :
  p_parent {| p_root := p_root dir; p_parts := p_parts dir ++ [t] |} = dir
  /\ p_name {| p_root := p_root dir; p_parts := p_parts dir ++ [t] |} = t.
Proof.
  unfold p_parent, p_name. simpl. rewrite removelast_last, last_last.
  destruct dir. split; reflexivity.
Qed.

Lemma sanitized_no_slash (y : string) : sanitized y -> no_char "/" y = true.
Proof.
  intros (Hall & _). apply (no_char_of_all safe_char); [reflexivity | exact Hall].
Qed.

Lemma safe_name_of_no_slash (output_name : option string) (job_id : string) :
  no_char "/" job_id = true ->
  no_char "/" (safe_name_of output_name job_id) = true.
Proof.
  intros Hid. unfold safe_name_of.
  destruct (sanitize_file_basename output_name) as [s|] eqn:Hs; [|exact Hid].
  destruct (str_truthy s); [|exact Hid].
  apply sanitized_no_slash, (sanitize_sanitized _ _ Hs).
Qed.

(** A file name made of a base without a slash and an extension of two or
    more characters without a slash is a direct child of the directory it
    is joined to. *)
Lemma child_of_dir (dir : ppath) (base ext : string) :
  no_char "/" base = true -> no_char "/" ext = true ->
  (2 <= String.length ext)%nat ->
  p_parent (path_join dir (base +:+ ext)) = dir /\
  p_name (path_join dir (base +:+ ext)) = base +:+ ext.
Proof.
  intros Hb He Hlen. rewrite path_join_single.
  - apply parent_of_child.
  - unfold no_char in *. rewrite all_chars_app, Hb, He. reflexivity.
  - apply app_nonempty. destruct ext; [simpl in Hlen; lia | reflexivity].
  - apply app_not_dot, Hlen.
Qed.

Lemma sanitize_nonempty (name : option string) (s : string) :
  sanitize_file_basename name = Some s -> str_truthy s = true.
Proof.
  intros H. apply sanitize_sanitized in H as (_ & _ & _ & Hne).
  unfold str_truthy. rewrite Hne. reflexivity.
Qed.

(** The basename of a job that has a usable name is that name. *)
Lemma safe_name_of_given (output_name : option string) (job_id s : string) :
  sanitize_file_basename output_name = Some s ->
  safe_name_of output_name job_id = s.
Proof.
  intros H. unfold safe_name_of. rewrite H, (sanitize_nonempty _ _ H). reflexivity.
Qed.

(** C9 does not hold as stated: the basename of a job without a usable
    name is its id, but it is not unique per job.  A second job whose
    requested name is the first job's id (the id is in the first
    response) gets the same basename and, in the same folder, the same
    output template. *)
Lemma fallback_basename_collides :
  "0123456789abcdef0123456789abcdef" <> "fedcba9876543210fedcba9876543210" /\
  sanitize_file_basename None = None /\
  safe_name_of None "0123456789abcdef0123456789abcdef"
  = "0123456789abcdef0123456789abcdef" /\
  safe_name_of (Some "0123456789abcdef0123456789abcdef")
    "fedcba9876543210fedcba9876543210"
  = "0123456789abcdef0123456789abcdef" /\
  outtmpl_of downloads
    (safe_name_of (Some "0123456789abcdef0123456789abcdef")
       "fedcba9876543210fedcba9876543210")
  = outtmpl_of downloads (safe_name_of None "0123456789abcdef0123456789abcdef") /\
  outtmpl_of downloads (safe_name_of None "0123456789abcdef0123456789abcdef")
  = "/srv/downloads/0123456789abcdef0123456789abcdef.%(ext)s".
Proof.
  split; [discriminate|]. repeat split; vm_compute; reflexivity.
Qed.

(** C9, amended: when the requested name is absent or sanitizes to
    nothing, both runners take the job id as the basename: the output
    template is the target directory joined with [<job_id>.%(ext)s], a
    direct child of the target directory with that file name.  With the
    non-empty ids without a slash that [uuid4().hex] yields, the basename
    is never empty.  Another job has the same basename exactly when it
    falls back to the same id or its requested name sanitizes to this
    job's id: among jobs that fall back the basename is unique, among all
    jobs it is not. *)
Theorem basename_falls_back_to_job_id
    (E : pyenv) (X : runner_env) (job_id url fmt quality : string)
    (sound_on : bool) (output_dir output_name : option string)
    (Hname : sanitize_file_basename output_name = None)
    (Hid : job_id <> EmptyString)
    (Hslash : no_char "/" job_id = true) :
  safe_name_of output_name job_id = job_id /\
  (forall name, safe_name_of name job_id <> EmptyString) /\
  (forall other_id other_name,
      safe_name_of other_name other_id = safe_name_of output_name job_id <->
      (sanitize_file_basename other_name = None /\ other_id = job_id) \/
      sanitize_file_basename other_name = Some job_id) /\
  (forall target_dir,
      outtmpl_of target_dir job_id
      = path_str (path_join target_dir (job_id +:+ ".%(ext)s")) /\
      p_name (path_join target_dir (job_id +:+ ".%(ext)s"))
      = job_id +:+ ".%(ext)s" /\
      p_parent (path_join target_dir (job_id +:+ ".%(ext)s")) = target_dir) /\
  (forall format_selector target_dir ffmpeg_bin_dir,
      get_format_selector fmt quality sound_on = Ok format_selector ->
      target_dir_of E X output_dir = Ok target_dir ->
      mkdir X target_dir = None ->
      detect_ffmpeg_bin_dir X = Ok ffmpeg_bin_dir ->
      exists opts,
        opt_outtmpl opts
        = path_str (path_join target_dir (job_id +:+ ".%(ext)s")) /\
        run_download_job E X job_id url fmt quality sound_on output_dir output_name
        = download_and_finish true (extract_info X opts url) fmt target_dir job_id) /\
  (forall target_dir ffmpeg_bin_dir,
      target_dir_of E X output_dir = Ok target_dir ->
      mkdir X target_dir = None ->
      detect_ffmpeg_bin_dir X = Ok ffmpeg_bin_dir ->
      exists opts,
        opt_outtmpl opts
        = path_str (path_join target_dir (job_id +:+ ".%(ext)s")) /\
        run_social_download_job E X job_id url output_dir output_name
        = download_and_finish false (extract_info X opts url) "mp4" target_dir job_id).
Proof.
  pose proof (safe_name_of_fallback output_name job_id Hname) as Hsafe.
  split; [exact Hsafe|]. split; [|split; [|split; [|split]]].
  - intros name. apply safe_name_of_nonempty, Hid.
  - intros other_id other_name. rewrite Hsafe.
    destruct (sanitize_file_basename other_name) as [s|] eqn:Hother.
    + rewrite (safe_name_of_given _ other_id s Hother). split.
      * intros ->. right. reflexivity.
      * intros [[Hn _] | Hs]; [discriminate | injection Hs as ->; reflexivity].
    + rewrite (safe_name_of_fallback _ _ Hother). split.
      * intros ->. left. split; reflexivity.
      * intros [[_ ->] | Hs]; [reflexivity | discriminate].
  - intros target_dir. split; [reflexivity|].
    destruct (child_of_dir target_dir job_id ".%(ext)s" Hslash eq_refl) as [Hp Hn].
    { simpl. lia. }
    split; assumption.
  - intros format_selector target_dir ffmpeg_bin_dir Hsel Hdir Hmk Hff.
    unfold run_download_job. rewrite Hsel, Hdir, Hmk, Hsafe, Hff.
    eexists. split; [|reflexivity]. reflexivity.
  - intros target_dir ffmpeg_bin_dir Hdir Hmk Hff.
    unfold run_social_download_job. rewrite Hdir, Hmk, Hsafe, Hff.
    eexists. split; [|reflexivity]. reflexivity.
Qed.

(** C9, amended, at a requested name that sanitizes to nothing. *)
Lemma basename_falls_back_witness :
  sanitize_file_basename (Some " .. ") = None /\
  safe_name_of (Some " .. ") "0123456789abcdef0123456789abcdef"
  = "0123456789abcdef0123456789abcdef" /\
  outtmpl_of downloads "0123456789abcdef0123456789abcdef"
  = "/srv/downloads/0123456789abcdef0123456789abcdef.%(ext)s".
Proof.
  split; [reflexivity|]. split; [|reflexivity].
  assert (Hid : "0123456789abcdef0123456789abcdef" <> EmptyString) by discriminate.
  exact (proj1 (basename_falls_back_to_job_id E0 X0
                  "0123456789abcdef0123456789abcdef" "https://youtu.be/x" "mp4" "720p"
                  true None (Some " .. ") eq_refl Hid eq_refl)).
Defined.

(* ===================================================================== *)
(** * Job store                                                           *)
(* ===================================================================== *)

Lemma new_job_record_fields (now : float) : has_fields (new_job_record now).
Proof.
  intros k Hk. simpl in Hk.
  repeat (destruct Hk as [<- | Hk]; [eexists; reflexivity|]). contradiction.
Qed.

Lemma dict_update_fields (kwargs d : gmap string jvalue) :
  has_fields d -> has_fields (dict_update kwargs d).
Proof.
  intros Hd k Hk. unfold dict_update.
  apply lookup_union_is_Some. right. apply Hd, Hk.
Qed.

Lemma store_ok_empty : store_ok empty_world.
Proof. intros job_id l H. simpl in H. rewrite lookup_empty in H. discriminate. Qed.

Lemma store_ok_bind_job (job_id : string) (d : gmap string jvalue) (w : world) :
  has_fields d -> store_ok w -> store_ok (bind_job job_id d w).
Proof.
  intros Hd Hw j l. unfold bind_job. simpl.
  set (l0 := fresh (dom (heap w))).
  assert (Hfresh : l0 ∉ dom (heap w)) by apply is_fresh.
  destruct (decide (job_id = j)) as [<- | Hne].
  - rewrite lookup_insert_eq. intros [= <-].
    exists d. split; [apply lookup_insert_eq | exact Hd].
  - rewrite lookup_insert_ne by exact Hne. intros Hj.
    destruct (Hw j l Hj) as (d' & Hl & Hd').
    exists d'. split; [|exact Hd'].
    rewrite lookup_insert_ne; [exact Hl|].
    intros <-. apply Hfresh, elem_of_dom. eauto.
Qed.

Lemma store_ok_start_thread (t : thread) (w : world) :
  store_ok w -> store_ok (start_thread t w).
Proof. intros Hw. exact Hw. Qed.

Lemma store_ok_update_job (job_id : string) (kwargs : gmap string jvalue) (w : world) :
  store_ok w -> store_ok (update_job job_id kwargs w).
Proof.
  intros Hw. unfold update_job.
  destruct (jobs w !! job_id) as [l|] eqn:Hl; [|exact Hw].
  intros j l' Hj. simpl in Hj. destruct (Hw j l' Hj) as (d & Hd & Hf). simpl.
  destruct (decide (l = l')) as [<- | Hne].
  - exists (dict_update kwargs d). split.
    + rewrite lookup_alter_eq, Hd. reflexivity.
    + apply dict_update_fields, Hf.
  - exists d. split; [|exact Hf]. rewrite lookup_alter_ne by exact Hne. exact Hd.
Qed.

Lemma store_ok_start_download (E : pyenv) (json : option jvalue)
    (job_id : string) (now : float) (w : world) :
  store_ok w -> store_ok (snd (start_download E json job_id now w)).
Proof.
  intros Hw. unfold start_download.
  destruct (start_download_checks E json) as [[resp | args] | e]; simpl; try exact Hw.
  destruct args as [[[[[url fmt] quality] sound_on] output_dir] output_name]. simpl.
  apply store_ok_start_thread, store_ok_bind_job; [apply new_job_record_fields | exact Hw].
Qed.

Lemma store_ok_social_download (E : pyenv) validator (msg : string)
    (json : option jvalue) (job_id : string) (now : float) (w : world) :
  store_ok w -> store_ok (snd (social_download E validator msg json job_id now w)).
Proof.
  intros Hw. unfold social_download.
  match goal with |- context [match ?c with _ => _ end] => destruct c as [[resp | args] | e] end;
    simpl; try exact Hw.
  destruct args as [[url output_dir] output_name]. simpl.
  apply store_ok_start_thread, store_ok_bind_job; [apply new_job_record_fields | exact Hw].
Qed.

Lemma reachable_store_ok (E : pyenv) (w : world) : reachable E w -> store_ok w.
Proof.
  induction 1.
  - apply store_ok_empty.
  - apply store_ok_bind_job; [apply new_job_record_fields | assumption].
  - apply store_ok_start_download; assumption.
  - apply store_ok_social_download; assumption.
  - apply store_ok_social_download; assumption.
  - apply store_ok_update_job; assumption.
Qed.

(* ===================================================================== *)
(** * Job runner: the calls it makes                                      *)
(* ===================================================================== *)

Lemma hook_range (d : hook_event) (kw : gmap string jvalue) :
  hook d = Ok (Some kw) -> progress_update kw.
Proof.
  unfold hook. destruct (ev_status d) as [status|]; [|discriminate].
  destruct (String.eqb status "downloading").
  - destruct (num_gt0 _); [|discriminate].
    destruct (num_truediv _ _) as [q|]; [|discriminate]. simpl.
    destruct (int_of_float _) as [pct|]; [|discriminate]. simpl.
    intros [= <-]. eexists. split; [reflexivity | lia].
  - destruct (String.eqb status "finished"); [|discriminate].
    intros [= <-]. exists 98. split; [reflexivity | lia].
Qed.

Lemma run_hooks_range (evs : list hook_event) :
  Forall progress_update (fst (run_hooks evs)).
Proof.
  induction evs as [|d evs IH]; simpl; [constructor|].
  destruct (hook d) as [[kw|]|e] eqn:Hd; simpl; [| |constructor].
  - destruct (run_hooks evs) as [us r]. simpl in *.
    constructor; [exact (hook_range d kw Hd) | exact IH].
  - destruct (run_hooks evs) as [us r]. exact IH.
Qed.

Lemma runner_calls_single (kw : gmap string jvalue) :
  final_update kw -> runner_calls [kw].
Proof.
  intros H. exists [], [kw]. split; [reflexivity|]. split; [constructor|].
  right. eauto.
Qed.

Lemma runner_calls_nil : runner_calls [].
Proof. exists [], []. split; [reflexivity|]. split; [constructor | left; reflexivity]. Qed.

Lemma final_error (msg : string) : final_update (kw_error msg).
Proof. left. eauto. Qed.

Lemma final_completed (p : ppath) : final_update (kw_completed p).
Proof. right. eauto. Qed.

Lemma download_and_finish_calls (age_gate : bool) (run : download_run)
    (fmt : string) (target_dir : ppath) (safe_name : string) :
  runner_calls (download_and_finish age_gate run fmt target_dir safe_name).
Proof.
  unfold download_and_finish.
  pose proof (run_hooks_range (events run)) as Hh.
  destruct (run_hooks (events run)) as [us raised]. simpl in Hh.
  eexists us, [_]. split; [reflexivity|]. split; [exact Hh|].
  right. eexists. split; [reflexivity|].
  destruct raised as [e|]; [|destruct (ending run) as [[info|] fs | e]].
  - destruct e; try apply final_error.
    destruct (age_gate && _); apply final_error.
  - destruct (locate_output _ _ _ _ _); [apply final_completed | apply final_error].
  - apply final_error.
  - destruct e; try apply final_error.
    destruct (age_gate && _); apply final_error.
Qed.

Lemma run_download_job_calls (E : pyenv) (X : runner_env)
    (job_id url fmt quality : string) (sound_on : bool)
    (output_dir output_name : option string) :
  runner_calls (run_download_job E X job_id url fmt quality sound_on
                  output_dir output_name).
Proof.
  unfold run_download_job.
  destruct (get_format_selector fmt quality sound_on) as [sel|e].
  - destruct (target_dir_of E X output_dir) as [dir|e]; [|apply runner_calls_nil].
    destruct (mkdir X dir).
    + apply runner_calls_single, final_error.
    + destruct (detect_ffmpeg_bin_dir X);
        [apply download_and_finish_calls | apply runner_calls_nil].
  - destruct e; try apply runner_calls_nil. apply runner_calls_single, final_error.
Qed.

Lemma run_social_download_job_calls (E : pyenv) (X : runner_env)
    (job_id url : string) (output_dir output_name : option string) :
  runner_calls (run_social_download_job E X job_id url output_dir output_name).
Proof.
  unfold run_social_download_job.
  destruct (target_dir_of E X output_dir) as [dir|e]; [|apply runner_calls_nil].
  destruct (mkdir X dir).
  - apply runner_calls_single, final_error.
  - destruct (detect_ffmpeg_bin_dir X);
      [apply download_and_finish_calls | apply runner_calls_nil].
Qed.

(* ===================================================================== *)
(** * Job runner: the progress it writes                                  *)
(* ===================================================================== *)

Lemma active_progress_ok (d : gmap string jvalue) : active d -> progress_ok d.
Proof.
  intros (Hs & p & Hp & Hr). exists p. split; [exact Hp|]. split; [lia|].
  split; [lia|]. rewrite Hs. discriminate.
Qed.

Lemma new_job_record_active (now : float) : active (new_job_record now).
Proof. split; [reflexivity|]. exists 0. split; [reflexivity | lia]. Qed.

Lemma progress_of_update (kw d : gmap string jvalue) (v : jvalue) :
  kw !! "progress" = Some v ->
  dict_update kw d !! "progress" = Some v.
Proof. intros H. unfold dict_update. apply lookup_union_Some_l, H. Qed.

Lemma active_progress_update (kw d : gmap string jvalue) :
  progress_update kw -> active d -> active (dict_update kw d).
Proof.
  intros (q & -> & Hq) (Hs & _). split.
  - unfold status_of, dict_update, kw_progress in *.
    rewrite lookup_union_r by reflexivity. exact Hs.
  - exists q. split; [|lia]. unfold progress_of, dict_update, kw_progress.
    rewrite (lookup_union_Some_l _ _ _ (JInt q)); [reflexivity|].
    apply lookup_singleton_eq.
Qed.

Lemma final_progress_ok (kw d : gmap string jvalue) :
  final_update kw -> progress_ok (dict_update kw d).
Proof.
  intros [[msg ->] | [p ->]].
  - exists 0. unfold progress_of, status_of, dict_update.
    rewrite (lookup_union_Some_l _ _ _ (JInt 0)) by reflexivity.
    rewrite (lookup_union_Some_l _ _ _ (JStr "error")) by reflexivity.
    repeat split; try lia.
  - exists 100. unfold progress_of, status_of, dict_update.
    rewrite (lookup_union_Some_l _ _ _ (JInt 100)) by reflexivity.
    rewrite (lookup_union_Some_l _ _ _ (JStr "completed")) by reflexivity.
    repeat split; try lia. discriminate.
Qed.

Lemma holds_record (w : world) (job_id : string) (l : nat) (d : gmap string jvalue) :
  holds w job_id l d -> job_record w job_id = Some d.
Proof. intros [Hj Hh]. unfold job_record, deref. rewrite Hj, Hh. reflexivity. Qed.

Lemma holds_update (w : world) (job_id : string) (l : nat)
    (kw d : gmap string jvalue) :
  holds w job_id l d -> holds (update_job job_id kw w) job_id l (dict_update kw d).
Proof.
  intros [Hj Hh]. unfold holds, update_job. rewrite Hj. simpl.
  split; [exact Hj|]. rewrite lookup_alter_eq, Hh. reflexivity.
Qed.

Lemma holds_create_job (job_id : string) (now : float) (w : world) :
  exists l, holds (create_job job_id now w) job_id l (new_job_record now).
Proof.
  eexists. unfold holds, create_job, bind_job. simpl.
  split; apply lookup_insert_eq.
Qed.

Lemma history_hooks (job_id : string) (l : nat) (hooks : list (gmap string jvalue)) :
  Forall progress_update hooks ->
  forall w d, holds w job_id l d -> active d ->
    Forall (fun w' => exists d', holds w' job_id l d' /\ active d')
      (apply_updates job_id hooks w).
Proof.
  induction 1 as [|kw hooks Hkw _ IH]; intros w d Hw Hd; simpl; constructor.
  - exists (dict_update kw d). split; [apply holds_update, Hw|].
    apply active_progress_update; assumption.
  - apply (IH _ (dict_update kw d)); [apply holds_update, Hw|].
    apply active_progress_update; assumption.
Qed.

Lemma last_cons_default {A} (x : A) (l : list A) (a b : A) :
  List.last (x :: l) a = List.last (x :: l) b.
Proof.
  revert x. induction l as [|y l IH]; intros x; [reflexivity|].
  change (List.last (y :: l) a = List.last (y :: l) b). apply IH.
Qed.

Lemma apply_updates_app (job_id : string) (us vs : list (gmap string jvalue)) (w : world) :
  apply_updates job_id (us ++ vs) w
  = apply_updates job_id us w
    ++ apply_updates job_id vs (List.last (apply_updates job_id us w) w).
Proof.
  revert w. induction us as [|kw us IH]; intros w; [reflexivity|].
  simpl. rewrite IH. f_equal. f_equal.
  destruct (apply_updates job_id us (update_job job_id kw w)) eqn:H; [reflexivity|].
  f_equal. apply last_cons_default.
Qed.

Lemma last_Forall {A} (P : A -> Prop) (l : list A) (x : A) :
  P x -> Forall P l -> P (List.last l x).
Proof.
  intros Hx Hl. revert x Hx. induction Hl as [|y l Hy Hl IH]; intros x Hx; [exact Hx|].
  simpl. destruct l; [exact Hy|]. apply IH, Hx.
Qed.

Lemma history_runner (job_id : string) (l : nat) (us : list (gmap string jvalue))
    (w : world) (d : gmap string jvalue) :
  runner_calls us -> holds w job_id l d -> active d ->
  Forall (fun r => exists d', r = Some d' /\ progress_ok d')
    (job_history job_id us w).
Proof.
  intros (hooks & final & -> & Hhooks & Hfinal) Hw Hd.
  unfold job_history. rewrite Forall_map. constructor.
  { exists d. split; [apply holds_record with l, Hw | apply active_progress_ok, Hd]. }
  rewrite apply_updates_app. pose proof (history_hooks job_id l hooks Hhooks w d Hw Hd) as Hh.
  apply Forall_app. split.
  - eapply Forall_impl; [exact Hh|]. intros w' (d' & Hw' & Hd').
    exists d'. split; [apply holds_record with l, Hw' | apply active_progress_ok, Hd'].
  - destruct Hfinal as [-> | (kw & -> & Hkw)]; [constructor|].
    assert (Hlast : exists d', holds (List.last (apply_updates job_id hooks w) w) job_id l d' /\ active d').
    { apply (last_Forall (fun w' => exists d', holds w' job_id l d' /\ active d'));
        [eauto | exact Hh]. }
    destruct Hlast as (d' & Hw' & Hd'). simpl. constructor; [|constructor].
    exists (dict_update kw d'). split.
    + apply holds_record with l, holds_update, Hw'.
    + apply final_progress_ok, Hkw.
Qed.

(** C1 does not hold as stated: the hook writes 99 for the last byte and
    98 at the end of the transfer, so the progress of an ordinary
    successful download goes 0, 99, 98, 100. *)
Lemma progress_decreases_at_end_of_transfer :
  progress_history "j1"
    (run_download_job E0 X0 "j1" "https://youtu.be/x" "mp4" "720p" true None None)
    w_j1
  = [Some 0; Some 99; Some 98; Some 100]
  /\ ~ nondecreasing
        (progress_history "j1"
           (run_download_job E0 X0 "j1" "https://youtu.be/x" "mp4" "720p" true
              None None)
           w_j1).
Proof.
  assert (H : progress_history "j1"
                (run_download_job E0 X0 "j1" "https://youtu.be/x" "mp4" "720p" true
                   None None) w_j1
              = [Some 0; Some 99; Some 98; Some 100]) by (vm_compute; reflexivity).
  split; [exact H|]. rewrite H. simpl. lia.
Qed.

(** C1, amended: in every record of a job, from its creation through all
    the calls of its runner (either runner), the progress is an integer
    between 0 and 100; it is 100 only when the status is [completed], and
    it is 0 when the status is [error]; the hook writes values between 1
    and 99.  (The sequence need not be non-decreasing.) *)
Theorem progress_bounded_and_100_only_when_completed
    (E : pyenv) (X : runner_env) (job_id url fmt quality : string)
    (sound_on : bool) (output_dir output_name : option string)
    (now : float) (w : world) :
  Forall (fun r => exists d, r = Some d /\ progress_ok d)
    (job_history job_id
       (run_download_job E X job_id url fmt quality sound_on output_dir output_name)
       (create_job job_id now w))
  /\ Forall (fun r => exists d, r = Some d /\ progress_ok d)
       (job_history job_id
          (run_social_download_job E X job_id url output_dir output_name)
          (create_job job_id now w))
  /\ forall d kw, hook d = Ok (Some kw) ->
       exists q, kw = kw_progress q /\ 1 <= q <= 99.
Proof.
  destruct (holds_create_job job_id now w) as [l Hl].
  split; [|split; [|exact hook_range]].
  - apply (history_runner job_id l _ _ (new_job_record now));
      [apply run_download_job_calls | exact Hl | apply new_job_record_active].
  - apply (history_runner job_id l _ _ (new_job_record now));
      [apply run_social_download_job_calls | exact Hl | apply new_job_record_active].
Qed.

(** C1, amended, at the end-of-transfer callback. *)
Lemma progress_bounded_witness :
  exists q, kw_progress 98 = kw_progress q /\ 1 <= q <= 99.
Proof.
  pose proof (progress_bounded_and_100_only_when_completed E0 X0 "j1"
                "https://youtu.be/x" "mp4" "720p" true None None zero empty_world)
    as (_ & _ & H).
  apply (H (bytes_event "finished" 100 100)). reflexivity.
Defined.

(* ===================================================================== *)
(** * Reading a job                                                       *)
(* ===================================================================== *)

Lemma run_schedule_store (job_id : string) (sched : list action)
    (st st' : gp_state) (w : world) :
  snd (run_schedule job_id sched (st, w))
  = snd (run_schedule job_id (others sched) (st', w)).
Proof.
  unfold run_schedule. revert st st' w.
  induction sched as [|a sched IH]; intros st st' w; [reflexivity|].
  destruct a; simpl; apply IH.
Qed.

(** One read of the handler, when the key is there. *)
Ltac gp_read Hd Hkey :=
  match goal with
  | |- context [gp_step ?j ?w (GpPayload ?l ?p)] =>
      let t := eval cbv [gp_step length app] in (gp_step j w (GpPayload l p)) in
      change (gp_step j w (GpPayload l p)) with t;
      unfold getitem; rewrite Hd, Hkey; cbv iota beta
  | |- context [gp_step ?j ?w (GpTested ?l ?p)] =>
      let t := eval cbv [gp_step length app] in (gp_step j w (GpTested l p)) in
      change (gp_step j w (GpTested l p)) with t;
      unfold getitem; rewrite Hd, Hkey; cbv iota beta
  end.

Lemma get_progress_short (job_id : string) (w : world) (l : nat)
    (d : gmap string jvalue) (s p e : jvalue) :
  holds w job_id l d ->
  d !! "status" = Some s -> d !! "progress" = Some p -> d !! "error" = Some e ->
  jstr_eqb s "completed" = false ->
  get_progress job_id w
  = GpDone (Ok {| status_code := 200; body := short_payload s p e |}).
Proof.
  intros [Hj Hh] Hs Hp He Hc.
  assert (Hd : deref w l = d) by (unfold deref; rewrite Hh; reflexivity).
  unfold get_progress, run_schedule. simpl. rewrite Hj, Hd.
  destruct (decide (d = ∅)) as [-> | _]; [rewrite lookup_empty in Hs; discriminate|].
  gp_read Hd Hs. gp_read Hd Hp. gp_read Hd He. gp_read Hd Hs.
  rewrite Hc. reflexivity.
Qed.

Lemma get_progress_full (job_id : string) (w : world) (l : nat)
    (d : gmap string jvalue) (s p e name path dir : jvalue) :
  holds w job_id l d ->
  d !! "status" = Some s -> d !! "progress" = Some p -> d !! "error" = Some e ->
  d !! "file_name" = Some name -> d !! "file_path" = Some path ->
  d !! "saved_dir" = Some dir ->
  jstr_eqb s "completed" = true ->
  get_progress job_id w
  = GpDone (Ok {| status_code := 200;
                  body := full_payload job_id s p e name path dir |}).
Proof.
  intros [Hj Hh] Hs Hp He Hn Hpa Hdi Hc.
  assert (Hd : deref w l = d) by (unfold deref; rewrite Hh; reflexivity).
  unfold get_progress, run_schedule. simpl. rewrite Hj, Hd.
  destruct (decide (d = ∅)) as [-> | _]; [rewrite lookup_empty in Hs; discriminate|].
  gp_read Hd Hs. gp_read Hd Hp. gp_read Hd He. gp_read Hd Hs.
  rewrite Hc. gp_read Hd Hn. gp_read Hd Hpa. gp_read Hd Hdi. reflexivity.
Qed.

Lemma deref_update_job (job_id : string) (kw : gmap string jvalue)
    (w : world) (l : nat) (d : gmap string jvalue) :
  holds w job_id l d ->
  deref (update_job job_id kw w) l = dict_update kw (deref w l).
Proof.
  intros Hw. pose proof (holds_update w job_id l kw d Hw) as [_ Hh'].
  destruct Hw as [_ Hh]. unfold deref. rewrite Hh, Hh'. reflexivity.
Qed.


(* ===================================================================== *)
(** * Locating the downloaded file                                        *)
(* ===================================================================== *)




Lemma glob_base_In (fs : filesystem) (dir : ppath) (base : string) (c : ppath * Z) :
  In c (glob_base fs dir base) ->
  In c fs /\ path_eqb (p_parent (fst c)) dir = true
  /\ startswith (p_name (fst c)) (base +:+ ".") = true.
Proof.
  unfold glob_base. intros [Hin H]%filter_In.
  apply andb_true_iff in H as [H Hs]. apply andb_true_iff in H as [Hp _]. tauto.
Qed.

Lemma insert_desc_cons (x : ppath * Z) (l : list (ppath * Z)) :
  exists c rest, insert_desc x l = c :: rest.
Proof.
  destruct l as [|y l]; simpl; [eauto|]. destruct (snd y <=? snd x); eauto.
Qed.

Lemma sorted_cons (x : ppath * Z) (l : list (ppath * Z)) :
  sorted_by_mtime_desc (x :: l) = insert_desc x (sorted_by_mtime_desc l).
Proof. reflexivity. Qed.

Lemma sorted_nil (l : list (ppath * Z)) :
  hd_error (sorted_by_mtime_desc l) = None -> l = [].
Proof.
  destruct l as [|x l]; [reflexivity|]. rewrite sorted_cons.
  destruct (insert_desc_cons x (sorted_by_mtime_desc l)) as (c & rest & ->).
  discriminate.
Qed.

(** The head of the sorted list is an element with the greatest time. *)
Lemma sorted_head_latest (l : list (ppath * Z)) (c : ppath * Z) :
  hd_error (sorted_by_mtime_desc l) = Some c ->
  In c l /\ Forall (fun c' => snd c' <= snd c) l.
Proof.
  revert c. induction l as [|x l IH]; intros c; [discriminate|].
  rewrite sorted_cons.
  destruct (sorted_by_mtime_desc l) as [|y r] eqn:Hs.
  - assert (l = []) as -> by (apply sorted_nil; rewrite Hs; reflexivity).
    simpl. intros [= <-]. split; [auto|]. constructor; [lia | constructor].
  - destruct (IH y eq_refl) as [Hy Hmax]. simpl.
    destruct (snd y <=? snd x) eqn:Hle; simpl; intros [= <-].
    + apply Z.leb_le in Hle. split; [auto|]. constructor; [lia|].
      eapply Forall_impl; [exact Hmax|]. simpl. intros a Ha. lia.
    + apply Z.leb_gt in Hle. split; [auto|]. constructor; [lia | exact Hmax].
Qed.


Lemma resolve_default (info : info_dict) (fmt : string) (dir : ppath)
    (safe_name : string) :
  reported_filepath info = None ->
  resolve_output_path info fmt dir (Some safe_name)
  = Ok (default_output_path info fmt dir safe_name).
Proof.
  unfold reported_filepath, resolve_output_path, default_output_path.
  intros ->. reflexivity.
Qed.








(* ===================================================================== *)
(** * URL validator                                                       *)
(* ===================================================================== *)

Lemma replace_from_skip (old new : string) (k : nat) (s : string) :
  replace_from old new k s = replace_from old new O (drop_str k s).
Proof.
  revert k. induction s as [|c s IH]; intros [|k]; try reflexivity.
  simpl. apply IH.
Qed.

Lemma replace_absent (old new s : string) :
  contains old s = false -> py_replace old new s = s.
Proof.
  unfold py_replace. induction s as [|c s IH]; [reflexivity|].
  intros H.
  change (startswith (String c s) old || contains old s = false) in H.
  apply orb_false_iff in H as [Hp Hc].
  change (replace_from old new O (String c s))
    with (if startswith (String c s) old
          then new +:+ replace_from old new (String.length old - 1) s
          else String c (replace_from old new O s)).
  rewrite Hp, (IH Hc). reflexivity.
Qed.

Lemma startswith_length (s p : string) :
  startswith s p = true -> (String.length p <= String.length s)%nat.
Proof.
  revert s. induction p as [|d p IH]; intros s; simpl; [lia|].
  destruct s as [|c s]; simpl; [discriminate|].
  intros [_ H]%andb_true_iff. specialize (IH s H). lia.
Qed.

Lemma replace_www_prefix (s : string) :
  startswith s "www." = true ->
  py_replace "www." "" s = py_replace "www." "" (drop_str 4 s).
Proof.
  intros H. unfold py_replace. destruct s as [|c s]; [discriminate|].
  change (replace_from "www." "" O (String c s))
    with (if startswith (String c s) "www."
          then "" +:+ replace_from "www." "" (String.length "www." - 1) s
          else String c (replace_from "www." "" O s)).
  rewrite H. rewrite replace_from_skip. reflexivity.
Qed.

Lemma host_of_prefix_only (p : parse_result) :
  contains "www." (strip_www_prefix (py_lower (netloc p))) = false ->
  host_of p = strip_www_prefix (py_lower (netloc p)).
Proof.
  unfold host_of, strip_www_prefix.
  destruct (startswith (py_lower (netloc p)) "www.") eqn:Hw; intros Hc.
  - rewrite (replace_www_prefix _ Hw). apply replace_absent, Hc.
  - apply replace_absent, Hc.
Qed.

Lemma is_empty_lstrip (p : ascii -> bool) (s : string) :
  is_empty (lstrip_by p s) = all_chars p s.
Proof.
  induction s as [|c s IH]; simpl; [reflexivity|].
  destruct (p c); [exact IH | reflexivity].
Qed.

Lemma is_empty_rstrip (p : ascii -> bool) (s : string) :
  is_empty (rstrip_by p s) = all_chars p s.
Proof.
  induction s as [|c s IH]; simpl; [reflexivity|].
  rewrite <- IH. destruct (is_empty (rstrip_by p s)), (p c); reflexivity.
Qed.

Lemma all_chars_lstrip_same (p : ascii -> bool) (s : string) :
  all_chars p (lstrip_by p s) = all_chars p s.
Proof.
  induction s as [|c s IH]; simpl; [reflexivity|].
  destruct (p c) eqn:Hc; simpl; [exact IH | rewrite Hc; reflexivity].
Qed.

Lemma is_empty_strip (p : ascii -> bool) (s : string) :
  is_empty (strip_by p s) = all_chars p s.
Proof. unfold strip_by. rewrite is_empty_rstrip. apply all_chars_lstrip_same. Qed.

Lemma all_chars_ext (p q : ascii -> bool) (s : string) :
  (forall c, p c = q c) -> all_chars p s = all_chars q s.
Proof.
  intros H. induction s as [|c s IH]; simpl; [reflexivity|]. rewrite H, IH. reflexivity.
Qed.

Lemma strip_slash_truthy (path : string) :
  str_truthy (py_strip_chars "/" path) = has_non_slash path.
Proof.
  unfold str_truthy, py_strip_chars, has_non_slash. rewrite is_empty_strip.
  f_equal. apply all_chars_ext. intros c. simpl. apply orb_false_r.
Qed.

Lemma existsb_flat_map {A B} (f : B -> bool) (g : A -> list B) (l : list A) :
  existsb f (flat_map g l) = existsb (fun x => existsb f (g x)) l.
Proof.
  induction l as [|x l IH]; simpl; [reflexivity|].
  rewrite existsb_app, IH. reflexivity.
Qed.

Lemma existsb_ext_all {A} (f g : A -> bool) (l : list A) :
  (forall x, f x = g x) -> existsb f l = existsb g l.
Proof.
  intros H. induction l as [|x l IH]; simpl; [reflexivity|]. rewrite H, IH. reflexivity.
Qed.

Lemma in_parse_qs_has_param (k qs : string) : in_parse_qs k qs = has_param k qs.
Proof.
  unfold in_parse_qs, parse_qsl, has_param. rewrite existsb_flat_map.
  apply existsb_ext_all. intros field. unfold field_names.
  destruct (is_empty field) eqn:He.
  - apply is_empty_true in He. subst field. reflexivity.
  - destruct (split_once "=" field) as [[n v]|]; [|reflexivity].
    destruct (is_empty v); simpl; [reflexivity|]. apply orb_false_r.
Qed.

Lemma after_first_prefix (sep s : string) :
  startswith s sep = true -> after_first sep s = drop_str (String.length sep) s.
Proof.
  intros H. destruct s as [|c s].
  - destruct sep; [reflexivity | discriminate].
  - change (after_first sep (String c s))
      with (if startswith (String c s) sep
            then drop_str (String.length sep) (String c s)
            else after_first sep s).
    rewrite H. reflexivity.
Qed.

(** The validator in terms of the parsed URL and the host it compares. *)
Lemma is_valid_youtube_url_parsed (E : pyenv) (url : string) (p : parse_result) :
  is_empty url = false ->
  urlparse E (with_default_scheme url) = Ok p ->
  is_valid_youtube_url E url = Ok (youtube_accepts (host_of p) (path p) (query p)).
Proof.
  intros Hne Hp. unfold is_valid_youtube_url. rewrite Hne, Hp. simpl.
  unfold youtube_accepts, accepts_on.
  rewrite strip_slash_truthy, in_parse_qs_has_param.
  generalize (host_of p) as h. intros h.
  destruct (String.eqb h "youtu.be") eqn:H1.
  - apply String.eqb_eq in H1. subst h. simpl. rewrite orb_false_r. reflexivity.
  - simpl. destruct (String.eqb h "youtube.com" || (String.eqb h "m.youtube.com" || false));
      [|reflexivity]. simpl.
    destruct (String.eqb (path p) "/watch") eqn:H2.
    + apply String.eqb_eq in H2. rewrite H2. simpl. rewrite orb_false_r. reflexivity.
    + simpl. destruct (startswith (path p) "/shorts/") eqn:H3; [|reflexivity].
      rewrite (after_first_prefix _ _ H3). reflexivity.
Qed.

(** C5 does not hold as stated: the mobile host is accepted as well, not
    only the short-link and the canonical host; and the validator is not
    case-insensitive: only the host is lower-cased, so the upper-case form
    of a valid URL is rejected. *)
Lemma youtube_validator_mobile_host_and_case :
  is_valid_youtube_url E0 "https://m.youtube.com/watch?v=abc" = Ok true
  /\ claimed_youtube_accepts "m.youtube.com" "/watch" "v=abc" = false
  /\ py_lower "HTTPS://YOUTUBE.COM/WATCH?V=ABC" = "https://youtube.com/watch?v=abc"
  /\ is_valid_youtube_url E0 "https://youtube.com/watch?v=abc" = Ok true
  /\ is_valid_youtube_url E0 "HTTPS://YOUTUBE.COM/WATCH?V=ABC" = Ok false.
Proof. repeat (split; [vm_compute; reflexivity|]). vm_compute. reflexivity. Qed.

(** The validator removes [www.] wherever it occurs in the host. *)
Lemma youtube_validator_inner_www :
  forall E, is_valid_youtube_url E "https://youtube.www.com/watch?v=abc" = Ok true.
Proof. intros E. vm_compute. reflexivity. Qed.

(** C5, amended: an empty URL is rejected; a URL that [urlparse] refuses
    makes the validator raise; otherwise, with the URL parsed (as
    [https://<url>] when it has no [://]) and its host lower-cased and,
    when [www.] occurs in it as a prefix only, stripped of that prefix,
    the validator accepts exactly: host [youtu.be] with a path that has
    more than slashes; or host [youtube.com] or [m.youtube.com] with the
    path [/watch] and a [v] parameter of non-blank value, or with a path
    [/shorts/<id>], id non-empty.  The scheme is not looked at; path and
    query are compared as they are, case included. *)
Theorem is_valid_youtube_url_rule (E : pyenv) (url : string) :
  (url = EmptyString -> is_valid_youtube_url E url = Ok false) /\
  (forall e, url <> EmptyString ->
      urlparse E (with_default_scheme url) = Raise e ->
      is_valid_youtube_url E url = Raise e) /\
  (forall p, url <> EmptyString ->
      urlparse E (with_default_scheme url) = Ok p ->
      contains "www." (strip_www_prefix (py_lower (netloc p))) = false ->
      is_valid_youtube_url E url
      = Ok (youtube_accepts (strip_www_prefix (py_lower (netloc p)))
              (path p) (query p))).
Proof.
  split; [|split].
  - intros ->. reflexivity.
  - intros e Hne Hp. unfold is_valid_youtube_url.
    destruct url; [contradiction|]. simpl is_empty. cbv iota. rewrite Hp. reflexivity.
  - intros p Hne Hp Hw. rewrite <- (host_of_prefix_only p Hw).
    apply is_valid_youtube_url_parsed; [|exact Hp].
    destruct url; [contradiction | reflexivity].
Qed.

(** C5, amended, at a shorts URL without a scheme and with an upper-case host. *)
Lemma is_valid_youtube_url_witness :
  is_valid_youtube_url E0 "WWW.YouTube.com/shorts/abc?x=1" = Ok true.
Proof.
  pose proof (is_valid_youtube_url_rule E0 "WWW.YouTube.com/shorts/abc?x=1")
    as (_ & _ & H).
  apply (H {| scheme := "https"; netloc := "WWW.YouTube.com";
              path := "/shorts/abc"; params := ""; query := "x=1";
              fragment := "" |}); [discriminate | reflexivity | reflexivity].
Defined.

(* ===================================================================== *)
(** * Job creation                                                        *)
(* ===================================================================== *)

Lemma output_settings_message (E : pyenv) (dir name err : string) :
  output_settings E dir name = inl err -> err <> EmptyString.
Proof.
  unfold output_settings.
  destruct (str_truthy dir); [destruct (expanduser E dir)|];
    destruct (str_truthy name);
    try destruct (sanitize_file_basename (Some name)) as [n|];
    try destruct (str_truthy n);
    intros [= <-]; discriminate.
Qed.

(** The three ways [start_download] ends: it raises (Flask answers 500),
    it answers 400 with a message, or it creates the job, starts its
    thread and returns the id.  Only the last one changes the store. *)
Lemma start_download_outcomes (E : pyenv) (json : option jvalue)
    (job_id : string) (now : float) (w : world) :
  (exists e, start_download E json job_id now w = (Raise e, w)) \/
  (exists msg, msg <> EmptyString /\
     start_download E json job_id now w = (Ok (error_response 400 msg), w)) \/
  (exists t,
     start_download E json job_id now w
     = (Ok {| status_code := 200; body := [("job_id", JStr job_id)] |},
        start_thread t (bind_job job_id (new_job_record now) w))).
Proof.
  unfold start_download, start_download_checks.
  repeat match goal with
         | |- context [rbind ?r _] =>
             destruct r; simpl; [|left; eexists; reflexivity]
         end.
  repeat match goal with
         | |- context [if ?b then _ else _] =>
             destruct b; simpl;
             [right; left; eexists; split; [|reflexivity]; discriminate|]
         end.
  destruct (output_settings E _ _) as [err | [output_dir output_name]] eqn:Ho; simpl.
  - right. left. exists err. split; [|reflexivity].
    eapply output_settings_message, Ho.
  - right. right. eexists. reflexivity.
Qed.

Lemma str_truthy_nonempty (s : string) : str_truthy s = true -> s <> EmptyString.
Proof. intros H ->. discriminate. Qed.

(** The same three ways for the TikTok and Instagram endpoints. *)
Lemma social_download_outcomes (E : pyenv) (validator : pyenv -> string -> result bool)
    (invalid_msg : string) (json : option jvalue) (job_id : string) (now : float)
    (w : world) :
  invalid_msg <> EmptyString ->
  (exists e, social_download E validator invalid_msg json job_id now w = (Raise e, w)) \/
  (exists msg, msg <> EmptyString /\
     social_download E validator invalid_msg json job_id now w
     = (Ok (error_response 400 msg), w)) \/
  (exists t,
     social_download E validator invalid_msg json job_id now w
     = (Ok {| status_code := 200; body := [("job_id", JStr job_id)] |},
        start_thread t (create_job job_id now w))).
Proof.
  intros Hmsg. unfold social_download.
  destruct (get_stripped (request_data json) "url" "") as [url|e]; simpl;
    [|left; eexists; reflexivity].
  destruct (validator E url) as [valid|e]; simpl; [|left; eexists; reflexivity].
  destruct valid; simpl; [|right; left; exists invalid_msg; split; [exact Hmsg | reflexivity]].
  destruct (parse_output_settings E (request_data json)) as [[[d n] err]|e]; simpl;
    [|left; eexists; reflexivity].
  destruct err as [err|]; [destruct (str_truthy err) eqn:Ht|]; simpl.
  - right. left. exists err. split; [apply str_truthy_nonempty, Ht | reflexivity].
  - right. right. eexists. reflexivity.
  - right. right. eexists. reflexivity.
Qed.

(** C4 fails on this input: a URL with an unbalanced bracket makes
    [urlparse] raise inside the validator; nothing catches the exception,
    so the request is answered with 500 and not with 400 and a message.
    (No job is created.) *)
Theorem start_download_unbalanced_bracket_raises
    (E : pyenv) (job_id : string) (now : float) (w : world) :
  start_download E unbalanced_bracket_request job_id now w
  = (Raise (ValueError "Invalid IPv6 URL"), w).
Proof.
  unfold start_download.
  assert (H : start_download_checks E unbalanced_bracket_request
              = Raise (ValueError "Invalid IPv6 URL")) by (vm_compute; reflexivity).
  rewrite H. reflexivity.
Qed.

Lemma start_download_sound_off (E : pyenv) (json : option jvalue)
    (url fmt quality dir name : string) (job_id : string) (now : float) (w : world) :
  get_stripped (request_data json) "url" "" = Ok url ->
  get_stripped (request_data json) "format" "mp4" = Ok fmt ->
  get_stripped (request_data json) "quality" "1080p60" = Ok quality ->
  get_flag (request_data json) "sound_on" = Ok false ->
  get_stripped (request_data json) "output_dir" "" = Ok dir ->
  get_stripped (request_data json) "output_name" "" = Ok name ->
  is_valid_youtube_url E url = Ok true ->
  py_lower fmt = "mp3" ->
  quality = "360p" \/ quality = "720p" \/ quality = "1080p60" ->
  start_download E json job_id now w
  = (Ok (error_response 400 "Sound Off is not valid for MP3 downloads."), w).
Proof.
  intros Hu Hf Hq Hs Hd Hn Hv Hl Hqs.
  unfold start_download, start_download_checks.
  rewrite Hu, Hf, Hq, Hs, Hd, Hn. simpl. rewrite Hv, Hl. simpl.
  destruct Hqs as [-> | [-> | ->]]; reflexivity.
Qed.

(** C2, amended: for every format in {mp4, mp3}, quality in {360p, 720p,
    1080p60} and either value of [sound_on], [get_format_selector]
    returns a non-empty expression; for mp3 it is ["bestaudio/best"]
    whatever [sound_on] is.  The combination of mp3 with the sound off is
    rejected by the [/download] handler instead: an otherwise valid
    request with it is answered 400 and creates no job. *)
Theorem format_policy_total_and_sound_off_gate :
  (forall fmt quality sound_on,
      fmt = "mp4" \/ fmt = "mp3" ->
      quality = "360p" \/ quality = "720p" \/ quality = "1080p60" ->
      exists expr, get_format_selector fmt quality sound_on = Ok expr
                   /\ expr <> EmptyString) /\
  (forall quality sound_on,
      quality = "360p" \/ quality = "720p" \/ quality = "1080p60" ->
      get_format_selector "mp3" quality sound_on = Ok "bestaudio/best") /\
  (forall E json url fmt quality dir name job_id now w,
      get_stripped (request_data json) "url" "" = Ok url ->
      get_stripped (request_data json) "format" "mp4" = Ok fmt ->
      get_stripped (request_data json) "quality" "1080p60" = Ok quality ->
      get_flag (request_data json) "sound_on" = Ok false ->
      get_stripped (request_data json) "output_dir" "" = Ok dir ->
      get_stripped (request_data json) "output_name" "" = Ok name ->
      is_valid_youtube_url E url = Ok true ->
      py_lower fmt = "mp3" ->
      quality = "360p" \/ quality = "720p" \/ quality = "1080p60" ->
      start_download E json job_id now w
      = (Ok (error_response 400 "Sound Off is not valid for MP3 downloads."), w)).
Proof.
  split; [exact get_format_selector_nonempty|].
  split; [exact get_format_selector_mp3|].
  intros E json url fmt quality dir name job_id now w.
  apply start_download_sound_off.
Qed.

(** C2, amended, at the 1080p60 video selector without sound and at an
    mp3 request with the sound off. *)
Lemma format_policy_witness :
  (exists expr, get_format_selector "mp4" "1080p60" false = Ok expr
                /\ expr <> EmptyString)
  /\ start_download E0 mp3_sound_off_request "j2" zero w_j1
     = (Ok (error_response 400 "Sound Off is not valid for MP3 downloads."), w_j1).
Proof.
  pose proof format_policy_total_and_sound_off_gate as (Hsel & _ & Hgate).
  split.
  - apply Hsel; [left; reflexivity | right; right; reflexivity].
  - apply (Hgate E0 mp3_sound_off_request "https://youtu.be/abc123" "mp3" "720p" "" "");
      try reflexivity. right. left. reflexivity.
Defined.

(* ===================================================================== *)
(** * Job store: the record a job starts with                             *)
(* ===================================================================== *)

Lemma job_record_bound (job_id : string) (d : gmap string jvalue) (t : thread)
    (w : world) :
  job_record (start_thread t (bind_job job_id d w)) job_id = Some d.
Proof.
  unfold job_record, start_thread, bind_job, deref. simpl.
  rewrite lookup_insert_eq. simpl. rewrite lookup_insert_eq. reflexivity.
Qed.

(** An accepted [start_download] binds the initial record to the new id. *)
Lemma start_download_record (E : pyenv) (json : option jvalue) (job_id : string)
    (now : float) (w : world) (resp : response) :
  fst (start_download E json job_id now w) = Ok resp ->
  status_code resp = 200 ->
  job_record (snd (start_download E json job_id now w)) job_id
  = Some (new_job_record now).
Proof.
  destruct (start_download_outcomes E json job_id now w)
    as [[e ->] | [(msg & _ & ->) | [t ->]]]; simpl.
  - discriminate.
  - intros [= <-]. discriminate.
  - intros _ _. apply job_record_bound.
Qed.

(** So does an accepted [download_tiktok] or [download_instagram]. *)
Lemma social_download_record (E : pyenv) (validator : pyenv -> string -> result bool)
    (invalid_msg : string) (json : option jvalue) (job_id : string) (now : float)
    (w : world) (resp : response) :
  fst (social_download E validator invalid_msg json job_id now w) = Ok resp ->
  status_code resp = 200 ->
  job_record (snd (social_download E validator invalid_msg json job_id now w)) job_id
  = Some (new_job_record now).
Proof.
  unfold social_download.
  destruct (get_stripped (request_data json) "url" "") as [url|e]; simpl;
    [|discriminate].
  destruct (validator E url) as [valid|e]; simpl; [|discriminate].
  destruct valid; simpl; [|intros [= <-]; discriminate].
  destruct (parse_output_settings E (request_data json)) as [[[d n] err]|e]; simpl;
    [|discriminate].
  destruct err as [err|]; [destruct (str_truthy err)|]; simpl;
    try (intros [= <-]; discriminate); intros _ _; apply job_record_bound.
Qed.

(** C10: a job record is created with exactly the seven fields, in the
    state queued, progress 0, and [None] for the error and the file
    fields.  This is the record that [create_job] binds, that an accepted
    [start_download] binds with its own literal, and that an accepted
    [download_tiktok] or [download_instagram] binds through [create_job].
    Updates merge, so in every store the program reaches every job record
    has all the fields, and reading [status], [progress] or [error] from
    it succeeds. *)
Theorem job_records_keep_their_fields (E : pyenv) :
  (forall now,
      dom (new_job_record now) = list_to_set job_fields /\
      new_job_record now !! "status" = Some (JStr "queued") /\
      new_job_record now !! "progress" = Some (JInt 0) /\
      new_job_record now !! "error" = Some JNull /\
      new_job_record now !! "file_path" = Some JNull /\
      new_job_record now !! "file_name" = Some JNull /\
      new_job_record now !! "saved_dir" = Some JNull /\
      new_job_record now !! "created_at" = Some (JFloat now)) /\
  (forall job_id now w,
      job_record (create_job job_id now w) job_id = Some (new_job_record now)) /\
  (forall json job_id now w resp,
      fst (start_download E json job_id now w) = Ok resp ->
      status_code resp = 200 ->
      job_record (snd (start_download E json job_id now w)) job_id
      = Some (new_job_record now)) /\
  (forall json job_id now w resp,
      (fst (download_tiktok E json job_id now w) = Ok resp ->
       status_code resp = 200 ->
       job_record (snd (download_tiktok E json job_id now w)) job_id
       = Some (new_job_record now)) /\
      (fst (download_instagram E json job_id now w) = Ok resp ->
       status_code resp = 200 ->
       job_record (snd (download_instagram E json job_id now w)) job_id
       = Some (new_job_record now))) /\
  (forall kwargs d, dom d ⊆ dom (dict_update kwargs d)) /\
  (forall w job_id d,
      reachable E w -> job_record w job_id = Some d ->
      has_fields d /\
      (exists v, getitem d "status" = Ok v) /\
      (exists v, getitem d "progress" = Ok v) /\
      (exists v, getitem d "error" = Ok v)).
Proof.
  split; [|split; [|split; [|split; [|split]]]].
  - intros now. split; [|repeat split; reflexivity].
    unfold new_job_record. rewrite dom_list_to_map_L. reflexivity.
  - intros job_id now w. unfold job_record, create_job, bind_job, deref. simpl.
    rewrite lookup_insert_eq. simpl. rewrite lookup_insert_eq. reflexivity.
  - intros json job_id now w resp. apply start_download_record.
  - intros json job_id now w resp. split; apply social_download_record.
  - intros kwargs d. unfold dict_update. rewrite dom_union. set_solver.
  - intros w job_id d Hr Hrec. apply reachable_store_ok in Hr.
    unfold job_record in Hrec.
    destruct (jobs w !! job_id) as [l|] eqn:Hl; [|discriminate].
    destruct (Hr job_id l Hl) as (d' & Hd' & Hf).
    unfold deref in Hrec. rewrite Hd' in Hrec. simpl in Hrec.
    injection Hrec as <-. split; [exact Hf|].
    assert (Hget : forall k, In k job_fields -> exists v, getitem d' k = Ok v).
    { intros k Hk. destruct (Hf k Hk) as [v Hv]. exists v.
      unfold getitem. rewrite Hv. reflexivity. }
    repeat split; apply Hget; simpl; tauto.
Qed.

(** C10 at a download that [start_download] accepts. *)
Lemma job_records_witness :
  job_record
    (snd (start_download E0
            (Some (JObject [("url", JStr "https://youtu.be/abc123")]))
            "j1" zero empty_world)) "j1"
  = Some (new_job_record zero)
  /\ exists v, getitem (new_job_record zero) "status" = Ok v.
Proof.
  pose proof (job_records_keep_their_fields E0) as (_ & Hc & Hs & _ & _ & H).
  split.
  - apply (Hs _ "j1" zero empty_world
             {| status_code := 200; body := [("job_id", JStr "j1")] |});
      reflexivity.
  - destruct (H w_j1 "j1" (new_job_record zero)) as (_ & Hst & _).
    + apply reach_create_job, reach_empty.
    + apply Hc.
    + exact Hst.
Defined.

(* ===================================================================== *)
(** * Metrics scoring                                                     *)
(* ===================================================================== *)

(** C8 fails on this input: [safe_float] catches [ValueError] only, and
    [float] of an integer beyond the float range raises [OverflowError];
    the analysis raises instead of returning. *)
Theorem analyze_metrics_raises_on_huge_int (E : pyenv) :
  analyze_metrics E huge_ctr_metrics
  = Raise (OverflowError "int too large to convert to float").
Proof. vm_compute. reflexivity. Qed.

Lemma score_higher_better_value (v : option float) (good ok : float) :
  score_value (score_higher_better v good ok).
Proof.
  unfold score_value, score_higher_better. destruct v as [v|]; [|tauto].
  destruct (f_ge v good); [tauto|]. destruct (f_ge v ok); tauto.
Qed.

Lemma score_lower_better_value (v : option float) (good ok : float) :
  score_value (score_lower_better v good ok).
Proof.
  unfold score_value, score_lower_better. destruct v as [v|]; [|tauto].
  destruct (f_le v good); [tauto|]. destruct (f_le v ok); tauto.
Qed.

Lemma add_metric_results (name : string) (value : option float) (score : option Z)
    (low_tip : string) (acc : metric_acc) :
  exists r, results (add_metric name value score low_tip acc) = results acc ++ [r]
            /\ m_score r = score
            /\ (score = None -> m_rating r = "No data").
Proof.
  unfold add_metric. destruct score as [sc|]; simpl; eexists;
    (split; [reflexivity|]); simpl; (split; [reflexivity|]); [discriminate | reflexivity].
Qed.

Lemma add_metric_ok (name : string) (value : option float) (score : option Z)
    (low_tip : string) (acc : metric_acc) :
  score_value score -> Forall entry_ok (results acc) ->
  Forall entry_ok (results (add_metric name value score low_tip acc)).
Proof.
  intros Hs Hacc.
  destruct (add_metric_results name value score low_tip acc) as (r & -> & Hr & Hn).
  apply Forall_app. split; [exact Hacc|]. constructor; [|constructor].
  split; rewrite Hr; assumption.
Qed.

Lemma add_metric_length (name : string) (value : option float) (score : option Z)
    (low_tip : string) (acc : metric_acc) :
  length (results (add_metric name value score low_tip acc))
  = S (length (results acc)).
Proof.
  destruct (add_metric_results name value score low_tip acc) as (r & -> & _).
  rewrite length_app. simpl. lia.
Qed.

(** ** The mean of the scores *)

Lemma mean_table_holds : mean_table 22 = true.
Proof. vm_compute. reflexivity. Qed.

Lemma int_mean_exact (a b c : nat) :
  (0 < a + b + c <= 21)%nat ->
  int_mean (45 * Z.of_nat a + 75 * Z.of_nat b + 95 * Z.of_nat c)
           (Z.of_nat (a + b + c))
  = Ok ((45 * Z.of_nat a + 75 * Z.of_nat b + 95 * Z.of_nat c)
        / Z.of_nat (a + b + c)).
Proof.
  intros Hn. pose proof mean_table_holds as H. unfold mean_table in H.
  assert (Hin : forall i n, (i < n)%nat -> In i (seq 0 n))
    by (intros i n Hi; apply in_seq; lia).
  pose proof (proj1 (forallb_forall _ _) H a (Hin a 22%nat ltac:(lia))) as Ha.
  pose proof (proj1 (forallb_forall _ _) Ha b (Hin b (22 - a)%nat ltac:(lia))) as Hb.
  pose proof (proj1 (forallb_forall _ _) Hb c (Hin c (22 - a - b)%nat ltac:(lia))) as Hrow.
  clear H Ha Hb. cbv beta in Hrow. unfold mean_row in Hrow. apply orb_true_iff in Hrow as [Hz | Hrow].
  - apply Z.eqb_eq in Hz. lia.
  - destruct (int_mean _ _) as [q|e]; [|discriminate].
    apply Z.eqb_eq in Hrow. rewrite Hrow. reflexivity.
Qed.

Lemma scores_counts (l : list Z) :
  Forall is_score l ->
  exists a b c : nat,
    length l = (a + b + c)%nat /\
    sum_Z l = 45 * Z.of_nat a + 75 * Z.of_nat b + 95 * Z.of_nat c.
Proof.
  induction 1 as [|s l Hs _ (a & b & c & Hlen & Hsum)].
  - exists O, O, O. split; reflexivity.
  - unfold sum_Z in *. simpl. rewrite Hlen, Hsum.
    destruct Hs as [-> | [-> | ->]].
    + exists (S a), b, c. split; lia.
    + exists a, (S b), c. split; lia.
    + exists a, b, (S c). split; lia.
Qed.

(** The overall score of up to 21 scores is their integer mean, hence
    between 45 and 95; without a score it is 0. *)
Lemma overall_of_mean (scores : list Z) :
  Forall is_score scores -> (length scores <= 21)%nat ->
  (scores = [] /\ overall_of scores = Ok 0) \/
  (scores <> [] /\
   overall_of scores = Ok (sum_Z scores / Z.of_nat (length scores)) /\
   45 <= sum_Z scores / Z.of_nat (length scores) <= 95).
Proof.
  intros Hs Hlen. destruct scores as [|s0 rest]; [left; split; reflexivity|].
  right. split; [discriminate|].
  destruct (scores_counts _ Hs) as (a & b & c & Hn & Hsum).
  assert (Hpos : (0 < a + b + c <= 21)%nat).
  { rewrite <- Hn. simpl in Hlen |- *. lia. }
  change (overall_of (s0 :: rest))
    with (int_mean (sum_Z (s0 :: rest)) (Z.of_nat (length (s0 :: rest)))).
  rewrite Hsum, Hn. split; [apply int_mean_exact, Hpos|].
  split.
  - apply Z.div_le_lower_bound; lia.
  - apply Z.div_le_upper_bound; lia.
Qed.

Lemma numeric_scores_ok (rs : list metric_result) :
  Forall entry_ok rs ->
  Forall is_score (numeric_scores rs)
  /\ (length (numeric_scores rs) <= length rs)%nat.
Proof.
  induction 1 as [|r rs [Hr _] _ [IH1 IH2]]; simpl; [split; [constructor | lia]|].
  destruct (m_score r) as [sc|] eqn:Hsc; simpl; [|split; [exact IH1 | lia]].
  split; [|lia]. constructor; [|exact IH1].
  destruct Hr as [Hr | [Hr | [Hr | Hr]]]; inversion Hr; unfold is_score; tauto.
Qed.

Lemma Ok_inj {A} (a b : A) : Ok a = Ok b -> a = b.
Proof. intros [= H]. exact H. Qed.

Lemma analysis_bind {A} (E : pyenv) (m : list (string * jvalue)) (r : result A)
    (k : A -> result analysis) :
  (forall e, r = Raise e -> overflow_cause E m e) ->
  (forall x, r = Ok x -> analysis_outcome E m (k x)) ->
  analysis_outcome E m (rbind r k).
Proof.
  intros Hr Hk. destruct r as [x|e]; simpl; [apply Hk | apply Hr]; reflexivity.
Qed.

Lemma safe_float_raise (E : pyenv) (m : list (string * jvalue)) (k : string) (e : exn) :
  safe_float E (dict_get k m) = Raise e -> overflow_cause E m e.
Proof.
  destruct (dict_get k m) as [|b|z|f|s|items|fields] eqn:Hv; simpl; try discriminate.
  - destruct b; intros H; vm_compute in H; discriminate.
  - destruct (float_of_int z) as [f|e'] eqn:Hz; simpl; [discriminate|].
    intros [= <-]. left. exists k, z. split; assumption.
  - destruct (is_empty s); discriminate.
  - destruct (str_of_container E (JArray items)) as [t|e'] eqn:Hs; simpl;
      [discriminate|].
    intros [= <-]. right. exists k. rewrite Hv. split; [reflexivity | exact Hs].
  - destruct (str_of_container E (JObject fields)) as [t|e'] eqn:Hs; simpl;
      [discriminate|].
    intros [= <-]. right. exists k. rewrite Hv. split; [reflexivity | exact Hs].
Qed.

Lemma or0_small (x : option float) : small_num (or0 x).
Proof.
  unfold small_num, or0. destruct x as [f|]; [|left; reflexivity].
  destruct (f_truthy f); [right; eauto | left; reflexivity].
Qed.

Lemma num_add_small (a b : pynum) :
  small_num a -> small_num b -> exists c, num_add a b = Ok c /\ small_num c.
Proof.
  intros [-> | [f ->]] [-> | [g ->]]; simpl; eexists; (split; [reflexivity|]);
    unfold small_num; eauto.
Qed.

Lemma float_truediv_positive (x d : float) :
  f_gt d (S754_zero false) = true -> exists q, float_truediv x d = Ok q.
Proof.
  unfold float_truediv. destruct d; try (intros _; eexists; reflexivity).
  destruct s; vm_compute; discriminate.
Qed.

Lemma num_truediv_small (a : pynum) (d : float) :
  small_num a -> f_gt d (S754_zero false) = true ->
  exists q, num_truediv a (PFloat d) = Ok q.
Proof.
  intros [-> | [f ->]] Hd; simpl; apply float_truediv_positive, Hd.
Qed.

Lemma positive_value_gt (v : float) :
  positive_value (Some v) = true -> f_gt v (S754_zero false) = true.
Proof. unfold positive_value. intros [_ H]%andb_true_iff. exact H. Qed.

Lemma acc_ok_empty : acc_ok 0 {| results := []; tips := [] |}.
Proof. split; [constructor | simpl; lia]. Qed.

Lemma acc_ok_add (n : nat) (name : string) (value : option float) (score : option Z)
    (low_tip : string) (acc : metric_acc) :
  score_value score -> acc_ok n acc ->
  acc_ok (S n) (add_metric name value score low_tip acc).
Proof.
  intros Hs [Hf Hl]. split; [apply add_metric_ok; assumption|].
  rewrite add_metric_length. lia.
Qed.

Lemma acc_ok_weaken (n : nat) (acc : metric_acc) : acc_ok n acc -> acc_ok (S n) acc.
Proof. intros [Hf Hl]. split; [exact Hf | lia]. Qed.

(** Every outcome of the analysis: it returns an analysis whose entries
    have no score (and the rating "No data") or one of 45, 75, 95, and
    whose overall score is [int(sum / len)] of the scores present; or it
    raises because an integer of the object is beyond the float range or
    a list or dict of it has no string. *)
Lemma analyze_metrics_outcome (E : pyenv) (m : list (string * jvalue)) :
  analysis_outcome E m (analyze_metrics E m).
Proof.
  unfold analyze_metrics. cbv zeta.
  do 25 (apply analysis_bind; [apply safe_float_raise | intros ? _; cbv beta]).
  (* engagement rate *)
  apply analysis_bind.
  { intros e He. exfalso. destruct x as [v|]; [|discriminate].
    destruct (positive_value (Some v) && is_none x23) eqn:Hc; [|discriminate].
    apply andb_true_iff in Hc as [Hc _]. apply positive_value_gt in Hc.
    destruct (num_add_small _ _ (or0_small x0) (or0_small x9)) as (t & Ht & Hts).
    rewrite Ht in He. simpl in He.
    destruct (num_add_small _ _ Hts (or0_small x8)) as (t' & Ht' & Hts').
    rewrite Ht' in He. simpl in He.
    destruct (num_truediv_small t' v Hts' Hc) as [q Hq].
    rewrite Hq in He. discriminate. }
  intros engagement_rate _. cbv beta.
  (* subscriber ratio *)
  apply analysis_bind.
  { intros e He. exfalso. destruct x as [v|]; [|discriminate].
    destruct (positive_value (Some v) && is_none x22) eqn:Hc; [|discriminate].
    apply andb_true_iff in Hc as [Hc _]. apply positive_value_gt in Hc.
    destruct (num_truediv_small _ v (or0_small x10) Hc) as [q Hq].
    rewrite Hq in He. discriminate. }
  intros sub_to_view_ratio _. cbv beta.
  (* average percentage viewed *)
  apply analysis_bind.
  { intros e He. destruct x4 as [a|]; [discriminate|].
    destruct x3 as [a|]; [|discriminate].
    destruct (safe_float E (dict_get "duration_seconds" m)) as [duration|e'] eqn:Hd;
      simpl in He.
    - exfalso. destruct duration as [d|]; [|discriminate].
      destruct (positive_value (Some d)) eqn:Hc; [|discriminate].
      apply positive_value_gt in Hc.
      destruct (float_truediv_positive a d Hc) as [q Hq].
      rewrite Hq in He. discriminate.
    - injection He as <-. apply (safe_float_raise E m _ _ Hd). }
  intros apv _. cbv beta.
  match goal with
  | |- analysis_outcome E m (rbind _ (fun acc1 => rbind (@?second acc1) ?k)) =>
      set (K := k); set (Second := second)
  end.
  match goal with
  | |- analysis_outcome E m (rbind (match x with
                                  | Some v => match x5 with
                                              | Some i => if _ then _ else Ok ?acc0
                                              | None => _
                                              end
                                  | None => _
                                  end) _) =>
      set (A0 := acc0) in *;
      assert (H19 : acc_ok 19 A0)
        by (subst A0;
            repeat (apply acc_ok_add;
                    [first [apply score_higher_better_value
                           | apply score_lower_better_value]|]);
            apply acc_ok_empty);
      clearbody A0
  end.
  apply analysis_bind.
  { intros e He. exfalso. destruct x as [v|]; [|discriminate].
    destruct x5 as [i|]; [|discriminate].
    destruct (f_gt i (S754_zero false)) eqn:Hc; [|discriminate].
    destruct (float_truediv_positive v i Hc) as [q Hq].
    rewrite Hq in He. discriminate. }
  intros acc1 Hacc1.
  assert (H20 : acc_ok 20 acc1).
  { destruct x as [v|]; [destruct x5 as [i|]|];
      try (apply Ok_inj in Hacc1; subst acc1; apply acc_ok_weaken, H19).
    destruct (f_gt i (S754_zero false));
      [|apply Ok_inj in Hacc1; subst acc1; apply acc_ok_weaken, H19].
    destruct (float_truediv v i) as [q|]; [|discriminate].
    apply Ok_inj in Hacc1. subst acc1.
    apply acc_ok_add; [apply score_higher_better_value | exact H19]. }
  clear Hacc1 H19. subst Second. cbv beta.
  apply analysis_bind.
  { intros e He. exfalso. destruct x0 as [l|]; [|discriminate].
    destruct x1 as [d|]; [|discriminate].
    destruct (f_gt (fadd l d) (S754_zero false)) eqn:Hc; [|discriminate].
    destruct (float_truediv_positive l _ Hc) as [q Hq].
    rewrite Hq in He. discriminate. }
  intros acc2 Hacc2.
  assert (H21 : acc_ok 21 acc2).
  { destruct x0 as [l|]; [destruct x1 as [d|]|];
      try (apply Ok_inj in Hacc2; subst acc2; apply acc_ok_weaken, H20).
    destruct (f_gt (fadd l d) (S754_zero false));
      [|apply Ok_inj in Hacc2; subst acc2; apply acc_ok_weaken, H20].
    destruct (float_truediv l (fadd l d)) as [q|]; [|discriminate].
    apply Ok_inj in Hacc2. subst acc2.
    apply acc_ok_add; [apply score_higher_better_value | exact H20]. }
  clear Hacc2 H20. subst K. cbv beta.
  destruct H21 as [Hentries Hlen].
  destruct (numeric_scores_ok _ Hentries) as [Hscores Hlen'].
  assert (Hov : exists o, overall_of (numeric_scores (results acc2)) = Ok o).
  { destruct (overall_of_mean _ Hscores ltac:(lia)) as [[_ H] | (_ & H & _)]; eauto. }
  destruct Hov as [o Ho]. rewrite Ho. simpl.
  split; [exact Hentries|]. split; [exact Hlen | exact Ho].
Qed.

(** When the analysis returns, every entry has no score (rated "No data")
    or a score of 45, 75 or 95, and the overall score is the integer mean
    of the scores present, between 45 and 95, or 0 when there is none. *)
Lemma analyze_metrics_scores (E : pyenv) (m : list (string * jvalue)) (r : analysis) :
  analyze_metrics E m = Ok r ->
  Forall entry_ok (metrics r) /\
  ((numeric_scores (metrics r) = [] /\ overall_score r = 0) \/
   (numeric_scores (metrics r) <> [] /\
    overall_score r
    = sum_Z (numeric_scores (metrics r))
      / Z.of_nat (length (numeric_scores (metrics r))) /\
    45 <= overall_score r <= 95)).
Proof.
  intros Hr. pose proof (analyze_metrics_outcome E m) as H. rewrite Hr in H.
  destruct H as (Hentries & Hlen & Hov). split; [exact Hentries|].
  destruct (numeric_scores_ok _ Hentries) as [Hscores Hlen'].
  destruct (overall_of_mean _ Hscores ltac:(lia)) as [[Hnil H] | (Hne & H & Hb)];
    rewrite H in Hov; apply Ok_inj in Hov.
  - left. split; [exact Hnil | symmetry; exact Hov].
  - right. split; [exact Hne|]. rewrite <- Hov. split; [reflexivity | exact Hb].
Qed.

(** The analysis returns whenever every integer of the object can be
    converted to a float and every list and dict of it to a string. *)
Lemma analyze_metrics_returns (E : pyenv) (m : list (string * jvalue)) :
  ints_convertible m -> containers_printable E m ->
  exists r, analyze_metrics E m = Ok r.
Proof.
  intros Hm Hc. pose proof (analyze_metrics_outcome E m) as H.
  destruct (analyze_metrics E m) as [r|e]; [eauto|].
  destruct H as [(k & z & Hk & Hz) | (k & Hk & Hs)].
  - specialize (Hm k z Hk). rewrite Hz in Hm. discriminate.
  - specialize (Hc k Hk). rewrite Hs in Hc. discriminate.
Qed.

(* ===================================================================== *)
(** * Job store: isolation, read after write, composition                 *)
(* ===================================================================== *)

Lemma store_inv_empty : store_inv empty_world.
Proof.
  split; [|split]; simpl; intros *; rewrite lookup_empty; discriminate.
Qed.

Lemma store_inv_bind_job (job_id : string) (d : gmap string jvalue) (w : world) :
  has_fields d -> store_inv w -> store_inv (bind_job job_id d w).
Proof.
  intros Hd (Hf & Hb & Hi). unfold bind_job.
  set (l0 := fresh (dom (heap w))).
  assert (Hfresh : heap w !! l0 = None).
  { apply not_elem_of_dom. apply is_fresh. }
  split; [|split]; simpl.
  - intros l d'. destruct (decide (l0 = l)) as [<- | Hne].
    + rewrite lookup_insert_eq. intros [= <-]. exact Hd.
    + rewrite lookup_insert_ne by exact Hne. apply Hf.
  - intros j l. destruct (decide (job_id = j)) as [<- | Hne].
    + rewrite lookup_insert_eq. intros [= <-]. rewrite lookup_insert_eq. eauto.
    + rewrite lookup_insert_ne by exact Hne. intros Hj.
      destruct (Hb j l Hj) as [d' Hd'].
      rewrite lookup_insert_ne; [eauto|]. intros <-. congruence.
  - intros j j' l.
    destruct (decide (job_id = j)) as [<- | Hne];
      destruct (decide (job_id = j')) as [<- | Hne']; try reflexivity.
    + rewrite lookup_insert_eq, lookup_insert_ne by exact Hne'.
      intros [= <-] Hj'. destruct (Hb j' l0 Hj') as [d' Hd']. congruence.
    + rewrite lookup_insert_eq, lookup_insert_ne by exact Hne.
      intros Hj [= <-]. destruct (Hb j l0 Hj) as [d' Hd']. congruence.
    + rewrite !lookup_insert_ne by assumption. apply Hi.
Qed.

Lemma store_inv_update_job (job_id : string) (kwargs : gmap string jvalue) (w : world) :
  store_inv w -> store_inv (update_job job_id kwargs w).
Proof.
  intros (Hf & Hb & Hi). unfold update_job.
  destruct (jobs w !! job_id) as [l0|]; [|split; [|split]; assumption].
  split; [|split]; simpl.
  - intros l d. destruct (decide (l0 = l)) as [<- | Hne].
    + rewrite lookup_alter_eq.
      destruct (heap w !! l0) as [d0|] eqn:H0; simpl; [|discriminate].
      intros [= <-]. apply dict_update_fields, (Hf l0 d0 H0).
    + rewrite lookup_alter_ne by exact Hne. apply Hf.
  - intros j l Hj. destruct (Hb j l Hj) as [d Hd].
    destruct (decide (l0 = l)) as [<- | Hne].
    + rewrite lookup_alter_eq, Hd. simpl. eauto.
    + rewrite lookup_alter_ne by exact Hne. eauto.
  - exact Hi.
Qed.

Lemma store_inv_start_download (E : pyenv) (json : option jvalue)
    (job_id : string) (now : float) (w : world) :
  store_inv w -> store_inv (snd (start_download E json job_id now w)).
Proof.
  intros Hw. unfold start_download.
  destruct (start_download_checks E json) as [[resp | args] | e]; simpl; try exact Hw.
  destruct args as [[[[[url fmt] quality] sound_on] output_dir] output_name]. simpl.
  apply (store_inv_bind_job job_id _ w (new_job_record_fields now) Hw).
Qed.

Lemma store_inv_social_download (E : pyenv) validator (msg : string)
    (json : option jvalue) (job_id : string) (now : float) (w : world) :
  store_inv w -> store_inv (snd (social_download E validator msg json job_id now w)).
Proof.
  intros Hw. unfold social_download.
  match goal with |- context [match ?c with _ => _ end] => destruct c as [[resp | args] | e] end;
    simpl; try exact Hw.
  destruct args as [[url output_dir] output_name]. simpl.
  apply (store_inv_bind_job job_id _ w (new_job_record_fields now) Hw).
Qed.

Lemma reachable_store_inv (E : pyenv) (w : world) : reachable E w -> store_inv w.
Proof.
  induction 1.
  - apply store_inv_empty.
  - apply store_inv_bind_job; [apply new_job_record_fields | assumption].
  - apply store_inv_start_download; assumption.
  - apply store_inv_social_download; assumption.
  - apply store_inv_social_download; assumption.
  - apply store_inv_update_job; assumption.
Qed.

Lemma job_record_holds (w : world) (job_id : string) (d : gmap string jvalue) :
  store_inv w -> job_record w job_id = Some d ->
  exists l, holds w job_id l d.
Proof.
  intros (_ & Hb & _). unfold job_record, holds, deref.
  destruct (jobs w !! job_id) as [l|] eqn:Hj; [|discriminate].
  destruct (Hb job_id l Hj) as [d' Hd']. rewrite Hd'. simpl.
  intros [= <-]. eauto.
Qed.

(** X1: in every store the program reaches, an update of one job leaves
    the record of every other job as it is, and binds no new id and
    unbinds none. *)
Theorem update_job_touches_one_job (E : pyenv) (w : world)
    (job_id other : string) (kwargs : gmap string jvalue)
    (Hw : reachable E w) (Hne : other <> job_id) :
  job_record (update_job job_id kwargs w) other = job_record w other
  /\ jobs (update_job job_id kwargs w) = jobs w
  /\ spawned (update_job job_id kwargs w) = spawned w.
Proof.
  apply reachable_store_inv in Hw. destruct Hw as (_ & _ & Hi).
  unfold update_job. destruct (jobs w !! job_id) as [l|] eqn:Hj; [|auto].
  split; [|split; reflexivity].
  unfold job_record, deref. simpl.
  destruct (jobs w !! other) as [l'|] eqn:Hj'; [|reflexivity].
  rewrite lookup_alter_ne; [reflexivity|].
  intros <-. apply Hne. exact (Hi other job_id l Hj' Hj).
Qed.

(** X1 at two jobs created one after the other. *)
Lemma update_job_touches_one_job_witness :
  job_record (update_job "j2" (kw_progress 50) (create_job "j2" zero w_j1)) "j1"
  = job_record (create_job "j2" zero w_j1) "j1".
Proof.
  apply (update_job_touches_one_job E0 (create_job "j2" zero w_j1) "j2" "j1"
           (kw_progress 50)).
  - apply reach_create_job, reach_create_job, reach_empty.
  - discriminate.
Defined.

(** X2: in every store the program reaches, reading a job after an update
    gives the updated record: each field of the update has its new value
    and every other field the value it had. *)
Theorem job_record_after_update (E : pyenv) (w : world) (job_id : string)
    (kwargs d : gmap string jvalue)
    (Hw : reachable E w) (Hd : job_record w job_id = Some d) :
  exists d',
    job_record (update_job job_id kwargs w) job_id = Some d' /\
    (forall k v, kwargs !! k = Some v -> d' !! k = Some v) /\
    (forall k, kwargs !! k = None -> d' !! k = d !! k).
Proof.
  apply reachable_store_inv in Hw.
  destruct (job_record_holds w job_id d Hw Hd) as [l Hl].
  exists (dict_update kwargs d). split; [|split].
  - apply holds_record with l, holds_update, Hl.
  - intros k v Hk. unfold dict_update. apply lookup_union_Some_l, Hk.
  - intros k Hk. unfold dict_update. apply lookup_union_r, Hk.
Qed.

(** X2 at a progress update of a new job. *)
Lemma job_record_after_update_witness :
  exists d',
    job_record (update_job "j1" (kw_progress 50) w_j1) "j1" = Some d' /\
    (forall k v, kw_progress 50 !! k = Some v -> d' !! k = Some v) /\
    (forall k, kw_progress 50 !! k = None -> d' !! k = new_job_record zero !! k).
Proof.
  apply (job_record_after_update E0 w_j1 "j1" (kw_progress 50) (new_job_record zero)).
  - apply reach_create_job, reach_empty.
  - reflexivity.
Defined.

(** X3: two updates of a job in a row amount to one update with the
    merged fields, the later update winning; so an update applied twice
    is the update applied once. *)
Theorem update_job_composes (w : world) (job_id : string)
    (kw1 kw2 : gmap string jvalue) :
  update_job job_id kw2 (update_job job_id kw1 w)
  = update_job job_id (kw2 ∪ kw1) w
  /\ update_job job_id kw1 (update_job job_id kw1 w) = update_job job_id kw1 w.
Proof.
  assert (H : forall a b,
             update_job job_id b (update_job job_id a w)
             = update_job job_id (b ∪ a) w).
  { intros a b. unfold update_job.
    destruct (jobs w !! job_id) as [l|] eqn:Hj; simpl; rewrite Hj; [|reflexivity].
    f_equal. apply map_eq. intros k.
    destruct (decide (l = k)) as [<- | Hne].
    + rewrite !lookup_alter_eq. destruct (heap w !! l); simpl; [|reflexivity].
      unfold dict_update. rewrite (assoc_L (∪)). reflexivity.
    + rewrite !lookup_alter_ne by exact Hne. reflexivity. }
  split; [apply H|]. rewrite H. rewrite (idemp_L (∪)). reflexivity.
Qed.



(* ===================================================================== *)
(** * Polling under concurrent updates                                    *)
(* ===================================================================== *)

Lemma has_fields_lookup (d : gmap string jvalue) (k : string) :
  has_fields d -> In k job_fields -> exists v, getitem d k = Ok v.
Proof.
  intros Hd Hk. destruct (Hd k Hk) as [v Hv]. exists v.
  unfold getitem. rewrite Hv. reflexivity.
Qed.

Lemma deref_fields (w : world) (l : nat) :
  store_inv w -> is_Some (heap w !! l) ->
  has_fields (deref w l) /\ deref w l <> ∅.
Proof.
  intros (Hf & _) [d Hd]. unfold deref. rewrite Hd. simpl.
  pose proof (Hf l d Hd) as Hfd. split; [exact Hfd|].
  intros ->. destruct (Hfd "status") as [v Hv]; [simpl; tauto|].
  rewrite lookup_empty in Hv. discriminate.
Qed.

(** One access of the handler keeps its state fitting the store and
    brings it closer to its answer. *)
Lemma gp_step_ok (job_id : string) (w : world) (st : gp_state) :
  store_inv w -> gp_ok w st ->
  gp_ok w (gp_step job_id w st)
  /\ (gp_remaining (gp_step job_id w st) <= gp_remaining st - 1)%nat.
Proof.
  intros Hw Hst. pose proof Hw as (_ & Hb & _).
  destruct st as [|[l|]|l payload|l payload|r]; simpl in Hst |- *.
  - split; [|lia]. intros l Hl. apply (Hb job_id l Hl).
  - destruct (deref_fields w l Hw (Hst l eq_refl)) as [_ Hne].
    destruct (decide (deref w l = ∅)); [contradiction|]. simpl.
    split; [|lia]. split; [apply Hst; reflexivity | lia].
  - split; [|lia]. eexists. split; [reflexivity|]. right. reflexivity.
  - destruct Hst as [Hl Hlen].
    destruct (deref_fields w l Hw Hl) as [Hf _].
    destruct (has_fields_lookup _ "status" Hf) as [vs Hs]; [simpl; tauto|].
    destruct (has_fields_lookup _ "progress" Hf) as [vp Hp]; [simpl; tauto|].
    destruct (has_fields_lookup _ "error" Hf) as [ve He]; [simpl; tauto|].
    destruct payload as [|a [|b [|c [|x payload]]]]; simpl in Hlen |- *;
      try lia; rewrite ?Hs, ?Hp, ?He; simpl.
    + split; [split; [exact Hl | lia] | lia].
    + split; [split; [exact Hl | lia] | lia].
    + split; [split; [exact Hl | lia] | lia].
    + destruct (jstr_eqb vs "completed"); simpl.
      * split; [split; [exact Hl | simpl; lia] | lia].
      * split; [|lia]. eexists. split; [reflexivity|]. left. reflexivity.
  - destruct Hst as [Hl Hlen].
    destruct (deref_fields w l Hw Hl) as [Hf _].
    destruct (has_fields_lookup _ "file_name" Hf) as [vn Hn]; [simpl; tauto|].
    destruct (has_fields_lookup _ "file_path" Hf) as [vp Hp]; [simpl; tauto|].
    destruct (has_fields_lookup _ "saved_dir" Hf) as [vd Hd]; [simpl; tauto|].
    destruct payload as [|a [|b [|c [|x [|y [|z [|u payload]]]]]]];
      simpl in Hlen |- *; try lia; rewrite ?Hn, ?Hp, ?Hd; simpl.
    + split; [split; [exact Hl | simpl; lia] | lia].
    + split; [split; [exact Hl | simpl; lia] | lia].
    + split; [|lia]. eexists. split; [reflexivity|]. left. reflexivity.
  - split; [exact Hst | lia].
Qed.

Lemma heap_grows_update (job_id : string) (kwargs : gmap string jvalue)
    (w : world) (l : nat) :
  is_Some (heap w !! l) -> is_Some (heap (update_job job_id kwargs w) !! l).
Proof.
  intros [d Hd]. unfold update_job. destruct (jobs w !! job_id) as [l0|]; [|eauto].
  simpl. destruct (decide (l0 = l)) as [<- | Hne].
  - rewrite lookup_alter_eq, Hd. simpl. eauto.
  - rewrite lookup_alter_ne by exact Hne. eauto.
Qed.

Lemma heap_grows_create (job_id : string) (now : float) (w : world) (l : nat) :
  is_Some (heap w !! l) -> is_Some (heap (create_job job_id now w) !! l).
Proof.
  intros [d Hd]. unfold create_job, bind_job. simpl.
  destruct (decide (fresh (dom (heap w)) = l)) as [<- | Hne].
  - rewrite lookup_insert_eq. eauto.
  - rewrite lookup_insert_ne by exact Hne. eauto.
Qed.

Lemma gp_ok_grows (w w' : world) (st : gp_state) :
  (forall l, is_Some (heap w !! l) -> is_Some (heap w' !! l)) ->
  gp_ok w st -> gp_ok w' st.
Proof.
  intros Hg. destruct st as [|job|l p|l p|r]; simpl.
  - trivial.
  - intros H l Hl. apply Hg, H, Hl.
  - intros [H1 H2]. split; [apply Hg, H1 | exact H2].
  - intros [H1 H2]. split; [apply Hg, H1 | exact H2].
  - trivial.
Qed.

Lemma run_schedule_ok (job_id : string) (sched : list action) :
  forall st w, store_inv w -> gp_ok w st ->
    store_inv (snd (run_schedule job_id sched (st, w)))
    /\ gp_ok (snd (run_schedule job_id sched (st, w)))
             (fst (run_schedule job_id sched (st, w)))
    /\ (gp_remaining (fst (run_schedule job_id sched (st, w)))
        <= gp_remaining st - handler_steps sched)%nat.
Proof.
  unfold run_schedule, handler_steps.
  induction sched as [|a sched IH]; intros st w Hw Hst; simpl.
  - split; [exact Hw|]. split; [exact Hst | lia].
  - destruct a as [|j kw|j now]; simpl.
    + destruct (gp_step_ok job_id w st Hw Hst) as [Hst' Hrem].
      destruct (IH _ w Hw Hst') as (H1 & H2 & H3).
      split; [exact H1|]. split; [exact H2|]. lia.
    + apply IH; [apply store_inv_update_job, Hw|].
      eapply gp_ok_grows; [|exact Hst]. intros l. apply heap_grows_update.
    + apply IH; [apply store_inv_bind_job; [apply new_job_record_fields | exact Hw]|].
      eapply gp_ok_grows; [|exact Hst]. intros l. apply heap_grows_create.
Qed.

(** X5: in every store the program reaches, and whatever other threads
    update or create between its accesses, [get_progress] never raises;
    once it has made its nine accesses it has answered, with 200 or with
    404 "Job not found."; run on its own it answers 200 for a job id
    that is bound and 404 for one that is not. *)
Theorem get_progress_never_raises (E : pyenv) (w : world) (job_id : string)
    (Hw : reachable E w) :
  (forall sched e,
      fst (run_schedule job_id sched (GpStart, w)) <> GpDone (Raise e)) /\
  (forall sched, (9 <= handler_steps sched)%nat ->
      exists resp,
        fst (run_schedule job_id sched (GpStart, w)) = GpDone (Ok resp) /\
        (status_code resp = 200 \/ resp = error_response 404 "Job not found.")) /\
  (forall d, job_record w job_id = Some d ->
      exists resp, get_progress job_id w = GpDone (Ok resp)
                   /\ status_code resp = 200) /\
  (jobs w !! job_id = None ->
      get_progress job_id w = GpDone (Ok (error_response 404 "Job not found."))).
Proof.
  apply reachable_store_inv in Hw.
  assert (Hrun : forall sched,
             gp_ok (snd (run_schedule job_id sched (GpStart, w)))
                   (fst (run_schedule job_id sched (GpStart, w)))
             /\ (gp_remaining (fst (run_schedule job_id sched (GpStart, w)))
                 <= 9 - handler_steps sched)%nat).
  { intros sched. destruct (run_schedule_ok job_id sched GpStart w Hw I) as (_ & H2 & H3).
    split; assumption. }
  split; [|split; [|split]].
  - intros sched e He. destruct (Hrun sched) as [Hok _]. rewrite He in Hok.
    destruct Hok as (resp & Hr & _). discriminate.
  - intros sched Hn. destruct (Hrun sched) as [Hok Hrem].
    destruct (fst (run_schedule job_id sched (GpStart, w))) as [|job|l p|l p|r];
      simpl in Hrem, Hok; try lia; try (destruct Hok as [_ Hlen]; lia).
    destruct Hok as (resp & -> & Hresp). eauto.
  - intros d Hd. destruct (job_record_holds w job_id d Hw Hd) as [l Hl].
    assert (Hf : has_fields d) by (destruct Hw as (Hf & _); apply (Hf l), Hl).
    destruct (Hf "status") as [s Hs]; [simpl; tauto|].
    destruct (Hf "progress") as [p Hp]; [simpl; tauto|].
    destruct (Hf "error") as [e He]; [simpl; tauto|].
    destruct (Hf "file_name") as [n Hn]; [simpl; tauto|].
    destruct (Hf "file_path") as [pa Hpa]; [simpl; tauto|].
    destruct (Hf "saved_dir") as [sd Hsd]; [simpl; tauto|].
    destruct (jstr_eqb s "completed") eqn:Hc.
    + eexists. split;
        [exact (get_progress_full job_id w l d s p e n pa sd Hl Hs Hp He Hn Hpa Hsd Hc)
        | reflexivity].
    + eexists. split;
        [exact (get_progress_short job_id w l d s p e Hl Hs Hp He Hc) | reflexivity].
  - intros Hnone. unfold get_progress, run_schedule. simpl. rewrite Hnone. reflexivity.
Qed.

(** X5 at the torn schedule: the answer is wrong, but it is an answer. *)
Lemma get_progress_never_raises_witness :
  exists resp,
    fst (run_schedule "j1" torn_schedule (GpStart, w_j1)) = GpDone (Ok resp) /\
    (status_code resp = 200 \/ resp = error_response 404 "Job not found.").
Proof.
  pose proof (get_progress_never_raises E0 w_j1 "j1"
                (reach_create_job E0 _ "j1" zero (reach_empty E0))) as (_ & H & _).
  apply (H torn_schedule). vm_compute. lia.
Defined.



(* ===================================================================== *)
(** * Format policy: what it rejects                                      *)
(* ===================================================================== *)

Lemma assoc_quality (quality : string) :
  (supported_quality quality /\ exists h, assoc quality quality_map = Some h)
  \/ (~ supported_quality quality /\ assoc quality quality_map = None).
Proof.
  unfold supported_quality, quality_map, assoc.
  destruct (String.eqb_spec quality "360p") as [-> | H1]; [left; eauto|].
  destruct (String.eqb_spec quality "720p") as [-> | H2]; [left; eauto|].
  destruct (String.eqb_spec quality "1080p60") as [-> | H3]; [left; eauto 6|].
  right. split; [|reflexivity]. intros [H | [H | H]]; contradiction.
Qed.

Lemma unsupported_quality_raises (fmt quality : string) (sound_on : bool) :
  ~ supported_quality quality ->
  get_format_selector fmt quality sound_on = Raise (ValueError "Unsupported quality").
Proof.
  intros Hn. unfold get_format_selector.
  destruct (assoc_quality quality) as [[Hs _] | [_ ->]]; [contradiction | reflexivity].
Qed.

Lemma unsupported_format_raises (fmt quality : string) (sound_on : bool) :
  supported_quality quality -> ~ supported_format fmt ->
  get_format_selector fmt quality sound_on = Raise (ValueError "Unsupported format").
Proof.
  intros Hs Hn. unfold get_format_selector.
  destruct (assoc_quality quality) as [[_ [h ->]] | [Hn' _]]; [|contradiction].
  destruct (String.eqb_spec fmt "mp3") as [-> | H1];
    [exfalso; apply Hn; left; reflexivity|].
  destruct (String.eqb_spec fmt "mp4") as [-> | H2];
    [exfalso; apply Hn; right; reflexivity|].
  reflexivity.
Qed.

Lemma supported_selector_returns (fmt quality : string) (sound_on : bool) :
  supported_quality quality -> supported_format fmt ->
  returns (get_format_selector fmt quality sound_on) = true.
Proof.
  intros Hs [-> | ->].
  - rewrite (get_format_selector_mp3 quality sound_on Hs). reflexivity.
  - destruct (get_format_selector_nonempty "mp4" quality sound_on) as (e & -> & _);
      [left; reflexivity | exact Hs | reflexivity].
Qed.

Lemma selector_returns_supported (fmt quality : string) (sound_on : bool) :
  returns (get_format_selector fmt quality sound_on) = true ->
  supported_quality quality.
Proof.
  intros Hr. destruct (assoc_quality quality) as [[Hs _] | [Hn _]]; [exact Hs|].
  rewrite (unsupported_quality_raises fmt quality sound_on Hn) in Hr. discriminate.
Qed.

(** X7: [get_format_selector] returns exactly for a supported quality
    with a supported format.  An unsupported quality is reported first,
    whatever the format; an unsupported format is reported for a
    supported quality. *)
Theorem get_format_selector_rejections (fmt quality : string) (sound_on : bool) :
  (returns (get_format_selector fmt quality sound_on) = true
   <-> supported_quality quality /\ supported_format fmt) /\
  (~ supported_quality quality ->
   get_format_selector fmt quality sound_on
   = Raise (ValueError "Unsupported quality")) /\
  (supported_quality quality -> ~ supported_format fmt ->
   get_format_selector fmt quality sound_on
   = Raise (ValueError "Unsupported format")).
Proof.
  split; [|split;
           [apply unsupported_quality_raises | apply unsupported_format_raises]].
  split.
  - intros Hr. pose proof (selector_returns_supported fmt quality sound_on Hr) as Hs.
    split; [exact Hs|].
    destruct (String.eqb_spec fmt "mp3") as [-> | H1]; [left; reflexivity|].
    destruct (String.eqb_spec fmt "mp4") as [-> | H2]; [right; reflexivity|].
    rewrite unsupported_format_raises in Hr; [discriminate | exact Hs |].
    intros [H | H]; contradiction.
  - intros [Hs Hf]. exact (supported_selector_returns fmt quality sound_on Hs Hf).
Qed.

(** X7 at a quality the policy does not know, asked for mp3. *)
Lemma get_format_selector_rejections_witness :
  get_format_selector "mp3" "480p" true = Raise (ValueError "Unsupported quality").
Proof.
  pose proof (get_format_selector_rejections "mp3" "480p" true) as (_ & H & _).
  apply H. intros [H1 | [H1 | H1]]; discriminate.
Defined.

(** X8: with the sound off, the expression for mp4 asks for video-only
    streams: it mentions no audio stream and no pre-merged [best] format;
    with the sound on it asks for an audio stream to merge. *)
Theorem mp4_selector_audio (quality expr : string) (sound_on : bool)
    (He : get_format_selector "mp4" quality sound_on = Ok expr) :
  (sound_on = false ->
     contains "audio" expr = false /\ contains "/best[" expr = false
     /\ startswith expr "bestvideo[" = true) /\
  (sound_on = true -> contains "+bestaudio" expr = true).
Proof.
  assert (Hs : supported_quality quality).
  { apply (selector_returns_supported "mp4" quality sound_on).
    rewrite He. reflexivity. }
  destruct Hs as [-> | [-> | ->]]; destruct sound_on; simpl in He;
    injection He as <-; split; intros Hb; try discriminate;
    vm_compute; repeat split; reflexivity.
Qed.

(** X8 at 720p without sound. *)
Lemma mp4_selector_audio_witness :
  contains "audio" "bestvideo[ext=mp4][height<=720]/bestvideo[height<=720]" = false.
Proof.
  pose proof (mp4_selector_audio "720p" _ false eq_refl) as [H _].
  destruct (H eq_refl) as [Ha _]. exact Ha.
Defined.

(* ===================================================================== *)
(** * Job runner: how it ends                                             *)
(* ===================================================================== *)

(** X9: a runner that fails before the download makes one call, the
    error, and the downloader has no part in it: an unsupported quality
    or format gives the policy's message, and a folder that cannot be
    created gives "Cannot create download folder: " and the cause. *)
Theorem runner_fails_before_download
    (E : pyenv) (X : runner_env) (job_id url fmt quality : string)
    (sound_on : bool) (output_dir output_name : option string) :
  (~ supported_quality quality ->
   run_download_job E X job_id url fmt quality sound_on output_dir output_name
   = [kw_error "Unsupported quality"]) /\
  (supported_quality quality -> ~ supported_format fmt ->
   run_download_job E X job_id url fmt quality sound_on output_dir output_name
   = [kw_error "Unsupported format"]) /\
  (forall dir exc,
      supported_quality quality -> supported_format fmt ->
      target_dir_of E X output_dir = Ok dir -> mkdir X dir = Some exc ->
      run_download_job E X job_id url fmt quality sound_on output_dir output_name
      = [kw_error ("Cannot create download folder: " +:+ exc)]) /\
  (forall dir exc,
      target_dir_of E X output_dir = Ok dir -> mkdir X dir = Some exc ->
      run_social_download_job E X job_id url output_dir output_name
      = [kw_error ("Cannot create download folder: " +:+ exc)]).
Proof.
  split; [|split; [|split]].
  - intros Hn. unfold run_download_job.
    rewrite (unsupported_quality_raises fmt quality sound_on Hn). reflexivity.
  - intros Hs Hn. unfold run_download_job.
    rewrite (unsupported_format_raises fmt quality sound_on Hs Hn). reflexivity.
  - intros dir exc Hs Hfm Hdir Hmk. unfold run_download_job.
    pose proof (supported_selector_returns fmt quality sound_on Hs Hfm) as Hok.
    destruct (get_format_selector fmt quality sound_on) as [sel|e] eqn:Hsel.
    + rewrite Hdir, Hmk. reflexivity.
    + discriminate.
  - intros dir exc Hdir Hmk. unfold run_social_download_job.
    rewrite Hdir, Hmk. reflexivity.
Qed.

(** X9 at a quality the policy does not know. *)
Lemma runner_fails_before_download_witness :
  run_download_job E0 X0 "j1" "https://youtu.be/x" "mp4" "480p" true None None
  = [kw_error "Unsupported quality"].
Proof.
  pose proof (runner_fails_before_download E0 X0 "j1" "https://youtu.be/x" "mp4"
                "480p" true None None) as (H & _).
  apply H. intros [H1 | [H1 | H1]]; discriminate.
Defined.









Lemma locate_output_exists (fs : filesystem) (info : info_dict) (fmt : string)
    (dir : ppath) (safe_name : string) (p : ppath) :
  locate_output fs info fmt dir safe_name = Ok p -> path_exists fs p = true.
Proof.
  unfold locate_output.
  destruct (resolve_output_path info fmt dir (Some safe_name)) as [p0|]; [|discriminate].
  simpl.
  match goal with
  | |- (if negb (path_exists fs ?q) then _ else _) = _ -> _ =>
      destruct (path_exists fs q) eqn:Hq; simpl
  end; [intros [= <-]; exact Hq | discriminate].
Qed.

(** The last call of the [try] block sets [completed] only for a file
    that exists. *)
Lemma finish_completed_exists
    (age_gate : bool) (run : download_run) (fmt : string) (target_dir : ppath)
    (safe_name : string) (kw : gmap string jvalue)
    (Hin : In kw (download_and_finish age_gate run fmt target_dir safe_name))
    (Hst : kw !! "status" = Some (JStr "completed")) :
  exists info fs p,
    ending run = Finished (Some info) fs /\
    locate_output fs info fmt target_dir safe_name = Ok p /\
    path_exists fs p = true /\
    kw = kw_completed p /\
    kw !! "file_path" = Some (JStr (path_str p)) /\
    kw !! "file_name" = Some (JStr (p_name p)) /\
    kw !! "saved_dir" = Some (JStr (path_str (p_parent p))) /\
    kw !! "progress" = Some (JInt 100).
Proof.
  unfold download_and_finish in Hin.
  pose proof (run_hooks_range (events run)) as Hh.
  destruct (run_hooks (events run)) as [us raised]. simpl in Hh.
  apply in_app_or in Hin as [Hin | [<- | []]].
  { rewrite Forall_forall in Hh. apply list_elem_of_In in Hin.
    destruct (Hh kw Hin) as (q & -> & _). discriminate. }
  assert (Herr : forall msg, kw_error msg !! "status" = Some (JStr "completed") -> False)
    by (intros msg; discriminate).
  destruct raised as [e|]; [|destruct (ending run) as [[info|] fs | e] eqn:Hend].
  - exfalso. destruct e; try (eapply Herr; exact Hst).
    destruct (age_gate && _); eapply Herr; exact Hst.
  - destruct (locate_output fs info fmt target_dir safe_name) as [p|e] eqn:Hloc.
    + exists info, fs, p. split; [reflexivity|]. split; [exact Hloc|].
      split; [exact (locate_output_exists _ _ _ _ _ _ Hloc)|].
      repeat split; reflexivity.
    + exfalso. eapply Herr; exact Hst.
  - exfalso. eapply Herr; exact Hst.
  - exfalso. destruct e; try (eapply Herr; exact Hst).
    destruct (age_gate && _); eapply Herr; exact Hst.
Qed.

(** X11: a runner reports [completed] only for a file that exists: a
    call that sets the status [completed] comes from a download that
    returned metadata, and names a path that exists in the file system
    the download left, with [file_name] its name, [saved_dir] its parent
    and progress 100. *)
Theorem completed_names_an_existing_file
    (E : pyenv) (X : runner_env) (job_id url fmt quality : string)
    (sound_on : bool) (output_dir output_name : option string)
    (kw : gmap string jvalue)
    (Hin : In kw (run_download_job E X job_id url fmt quality sound_on
                    output_dir output_name)
           \/ In kw (run_social_download_job E X job_id url output_dir output_name))
    (Hst : kw !! "status" = Some (JStr "completed")) :
  exists opts info fs p,
    ending (extract_info X opts url) = Finished (Some info) fs /\
    path_exists fs p = true /\
    kw = kw_completed p /\
    kw !! "file_path" = Some (JStr (path_str p)) /\
    kw !! "file_name" = Some (JStr (p_name p)) /\
    kw !! "saved_dir" = Some (JStr (path_str (p_parent p))) /\
    kw !! "progress" = Some (JInt 100).
Proof.
  assert (Herr : forall msg, In kw [kw_error msg] -> False).
  { intros msg [<- | []]. discriminate. }
  destruct Hin as [Hin | Hin].
  - unfold run_download_job in Hin.
    destruct (get_format_selector fmt quality sound_on) as [sel|e].
    + destruct (target_dir_of E X output_dir) as [dir|e]; [|destruct Hin].
      destruct (mkdir X dir) as [exc|]; [exfalso; exact (Herr _ Hin)|].
      destruct (detect_ffmpeg_bin_dir X) as [ffmpeg_bin_dir|e]; [|destruct Hin].
      destruct (finish_completed_exists _ _ _ _ _ _ Hin Hst)
        as (info & fs & p & H1 & _ & H3 & H4 & H5).
      eexists _, info, fs, p. split; [exact H1|]. split; [exact H3|]. exact (conj H4 H5).
    + destruct e; simpl in Hin; try contradiction. exfalso. exact (Herr _ Hin).
  - unfold run_social_download_job in Hin.
    destruct (target_dir_of E X output_dir) as [dir|e]; [|destruct Hin].
    destruct (mkdir X dir) as [exc|]; [exfalso; exact (Herr _ Hin)|].
    destruct (detect_ffmpeg_bin_dir X) as [ffmpeg_bin_dir|e]; [|destruct Hin].
    destruct (finish_completed_exists _ _ _ _ _ _ Hin Hst)
      as (info & fs & p & H1 & _ & H3 & H4 & H5).
    eexists _, info, fs, p. split; [exact H1|]. split; [exact H3|]. exact (conj H4 H5).
Qed.

(** X11 at the plain download. *)
Lemma completed_names_an_existing_file_witness :
  exists opts info fs p,
    ending (extract_info X0 opts "https://youtu.be/x") = Finished (Some info) fs /\
    path_exists fs p = true /\
    kw_completed j1_file = kw_completed p.
Proof.
  destruct (completed_names_an_existing_file E0 X0 "j1" "https://youtu.be/x" "mp4"
              "720p" true None None (kw_completed j1_file))
    as (opts & info & fs & p & H1 & H2 & H3 & _).
  - left. vm_compute. right. right. left. reflexivity.
  - reflexivity.
  - exists opts, info, fs, p. auto.
Defined.

(* ===================================================================== *)
(** * Job creation: what reaches the runner                               *)
(* ===================================================================== *)

Lemma rbind_Ok {A B} (r : result A) (k : A -> result B) (b : B) :
  rbind r k = Ok b -> exists a, r = Ok a /\ k a = Ok b.
Proof. destruct r as [a|e]; simpl; [eauto | discriminate]. Qed.

Lemma str_in_two (x a b : string) :
  str_in x [a; b] = true -> x = a \/ x = b.
Proof.
  unfold str_in. simpl. rewrite orb_false_r.
  intros [H | H]%orb_true_iff; apply String.eqb_eq in H; auto.
Qed.

Lemma str_in_three (x a b c : string) :
  str_in x [a; b; c] = true -> x = a \/ x = b \/ x = c.
Proof.
  unfold str_in. simpl. rewrite orb_false_r.
  intros [H | [H | H]%orb_true_iff]%orb_true_iff; apply String.eqb_eq in H; auto.
Qed.

(** The settings that [output_settings] lets through: the folder is the
    expansion of the raw folder, and the name is the sanitized raw name. *)
Lemma output_settings_accept (E : pyenv) (dir_raw name_raw : string)
    (output_dir output_name : option string) :
  output_settings E dir_raw name_raw = inr (output_dir, output_name) ->
  (forall d, output_dir = Some d -> expanduser E dir_raw = Ok d) /\
  (forall n, output_name = Some n ->
     sanitize_file_basename (Some name_raw) = Some n /\ sanitized n).
Proof.
  unfold output_settings. intros H.
  assert (Hname : forall od,
    (if str_truthy name_raw
     then match sanitize_file_basename (Some name_raw) with
          | Some n => if str_truthy n then inr (od, Some n)
                      else inl "Invalid output file name."
          | None => inl "Invalid output file name."
          end
     else inr (od, None))
    = (inr (output_dir, output_name) : string + (option string * option string)) ->
    od = output_dir /\
    forall n, output_name = Some n ->
      sanitize_file_basename (Some name_raw) = Some n /\ sanitized n).
  { intros od H'. destruct (str_truthy name_raw).
    - destruct (sanitize_file_basename (Some name_raw)) as [n|] eqn:Hs; [|discriminate].
      destruct (str_truthy n); [|discriminate]. injection H' as <- <-.
      split; [reflexivity|]. intros n' Hn. injection Hn as <-.
      split; [reflexivity | exact (sanitize_sanitized _ _ Hs)].
    - injection H' as <- <-. split; [reflexivity | discriminate]. }
  destruct (str_truthy dir_raw).
  - destruct (expanduser E dir_raw) as [d|e]; [|discriminate].
    apply Hname in H as [<- Hn]. split; [|exact Hn].
    intros d' Hd. injection Hd as <-. reflexivity.
  - apply Hname in H as [<- Hn]. split; [discriminate | exact Hn].
Qed.

Lemma start_download_checks_accept (E : pyenv) (json : option jvalue)
    (url fmt quality : string) (sound_on : bool)
    (output_dir output_name : option string) :
  start_download_checks E json
  = Ok (inr (url, fmt, quality, sound_on, output_dir, output_name)) ->
  is_valid_youtube_url E url = Ok true /\
  supported_format fmt /\ supported_quality quality /\
  ~ (fmt = "mp3" /\ sound_on = false) /\
  (forall n, output_name = Some n -> sanitized n).
Proof.
  unfold start_download_checks. intros H.
  repeat (apply rbind_Ok in H as (? & ? & H)).
  repeat match type of H with
         | (if negb ?b then _ else _) = _ =>
             destruct b eqn:?; cbn [negb] in H; [|discriminate]
         end.
  match type of H with
  | (if ?b then _ else _) = _ => destruct b eqn:Hs; [discriminate|]
  end.
  destruct (output_settings E _ _) as [err | [od on]] eqn:Ho; [discriminate|].
  injection H as <- <- <- <- <- <-.
  match goal with
  | Hf : str_in _ ["mp4"; "mp3"] = true,
    Hq : str_in _ ["360p"; "720p"; "1080p60"] = true |- _ =>
      apply str_in_two in Hf; apply str_in_three in Hq;
      split; [assumption|]; split; [unfold supported_format; tauto|];
      split; [exact Hq|]
  end.
  split.
  - intros [Hm ->]. rewrite Hm in Hs. discriminate.
  - intros n Hn. destruct (output_settings_accept _ _ _ _ _ Ho) as (_ & Hsan).
    apply (Hsan n Hn).
Qed.

(** X12: a request that [start_download] accepts starts exactly one
    thread, for the new job, and its arguments have passed every check:
    the URL is a valid YouTube URL, [get_format_selector] returns an
    expression for the format, quality and sound flag (so the runner's
    policy step cannot fail), mp3 does not come with the sound off, and a
    given output name is sanitized. *)
Theorem start_download_starts_a_validated_job
    (E : pyenv) (json : option jvalue) (job_id : string) (now : float)
    (w : world) (resp : response)
    (Hresp : fst (start_download E json job_id now w) = Ok resp)
    (Hcode : status_code resp = 200) :
  exists url fmt quality sound_on output_dir output_name,
    spawned (snd (start_download E json job_id now w))
    = spawned w ++ [run_download_job_thread job_id url fmt quality sound_on
                      output_dir output_name] /\
    is_valid_youtube_url E url = Ok true /\
    (exists expr, get_format_selector fmt quality sound_on = Ok expr
                  /\ expr <> EmptyString) /\
    ~ (fmt = "mp3" /\ sound_on = false) /\
    (forall n, output_name = Some n -> sanitized n).
Proof.
  unfold start_download in *.
  destruct (start_download_checks E json) as [[r | args] | e] eqn:Hc;
    simpl in Hresp; try discriminate.
  - injection Hresp as <-. exfalso.
    unfold start_download_checks in Hc.
    repeat (apply rbind_Ok in Hc as (? & ? & Hc)).
    repeat match type of Hc with
           | (if ?b then _ else _) = _ =>
               destruct b; [injection Hc as <-; discriminate|]
           end.
    destruct (output_settings E _ _) as [err | [od on]]; [|discriminate].
    injection Hc as <-. discriminate.
  - destruct args as [[[[[url fmt] quality] sound_on] output_dir] output_name].
    destruct (start_download_checks_accept _ _ _ _ _ _ _ _ Hc)
      as (Hv & Hf & Hq & Hs & Hn).
    exists url, fmt, quality, sound_on, output_dir, output_name.
    split; [reflexivity|]. split; [exact Hv|]. split; [|split; assumption].
    apply get_format_selector_nonempty; [|exact Hq].
    destruct Hf as [-> | ->]; auto.
Qed.

(** X12 at a request with a file name to clean. *)
Lemma start_download_starts_a_validated_job_witness :
  exists url fmt quality sound_on output_dir output_name,
    spawned (snd (start_download E0
       (Some (JObject [("url", JStr "https://youtu.be/abc123");
                       ("output_name", JStr "my clip?.mp4")]))
       "j9" zero empty_world))
    = [] ++ [run_download_job_thread "j9" url fmt quality sound_on
               output_dir output_name] /\
    is_valid_youtube_url E0 url = Ok true /\
    (exists expr, get_format_selector fmt quality sound_on = Ok expr
                  /\ expr <> EmptyString) /\
    ~ (fmt = "mp3" /\ sound_on = false) /\
    (forall n, output_name = Some n -> sanitized n).
Proof.
  apply (start_download_starts_a_validated_job E0 _ "j9" zero empty_world
           {| status_code := 200; body := [("job_id", JStr "j9")] |});
    reflexivity.
Defined.

(** X13: a request that [download_tiktok] or [download_instagram]
    accepts starts exactly one thread, for the new job, with a URL that
    the platform's validator accepts and, if a name was given, a
    sanitized output name. *)
Theorem social_download_starts_a_validated_job
    (E : pyenv) (json : option jvalue) (job_id : string) (now : float)
    (w : world) (resp : response) :
  (fst (download_tiktok E json job_id now w) = Ok resp ->
   status_code resp = 200 ->
   exists url output_dir output_name,
     spawned (snd (download_tiktok E json job_id now w))
     = spawned w ++ [run_social_download_job_thread job_id url output_dir output_name]
     /\ is_valid_tiktok_url E url = Ok true
     /\ (forall n, output_name = Some n -> sanitized n)) /\
  (fst (download_instagram E json job_id now w) = Ok resp ->
   status_code resp = 200 ->
   exists url output_dir output_name,
     spawned (snd (download_instagram E json job_id now w))
     = spawned w ++ [run_social_download_job_thread job_id url output_dir output_name]
     /\ is_valid_instagram_url E url = Ok true
     /\ (forall n, output_name = Some n -> sanitized n)).
Proof.
  assert (H : forall validator msg,
             fst (social_download E validator msg json job_id now w) = Ok resp ->
             status_code resp = 200 ->
             exists url output_dir output_name,
               spawned (snd (social_download E validator msg json job_id now w))
               = spawned w ++ [run_social_download_job_thread job_id url output_dir
                                 output_name]
               /\ validator E url = Ok true
               /\ (forall n, output_name = Some n -> sanitized n)).
  { intros validator msg Hresp Hcode. unfold social_download in *.
    destruct (get_stripped (request_data json) "url" "") as [url|e]; simpl in *;
      [|discriminate].
    destruct (validator E url) as [valid|e] eqn:Hv; simpl in *; [|discriminate].
    destruct valid; simpl in *;
      [|injection Hresp as <-; discriminate].
    unfold parse_output_settings in *.
    destruct (get_stripped (request_data json) "output_dir" "") as [dr|e]; simpl in *;
      [|discriminate].
    destruct (get_stripped (request_data json) "output_name" "") as [nr|e]; simpl in *;
      [|discriminate].
    destruct (output_settings E dr nr) as [err | [od on]] eqn:Ho; simpl in *.
    - pose proof (output_settings_message E dr nr err Ho) as Hne.
      destruct err as [|c err]; [contradiction|]. simpl in *.
      injection Hresp as <-. discriminate.
    - exists url, od, on. split; [reflexivity|]. split; [exact Hv|].
      intros n Hn. destruct (output_settings_accept _ _ _ _ _ Ho) as (_ & Hsan).
      apply (Hsan n Hn). }
  split; apply H.
Qed.

(** X13 at a TikTok request. *)
Lemma social_download_starts_a_validated_job_witness :
  exists url output_dir output_name,
    spawned (snd (download_tiktok E0
       (Some (JObject [("url", JStr "https://vm.tiktok.com/ZMabc/")]))
       "j9" zero empty_world))
    = [] ++ [run_social_download_job_thread "j9" url output_dir output_name]
    /\ is_valid_tiktok_url E0 url = Ok true
    /\ (forall n, output_name = Some n -> sanitized n).
Proof.
  pose proof (social_download_starts_a_validated_job E0
                (Some (JObject [("url", JStr "https://vm.tiktok.com/ZMabc/")]))
                "j9" zero empty_world
                {| status_code := 200; body := [("job_id", JStr "j9")] |}) as [H _].
  apply H; reflexivity.
Defined.

(* ===================================================================== *)
(** * File names and the target directory                                 *)
(* ===================================================================== *)

Lemma strings_eqb_eq (a b : list string) : strings_eqb a b = true -> a = b.
Proof.
  revert b. induction a as [|x a IH]; intros [|y b]; simpl; try discriminate;
    [reflexivity|].
  intros [Hx Hr]%andb_true_iff. apply String.eqb_eq in Hx.
  rewrite Hx, (IH b Hr). reflexivity.
Qed.

Lemma path_eqb_eq (p q : ppath) : path_eqb p q = true -> p = q.
Proof.
  unfold path_eqb. intros [Hr Hp]%andb_true_iff.
  apply String.eqb_eq in Hr. apply strings_eqb_eq in Hp.
  destruct p, q; simpl in *. congruence.
Qed.

(** X14: whatever output name the client sends, the output template that
    a runner hands to the downloader names a direct child of the target
    directory: its parent is the target directory and its file name is
    the safe name followed by [.%(ext)s].  The job id, which replaces a
    missing name, is assumed to hold no slash (it is a hexadecimal
    UUID). *)
Theorem output_template_inside_target_dir
    (target_dir : ppath) (output_name : option string) (job_id : string)
    (Hid : no_char "/" job_id = true) :
  let safe_name := safe_name_of output_name job_id in
  let template := path_join target_dir (safe_name +:+ ".%(ext)s") in
  outtmpl_of target_dir safe_name = path_str template /\
  p_parent template = target_dir /\
  p_name template = safe_name +:+ ".%(ext)s" /\
  no_char "/" safe_name = true.
Proof.
  intros safe_name template.
  pose proof (safe_name_of_no_slash output_name job_id Hid) as Hs.
  destruct (child_of_dir target_dir safe_name ".%(ext)s" Hs eq_refl) as [Hp Hn].
  { simpl. lia. }
  repeat split; assumption || reflexivity.
Qed.

(** X14 at a name that tries to leave the directory. *)
Lemma output_template_inside_target_dir_witness :
  let safe_name := safe_name_of (Some "../../etc/passwd") "0af3" in
  let template := path_join downloads (safe_name +:+ ".%(ext)s") in
  outtmpl_of downloads safe_name = path_str template /\
  p_parent template = downloads /\
  p_name template = safe_name +:+ ".%(ext)s" /\
  no_char "/" safe_name = true.
Proof.
  apply (output_template_inside_target_dir downloads (Some "../../etc/passwd") "0af3").
  reflexivity.
Defined.

Lemma default_output_inside (info : info_dict) (fmt : string) (dir : ppath)
    (safe_name : string) :
  p_parent (default_output_path info fmt dir safe_name) = dir /\
  is_empty (p_name (default_output_path info fmt dir safe_name)) = false.
Proof.
  unfold default_output_path.
  set (base := or_else _ _).
  assert (Hs : no_char "/"
                 match sanitize_file_basename base with
                 | Some s => s
                 | None => "download"
                 end = true).
  { destruct (sanitize_file_basename base) as [s|] eqn:Hs; [|reflexivity].
    apply sanitized_no_slash, (sanitize_sanitized _ _ Hs). }
  set (safe := match sanitize_file_basename base with
               | Some s => s
               | None => "download"
               end) in *.
  assert (Hc : forall ext, no_char "/" ext = true -> (1 <= String.length ext)%nat ->
             p_parent (path_join dir (safe +:+ "." +:+ ext)) = dir /\
             is_empty (p_name (path_join dir (safe +:+ "." +:+ ext))) = false).
  { intros ext He Hlen.
    destruct (child_of_dir dir safe ("." +:+ ext) Hs) as [Hp Hn].
    - rewrite append_cons, append_empty. unfold no_char. simpl. exact He.
    - rewrite append_cons, append_empty. simpl. lia.
    - split; [exact Hp|]. rewrite Hn. apply app_nonempty. reflexivity. }
  destruct (String.eqb fmt "mp3"); apply Hc; try reflexivity; simpl; lia.
Qed.

(** X15: when the downloader's result reports no file path, the file that
    [locate_output] answers with exists, has a name, and is a direct child
    of the target directory, whatever the safe name and the title are. *)
Theorem unreported_output_is_inside_target_dir
    (fs : filesystem) (info : info_dict) (fmt : string) (target_dir : ppath)
    (safe_name : string) (p : ppath)
    (Hrep : reported_filepath info = None)
    (Hloc : locate_output fs info fmt target_dir safe_name = Ok p) :
  p_parent p = target_dir /\ is_empty (p_name p) = false /\
  path_exists fs p = true.
Proof.
  unfold locate_output in Hloc.
  rewrite (resolve_default info fmt target_dir safe_name Hrep) in Hloc.
  simpl in Hloc.
  destruct (default_output_inside info fmt target_dir safe_name) as [Hp Hn].
  set (p0 := default_output_path info fmt target_dir safe_name) in *.
  destruct (path_exists fs p0) eqn:He0; simpl in Hloc.
  - rewrite He0 in Hloc. simpl in Hloc. injection Hloc as <-. auto.
  - destruct (sorted_by_mtime_desc (glob_base fs target_dir safe_name))
      as [|c rest] eqn:Hsort.
    + rewrite He0 in Hloc. discriminate.
    + destruct (path_exists fs (fst c)) eqn:Hec; simpl in Hloc; [|discriminate].
      injection Hloc as <-.
      assert (Hhd : hd_error (sorted_by_mtime_desc (glob_base fs target_dir safe_name))
                    = Some c) by (rewrite Hsort; reflexivity).
      apply sorted_head_latest in Hhd as [Hin _].
      unfold glob_base in Hin. apply filter_In in Hin as [_ Hf].
      apply andb_true_iff in Hf as [[Hpar Hname]%andb_true_iff _].
      apply path_eqb_eq in Hpar. apply negb_true_iff in Hname. auto.
Qed.

(** X15 at a directory scan that finds the file. *)
Lemma unreported_output_is_inside_target_dir_witness :
  p_parent (path_join downloads "clip.mp4") = downloads /\
  is_empty (p_name (path_join downloads "clip.mp4")) = false /\
  path_exists two_clips (path_join downloads "clip.mp4") = true.
Proof.
  apply (unreported_output_is_inside_target_dir two_clips no_report "mp4"
           downloads "clip"); reflexivity.
Defined.

(* ===================================================================== *)
(** * Names the sanitizer turns down                                      *)
(* ===================================================================== *)

Lemma lstrip_all (p : ascii -> bool) (s : string) :
  all_chars p s = true -> lstrip_by p s = EmptyString.
Proof.
  induction s as [|c s IH]; simpl; [reflexivity|].
  intros [Hc Hs]%andb_true_iff. rewrite Hc. exact (IH Hs).
Qed.

Lemma strip_all (p : ascii -> bool) (s : string) :
  all_chars p s = true -> strip_by p s = EmptyString.
Proof. intros H. unfold strip_by. rewrite lstrip_all by exact H. reflexivity. Qed.

(** In a text of spaces and dots whose last character is not white space,
    the last dot is the last character. *)
Lemma rfind_dot_last (s : string) :
  all_chars dot_or_space s = true -> last_ok py_isspace s = true ->
  is_empty s = false -> rfind "." s = Some (String.length s - 1)%nat.
Proof.
  induction s as [|c s IH]; [discriminate|].
  intros [Hc Hs]%andb_true_iff Hl _.
  destruct s as [|d s'].
  - simpl in *. destruct (Ascii.eqb_spec c "."); [reflexivity|].
    exfalso. unfold dot_or_space in Hc. simpl in Hc.
    rewrite orb_false_r in Hc. apply orb_true_iff in Hc as [Hc | Hc];
      apply ascii_eqb_eq in Hc; [|contradiction].
    subst c. discriminate.
  - change (rfind "." (String c (String d s')))
      with (match rfind "." (String d s') with
            | Some i => Some (S i)
            | None => if Ascii.eqb c "." then Some O else None
            end).
    rewrite (IH Hs Hl eq_refl). simpl. rewrite Nat.sub_0_r. reflexivity.
Qed.

Lemma dot_or_space_safe (s : string) :
  all_chars dot_or_space s = true -> all_chars safe_char s = true.
Proof.
  induction s as [|c s IH]; simpl; [reflexivity|].
  intros [Hc Hs]%andb_true_iff. rewrite (IH Hs), andb_true_r.
  unfold dot_or_space in Hc. simpl in Hc. rewrite orb_false_r in Hc.
  apply orb_true_iff in Hc as [Hc | Hc]; apply ascii_eqb_eq in Hc; subst c;
    reflexivity.
Qed.

(** X16: a name made only of spaces and dots is turned down: the
    sanitizer returns [None] for it, so a request with such an
    [output_name] gets no name from it. *)
Theorem sanitize_rejects_spaces_and_dots (name : string)
    (Hname : all_chars dot_or_space name = true) :
  sanitize_file_basename (Some name) = None.
Proof.
  unfold sanitize_file_basename.
  pose proof (all_chars_strip dot_or_space py_isspace name Hname) as Hall.
  fold (py_strip name) in Hall.
  assert (Hl : last_ok py_isspace (py_strip name) = true) by apply strip_ends.
  set (text := py_strip name) in *.
  assert (Hsuf : name_suffix (path_name text) = EmptyString).
  { destruct (is_empty text) eqn:He.
    { apply is_empty_true in He. rewrite He. reflexivity. }
    destruct (String.eqb_spec text ".") as [-> | Hdot]; [reflexivity|].
    rewrite path_name_plain; [| | exact He | exact Hdot].
    - unfold name_suffix, suffix_index.
      rewrite (rfind_dot_last text Hall Hl He).
      rewrite Nat.ltb_irrefl, andb_false_r. reflexivity.
    - apply (no_char_of_all dot_or_space); [reflexivity | exact Hall]. }
  rewrite Hsuf. simpl. unfold py_strip_chars.
  rewrite (re_sub_fixed safe_char "_" text (dot_or_space_safe text Hall)).
  change (fun c => char_in c " .") with dot_or_space.
  rewrite (strip_all dot_or_space text Hall). reflexivity.
Qed.

(** X16 at a name of dots and spaces. *)
Lemma sanitize_rejects_spaces_and_dots_witness :
  sanitize_file_basename (Some " .. . ") = None.
Proof. apply sanitize_rejects_spaces_and_dots. reflexivity. Defined.

(* ===================================================================== *)
(** * The shape of an analysis                                            *)
(* ===================================================================== *)

Lemma results_add (name : string) (value : option float) (score : option Z)
    (low_tip : string) (acc : metric_acc) :
  exists r, results (add_metric name value score low_tip acc) = results acc ++ [r]
            /\ m_name r = name /\ m_score r = score.
Proof.
  unfold add_metric. destruct score as [sc|]; simpl; eexists;
    (split; [reflexivity|]); split; reflexivity.
Qed.

Lemma names_add (name : string) (value : option float) (score : option Z)
    (low_tip : string) (acc : metric_acc) :
  map m_name (results (add_metric name value score low_tip acc))
  = map m_name (results acc) ++ [name].
Proof.
  destruct (results_add name value score low_tip acc) as (r & -> & Hn & _).
  rewrite map_app. simpl. rewrite Hn. reflexivity.
Qed.

Lemma tips_counted_add (name : string) (value : option float) (score : option Z)
    (low_tip : string) (acc : metric_acc) :
  tips_counted acc -> tips_counted (add_metric name value score low_tip acc).
Proof.
  unfold tips_counted, add_metric. intros H.
  destruct score as [sc|]; simpl; rewrite List.filter_app, !length_app; simpl;
    unfold low_score in *; simpl; [|lia].
  destruct (sc <? 70); simpl; [rewrite length_app; simpl|]; lia.
Qed.

Lemma names_from_base_add (extra : list string) (name : string)
    (value : option float) (score : option Z) (low_tip : string)
    (acc : metric_acc) :
  names_from_base extra acc ->
  names_from_base (extra ++ [name]) (add_metric name value score low_tip acc).
Proof.
  unfold names_from_base. intros H. rewrite names_add, H, <- app_assoc.
  reflexivity.
Qed.

(** What [analyze_metrics] returns, read off its last lines. *)
Lemma analyze_metrics_shape (E : pyenv) (m : list (string * jvalue)) (r : analysis) :
  analyze_metrics E m = Ok r ->
  exists (acc : metric_acc) (extra : list string),
    metrics r = results acc /\
    names_from_base extra acc /\ ratio_names extra /\
    tips_counted acc /\
    out_tips r = firstn 12 match tips acc with
                           | [] => [healthy_tip]
                           | t => t
                           end /\
    verdict r = verdict_of (overall_score r).
Proof.
  intros H. unfold analyze_metrics in H. cbv zeta in H.
  do 28 (apply rbind_Ok in H as (? & _ & H); cbv beta in H).
  apply rbind_Ok in H as (acc1 & Hacc1 & H). cbv beta in H.
  apply rbind_Ok in H as (acc2 & Hacc2 & H). cbv beta in H.
  apply rbind_Ok in H as (o & _ & H). apply Ok_inj in H. subst r. simpl.
  match type of Hacc1 with
  | match _ with
    | Some _ => match _ with
                | Some _ => if _ then _ else Ok ?acc0
                | None => _
                end
    | None => _
    end = _ =>
      set (A0 := acc0) in *;
      assert (H19 : names_from_base [] A0 /\ tips_counted A0)
        by (subst A0; split;
            [unfold names_from_base; rewrite !names_add; reflexivity
            |repeat apply tips_counted_add; reflexivity]);
      clearbody A0
  end.
  destruct H19 as [Hn19 Ht19].
  assert (H20 : exists extra1,
             names_from_base extra1 acc1 /\ tips_counted acc1 /\
             (extra1 = [] \/ extra1 = ["View/Impression Ratio (%)"])).
  { assert (Hsame : Ok A0 = Ok acc1 -> exists extra1,
               names_from_base extra1 acc1 /\ tips_counted acc1 /\
               (extra1 = [] \/ extra1 = ["View/Impression Ratio (%)"])).
    { intros Heq. apply Ok_inj in Heq. subst acc1. exists []. auto. }
    destruct x as [v|]; [destruct x5 as [i|]|]; try exact (Hsame Hacc1).
    destruct (f_gt i (S754_zero false)); [|exact (Hsame Hacc1)].
    destruct (float_truediv v i) as [q|]; [|discriminate].
    apply Ok_inj in Hacc1. subst acc1.
    exists ([] ++ ["View/Impression Ratio (%)"]).
    split; [apply names_from_base_add, Hn19|].
    split; [apply tips_counted_add, Ht19 | right; reflexivity]. }
  destruct H20 as (extra1 & Hn20 & Ht20 & He1). clear Hacc1 Hn19 Ht19.
  assert (H21 : exists extra2,
             names_from_base extra2 acc2 /\ tips_counted acc2 /\
             (extra2 = extra1 \/ extra2 = extra1 ++ ["Like Ratio (%)"])).
  { assert (Hsame : Ok acc1 = Ok acc2 -> exists extra2,
               names_from_base extra2 acc2 /\ tips_counted acc2 /\
               (extra2 = extra1 \/ extra2 = extra1 ++ ["Like Ratio (%)"])).
    { intros Heq. apply Ok_inj in Heq. subst acc2. exists extra1. auto. }
    destruct x0 as [l|]; [destruct x1 as [d|]|]; try exact (Hsame Hacc2).
    destruct (f_gt (fadd l d) (S754_zero false)); [|exact (Hsame Hacc2)].
    destruct (float_truediv l (fadd l d)) as [q|]; [|discriminate].
    apply Ok_inj in Hacc2. subst acc2.
    exists (extra1 ++ ["Like Ratio (%)"]).
    split; [apply names_from_base_add, Hn20|].
    split; [apply tips_counted_add, Ht20 | right; reflexivity]. }
  destruct H21 as (extra2 & Hn21 & Ht21 & He2).
  exists acc2, extra2. split; [reflexivity|]. split; [exact Hn21|].
  split.
  { unfold ratio_names.
    destruct He1 as [-> | ->], He2 as [-> | ->]; simpl; tauto. }
  split; [exact Ht21|]. split; reflexivity.
Qed.

Lemma no_scores_no_low (rs : list metric_result) :
  numeric_scores rs = [] -> List.filter low_score rs = [].
Proof.
  induction rs as [|r rs IH]; simpl; [reflexivity|].
  unfold low_score at 1. destruct (m_score r) as [sc|]; simpl; [discriminate|].
  exact IH.
Qed.

Lemma verdict_of_cases (o : Z) :
  (verdict_of o = "Strong performance" <-> 85 <= o) /\
  (verdict_of o = "Healthy, but with optimization room" <-> 70 <= o < 85) /\
  (verdict_of o = "Underperforming" <-> o < 70).
Proof.
  unfold verdict_of.
  destruct (Z.leb_spec 85 o); [|destruct (Z.leb_spec 70 o)];
    repeat split; intros; try discriminate; try lia; reflexivity.
Qed.

(** X17: a returned analysis lists the nineteen base metrics, in the
    order of the code, followed by the view/impression ratio and the like
    ratio when they were computed: between 19 and 21 entries. *)
Theorem analysis_lists_the_base_metrics
    (E : pyenv) (m : list (string * jvalue)) (r : analysis)
    (Hr : analyze_metrics E m = Ok r) :
  exists extra,
    map m_name (metrics r) = base_metric_names ++ extra /\
    ratio_names extra /\
    (19 <= length (metrics r) <= 21)%nat.
Proof.
  destruct (analyze_metrics_shape E m r Hr) as (acc & extra & -> & Hn & He & _).
  exists extra. split; [exact Hn|]. split; [exact He|].
  rewrite <- (length_map m_name), Hn, length_app.
  destruct He as [-> | [-> | [-> | ->]]]; simpl; lia.
Qed.

(** X17 at views and impressions. *)
Lemma analysis_lists_the_base_metrics_witness :
  exists r extra,
    analyze_metrics E0 [("views", JFloat (f_of_Z 500));
                        ("impressions", JFloat (f_of_Z 10000))] = Ok r /\
    map m_name (metrics r) = base_metric_names ++ extra /\
    ratio_names extra /\
    (19 <= length (metrics r) <= 21)%nat.
Proof.
  destruct (analyze_metrics E0 [("views", JFloat (f_of_Z 500));
                                ("impressions", JFloat (f_of_Z 10000))])
    as [r|e] eqn:Hr; [|vm_compute in Hr; discriminate].
  destruct (analysis_lists_the_base_metrics E0 _ r Hr) as (extra & H).
  exists r, extra. split; [reflexivity | exact H].
Defined.

(** X18: the tips of a returned analysis.  Without an entry scored below
    70 there is the single tip that the metrics look healthy; otherwise
    there is one tip for each such entry, up to twelve.  There is always
    at least one tip. *)
Theorem analysis_tips
    (E : pyenv) (m : list (string * jvalue)) (r : analysis)
    (Hr : analyze_metrics E m = Ok r) :
  (List.filter low_score (metrics r) = [] -> out_tips r = [healthy_tip]) /\
  (List.filter low_score (metrics r) <> [] ->
   length (out_tips r)
   = Nat.min 12 (length (List.filter low_score (metrics r)))) /\
  (1 <= length (out_tips r) <= 12)%nat.
Proof.
  destruct (analyze_metrics_shape E m r Hr)
    as (acc & extra & -> & _ & _ & Ht & -> & _).
  unfold tips_counted in Ht.
  destruct (tips acc) as [|t ts] eqn:Htips.
  - simpl in Ht. symmetry in Ht. apply length_zero_iff_nil in Ht.
    rewrite Ht. simpl. split; [reflexivity|]. split; [congruence | lia].
  - rewrite <- Ht. split.
    + intros Hnil. rewrite Hnil in Ht. discriminate.
    + split; [intros _; apply length_firstn|].
      rewrite length_firstn. change (length (t :: ts)) with (S (length ts)). lia.
Qed.

(** X18 at a low click-through rate. *)
Lemma analysis_tips_witness :
  exists r,
    analyze_metrics E0 [("ctr", JFloat (f_of_Z 1))] = Ok r /\
    (List.filter low_score (metrics r) = [] -> out_tips r = [healthy_tip]) /\
    (List.filter low_score (metrics r) <> [] ->
     length (out_tips r)
     = Nat.min 12 (length (List.filter low_score (metrics r)))) /\
    (1 <= length (out_tips r) <= 12)%nat.
Proof.
  destruct (analyze_metrics E0 [("ctr", JFloat (f_of_Z 1))])
    as [r|e] eqn:Hr; [|vm_compute in Hr; discriminate].
  exists r. split; [reflexivity|]. exact (analysis_tips E0 _ r Hr).
Defined.

(** X19: an analysis in which no metric has a score (no data at all, for
    one) has the overall score 0 and the verdict "Underperforming", and
    yet its only tip says that the metrics look healthy. *)
Theorem analysis_without_data
    (E : pyenv) (m : list (string * jvalue)) (r : analysis)
    (Hr : analyze_metrics E m = Ok r)
    (Hnone : numeric_scores (metrics r) = []) :
  overall_score r = 0 /\ verdict r = "Underperforming" /\
  out_tips r = [healthy_tip].
Proof.
  destruct (analyze_metrics_scores E m r Hr) as [_ [[_ Ho] | [Hne _]]];
    [|contradiction].
  destruct (analyze_metrics_shape E m r Hr)
    as (acc & extra & Hm & _ & _ & Ht & Htips & Hv).
  split; [exact Ho|]. split; [rewrite Hv, Ho; reflexivity|].
  rewrite Htips. rewrite Hm in Hnone. apply no_scores_no_low in Hnone.
  unfold tips_counted in Ht. rewrite Hnone in Ht. simpl in Ht.
  apply length_zero_iff_nil in Ht. rewrite Ht. reflexivity.
Qed.

(** X19 at the empty metrics object. *)
Lemma analysis_without_data_witness :
  exists r,
    analyze_metrics E0 [] = Ok r /\
    overall_score r = 0 /\ verdict r = "Underperforming" /\
    out_tips r = [healthy_tip].
Proof.
  destruct (analyze_metrics E0 []) as [r|e] eqn:Hr;
    [|vm_compute in Hr; discriminate].
  exists r. split; [reflexivity|].
  apply (analysis_without_data E0 [] r Hr).
  vm_compute in Hr. apply Ok_inj in Hr. rewrite <- Hr. reflexivity.
Defined.

(** X20: the overall score of a returned analysis is 0 when no metric has
    a score, and otherwise the integer part of the mean of the scores,
    between 45 and 95.  The verdict follows the overall score: "Strong
    performance" from 85, "Underperforming" below 70, and "Healthy, but
    with optimization room" between. *)
Theorem analysis_overall_and_verdict
    (E : pyenv) (m : list (string * jvalue)) (r : analysis)
    (Hr : analyze_metrics E m = Ok r) :
  ((numeric_scores (metrics r) = [] /\ overall_score r = 0) \/
   (numeric_scores (metrics r) <> [] /\
    overall_score r = sum_Z (numeric_scores (metrics r))
                      / Z.of_nat (length (numeric_scores (metrics r))) /\
    45 <= overall_score r <= 95)) /\
  (verdict r = "Strong performance" <-> 85 <= overall_score r) /\
  (verdict r = "Healthy, but with optimization room"
   <-> 70 <= overall_score r < 85) /\
  (verdict r = "Underperforming" <-> overall_score r < 70).
Proof.
  destruct (analyze_metrics_scores E m r Hr) as [_ Ho].
  destruct (analyze_metrics_shape E m r Hr)
    as (acc & extra & _ & _ & _ & _ & _ & Hv).
  split; [exact Ho|]. rewrite Hv. apply verdict_of_cases.
Qed.

(** X20 at one good and one low metric. *)
Lemma analysis_overall_and_verdict_witness :
  exists r,
    analyze_metrics E0 [("ctr", JFloat (f_of_Z 7)); ("shares", JFloat (f_of_Z 2))]
    = Ok r /\
    overall_score r = 70 /\
    (verdict r = "Healthy, but with optimization room"
     <-> 70 <= overall_score r < 85).
Proof.
  destruct (analyze_metrics E0 [("ctr", JFloat (f_of_Z 7));
                                ("shares", JFloat (f_of_Z 2))])
    as [r|e] eqn:Hr; [|vm_compute in Hr; discriminate].
  exists r. split; [reflexivity|].
  destruct (analysis_overall_and_verdict E0 _ r Hr) as (_ & _ & Hh & _).
  split; [|exact Hh].
  vm_compute in Hr. apply Ok_inj in Hr. rewrite <- Hr. reflexivity.
Defined.

Lemma float_of_int_raise (z : Z) (e : exn) :
  float_of_int z = Raise e ->
  e = OverflowError "int too large to convert to float".
Proof.
  unfold float_of_int. destruct (f_is_inf (f_of_Z z)); [|discriminate].
  intros [= <-]. reflexivity.
Qed.

(** X21: the analysis raises in two ways only, both inside [safe_float]
    and outside its [try]: [float(value)] on an integer of the metrics
    object too large for a float, with the [OverflowError] of that
    conversion, or [str(value)] on a list or a dict of the object (it
    raises when the container holds an integer beyond the limit for
    integer string conversion), with the exception of that call.  When
    every integer of the object converts and every list and dict of it
    has a string, the analysis returns.  Both ways are real: the analysis
    of an object whose [views] is such an integer, or such a container,
    raises that exception. *)
Theorem analyze_metrics_raises_only_in_conversions
    (E : pyenv) (m : list (string * jvalue)) :
  (forall e, analyze_metrics E m = Raise e ->
     (e = OverflowError "int too large to convert to float" /\
      exists k z, dict_get k m = JInt z /\ float_of_int z = Raise e) \/
     (exists k, is_container (dict_get k m) = true /\
                str_of_container E (dict_get k m) = Raise e)) /\
  (ints_convertible m -> containers_printable E m ->
   exists r, analyze_metrics E m = Ok r) /\
  (forall z e, dict_get "views" m = JInt z -> float_of_int z = Raise e ->
     analyze_metrics E m = Raise e) /\
  (forall e, is_container (dict_get "views" m) = true ->
     str_of_container E (dict_get "views" m) = Raise e ->
     analyze_metrics E m = Raise e).
Proof.
  split; [|split; [apply analyze_metrics_returns | split]].
  - intros e He. pose proof (analyze_metrics_outcome E m) as H.
    rewrite He in H. destruct H as [(k & z & Hk & Hz) | H]; [left | right; exact H].
    split; [exact (float_of_int_raise z e Hz) | eauto].
  - intros z e Hv Hz. unfold analyze_metrics. cbv zeta. rewrite Hv.
    simpl. rewrite Hz. reflexivity.
  - intros e Hc Hs. unfold analyze_metrics. cbv zeta.
    destruct (dict_get "views" m) as [|b|z|f|s|items|fields]; try discriminate;
      simpl; rewrite Hs; reflexivity.
Qed.

(** X21 at an object with an integer view count. *)
Lemma analyze_metrics_raises_only_in_conversions_witness :
  exists r, analyze_metrics E0 [("views", JInt 1200)] = Ok r.
Proof.
  apply (analyze_metrics_raises_only_in_conversions E0 [("views", JInt 1200)]).
  - intros k z. unfold dict_get. simpl.
    destruct (String.eqb k "views"); [|discriminate].
    intros [= <-]. reflexivity.
  - intros k. unfold dict_get. simpl.
    destruct (String.eqb k "views"); discriminate.
Defined.

(* ===================================================================== *)
(** * The two scoring functions                                           *)
(* ===================================================================== *)

Lemma SFleb_trans (x y z : float) :
  SFleb x y = true -> SFleb y z = true -> SFleb x z = true.
Proof.
  unfold SFleb, SFcompare.
  destruct x as [sx|sx| |sx mx ex], y as [sy|sy| |sy my ey],
           z as [sz|sz| |sz mz ez];
    try discriminate; try reflexivity;
    try (destruct sx; try discriminate; try reflexivity);
    try (destruct sy; try discriminate; try reflexivity);
    try (destruct sz; try discriminate; try reflexivity).
  all: change (PosDef.Pos.compare_cont Eq) with Pos.compare.
  all: destruct (Z.compare_spec ex ey), (Z.compare_spec ey ez),
         (Z.compare_spec ex ez);
       try discriminate; try reflexivity; try lia; subst.
  all: destruct (Pos.compare_spec mx my), (Pos.compare_spec my mz),
         (Pos.compare_spec mx mz);
       simpl; try discriminate; try reflexivity; try lia.
Qed.

(** X22: both scoring functions are monotone in the value, whatever the
    two thresholds are: a value that is at least as high never scores
    lower with [score_higher_better], and never scores higher with
    [score_lower_better]. *)
Theorem score_functions_monotone (v v' good ok : float)
    (Hle : f_le v v' = true) :
  exists a b c d,
    score_higher_better (Some v) good ok = Some a /\
    score_higher_better (Some v') good ok = Some b /\ a <= b /\
    score_lower_better (Some v) good ok = Some c /\
    score_lower_better (Some v') good ok = Some d /\ d <= c.
Proof.
  unfold score_higher_better, score_lower_better, f_ge, f_le in *.
  destruct (SFleb good v) eqn:H1.
  { rewrite (SFleb_trans good v v' H1 Hle).
    destruct (SFleb v' good) eqn:H3.
    - rewrite (SFleb_trans v v' good Hle H3).
      do 4 eexists. repeat split; lia.
    - destruct (SFleb v' ok) eqn:H4.
      + rewrite (SFleb_trans v v' ok Hle H4).
        destruct (SFleb v good); do 4 eexists; repeat split; lia.
      + destruct (SFleb v good); [|destruct (SFleb v ok)];
          do 4 eexists; repeat split; lia. }
  assert (Hhigher : exists a b,
    (if SFleb ok v then Some 75 else Some 45) = Some a /\
    (if SFleb good v' then Some 95 else if SFleb ok v' then Some 75 else Some 45)
    = Some b /\ a <= b).
  { destruct (SFleb ok v) eqn:H2.
    - rewrite (SFleb_trans ok v v' H2 Hle).
      destruct (SFleb good v'); do 2 eexists; repeat split; lia.
    - destruct (SFleb good v'); [|destruct (SFleb ok v')];
        do 2 eexists; repeat split; lia. }
  destruct Hhigher as (a & b & Ha & Hb & Hab).
  exists a, b. rewrite Ha, Hb.
  destruct (SFleb v' good) eqn:H3.
  - rewrite (SFleb_trans v v' good Hle H3).
    do 2 eexists. repeat split; trivial; lia.
  - destruct (SFleb v' ok) eqn:H4.
    + rewrite (SFleb_trans v v' ok Hle H4).
      destruct (SFleb v good); do 2 eexists; repeat split; trivial; lia.
    + destruct (SFleb v good); [|destruct (SFleb v ok)];
        do 2 eexists; repeat split; trivial; lia.
Qed.

(** X22 at a click-through rate of 4 and of 7 per cent. *)
Lemma score_functions_monotone_witness :
  exists a b c d,
    score_higher_better (Some (fz 4)) (fz 6) (f_dec 35 1) = Some a /\
    score_higher_better (Some (fz 7)) (fz 6) (f_dec 35 1) = Some b /\ a <= b /\
    score_lower_better (Some (fz 4)) (fz 6) (f_dec 35 1) = Some c /\
    score_lower_better (Some (fz 7)) (fz 6) (f_dec 35 1) = Some d /\ d <= c.
Proof.
  apply (score_functions_monotone (fz 4) (fz 7) (fz 6) (f_dec 35 1)).
  vm_compute. reflexivity.
Defined.

(* ===================================================================== *)
(** * The three URL validators together                                   *)
(* ===================================================================== *)

Lemma str_in_In (x : string) (l : list string) : str_in x l = true -> In x l.
Proof.
  unfold str_in. intros (y & Hin & Heq)%existsb_exists.
  apply String.eqb_eq in Heq. subst y. exact Hin.
Qed.

(** X23: no URL is accepted by two validators: a URL that one of
    [is_valid_youtube_url], [is_valid_tiktok_url] and
    [is_valid_instagram_url] accepts is rejected, without an exception, by
    the other two. *)
Theorem validators_are_exclusive (E : pyenv) (url : string) :
  (is_valid_youtube_url E url = Ok true ->
   is_valid_tiktok_url E url = Ok false /\
   is_valid_instagram_url E url = Ok false) /\
  (is_valid_tiktok_url E url = Ok true ->
   is_valid_youtube_url E url = Ok false /\
   is_valid_instagram_url E url = Ok false) /\
  (is_valid_instagram_url E url = Ok true ->
   is_valid_youtube_url E url = Ok false /\
   is_valid_tiktok_url E url = Ok false).
Proof.
  unfold is_valid_youtube_url, is_valid_tiktok_url, is_valid_instagram_url.
  destruct (is_empty url); [repeat split; discriminate|].
  destruct (urlparse E (with_default_scheme url)) as [p|e]; cbn [rbind];
    [|repeat split; discriminate].
  remember (host_of p) as host eqn:Hhost. clear Hhost.
  destruct (String.eqb_spec host "youtu.be") as [-> | Hyt].
  { simpl. repeat split; (reflexivity || congruence). }
  destruct (str_in host ["youtube.com"; "m.youtube.com"]) eqn:Hy.
  { apply str_in_In in Hy. simpl in Hy.
    destruct Hy as [<- | [<- | []]]; simpl;
      repeat split; (reflexivity || congruence). }
  destruct (str_in host ["tiktok.com"; "m.tiktok.com"; "vm.tiktok.com";
                         "vt.tiktok.com"]) eqn:Ht.
  { apply str_in_In in Ht. simpl in Ht.
    destruct Ht as [<- | [<- | [<- | [<- | []]]]]; simpl;
      repeat split; (reflexivity || congruence). }
  destruct (str_in host ["instagram.com"; "m.instagram.com"]); simpl;
    repeat split; (reflexivity || congruence).
Qed.

(** X23 at a TikTok URL. *)
Lemma validators_are_exclusive_witness :
  is_valid_youtube_url E0 "https://vm.tiktok.com/ZMabc/" = Ok false /\
  is_valid_instagram_url E0 "https://vm.tiktok.com/ZMabc/" = Ok false.
Proof.
  pose proof (validators_are_exclusive E0 "https://vm.tiktok.com/ZMabc/")
    as (_ & H & _).
  apply H. reflexivity.
Defined.

(** ** URLs without a square bracket *)

Lemma all_chars_remove (q p : ascii -> bool) (s : string) :
  all_chars q s = true -> all_chars q (remove_chars p s) = true.
Proof.
  induction s as [|c s IH]; simpl; [reflexivity|].
  intros [Hc Hs]%andb_true_iff. destruct (p c); simpl; [auto|].
  rewrite Hc. auto.
Qed.

Lemma all_chars_drop (q : ascii -> bool) (n : nat) (s : string) :
  all_chars q s = true -> all_chars q (drop_str n s) = true.
Proof.
  revert s. induction n as [|n IH]; intros [|c s]; simpl; trivial.
  intros [_ Hs]%andb_true_iff. auto.
Qed.

Lemma all_chars_break_at (q p : ascii -> bool) (s : string) :
  all_chars q s = true ->
  all_chars q (fst (break_at p s)) = true /\
  all_chars q (snd (break_at p s)) = true.
Proof.
  induction s as [|c s IH]; simpl; [auto|].
  intros [Hc Hs]%andb_true_iff. destruct (p c); simpl.
  - rewrite Hc, Hs. auto.
  - destruct (break_at p s) as [a b]. simpl in *.
    destruct (IH Hs) as [Ha Hb]. rewrite Hc, Ha, Hb. auto.
Qed.

Lemma all_chars_split_once (q : ascii -> bool) (sep : ascii) (s h t : string) :
  split_once sep s = Some (h, t) -> all_chars q s = true ->
  all_chars q h = true /\ all_chars q t = true.
Proof.
  revert h. induction s as [|c s IH]; intros h; simpl; [discriminate|].
  intros H [Hc Hs]%andb_true_iff. destruct (Ascii.eqb c sep).
  - injection H as <- <-. auto.
  - destruct (split_once sep s) as [[h' t']|]; [|discriminate].
    injection H as <- <-. destruct (IH h' eq_refl Hs) as [Hh Ht].
    simpl. rewrite Hc, Hh, Ht. auto.
Qed.

Lemma all_chars_split_scheme (q : ascii -> bool) (url : string) :
  all_chars q url = true -> all_chars q (snd (split_scheme url)) = true.
Proof.
  intros H. unfold split_scheme.
  destruct (split_once ":" url) as [[[|c0 rest] tail]|] eqn:Hs; trivial.
  destruct (is_alpha c0 && all_chars scheme_char (String c0 rest)); trivial.
  simpl. exact (proj2 (all_chars_split_once q _ _ _ _ Hs H)).
Qed.

Lemma all_chars_default_scheme (q : ascii -> bool) (url : string) :
  all_chars q "https://" = true -> all_chars q url = true ->
  all_chars q (with_default_scheme url) = true.
Proof.
  intros Hp H. unfold with_default_scheme.
  destruct (contains "://" url); [exact H|].
  rewrite all_chars_app, Hp, H. reflexivity.
Qed.

Lemma has_char_absent (c : ascii) (s : string) :
  no_char c s = true -> has_char c s = false.
Proof.
  unfold has_char. rewrite no_char_char_in. apply negb_true_iff.
Qed.

Lemma returns_Ok {A} (r : result A) : returns r = true -> exists x, r = Ok x.
Proof. destruct r as [x|e]; [eauto | discriminate]. Qed.

(** [urlsplit] and [urlparse] return for an ASCII text without square
    brackets. *)
Lemma urlsplit_returns (E : pyenv) (url : string) :
  no_char "[" url = true -> no_char "]" url = true -> isascii url = true ->
  exists p, urlsplit E url = Ok p.
Proof.
  intros Hl Hr Ha. unfold urlsplit.
  assert (Hboth : forall q, all_chars q url = true ->
            all_chars q (snd (split_scheme
                                (remove_chars unsafe_url_char
                                   (lstrip_by c0_or_space url)))) = true).
  { intros q Hq.
    apply all_chars_split_scheme, all_chars_remove, all_chars_lstrip, Hq. }
  pose proof (Hboth _ Hl) as Hl'. pose proof (Hboth _ Hr) as Hr'.
  pose proof (Hboth _ Ha) as Ha'. clear Hboth.
  destruct (split_scheme _) as [sch rest]. simpl in Hl', Hr', Ha'.
  assert (Hnet : exists nl rest',
            (if startswith rest "//"
             then let '(nl, rest0) := splitnetloc rest in
                  if (has_char "[" nl && negb (has_char "]" nl))
                     || (has_char "]" nl && negb (has_char "[" nl))
                  then Raise (ValueError "Invalid IPv6 URL")
                  else if has_char "[" nl && has_char "]" nl then
                    match bracketed_netloc_check E nl with
                    | Some e => Raise e
                    | None => Ok (nl, rest0)
                    end
                  else Ok (nl, rest0)
             else Ok (EmptyString, rest)) = Ok (nl, rest')
            /\ isascii nl = true).
  { destruct (startswith rest "//"); [|do 2 eexists; split; reflexivity].
    unfold splitnetloc.
    pose proof (all_chars_break_at _ (fun c => char_in c "/?#") _
                  (all_chars_drop _ 2 _ Hl')) as [Hnl _].
    pose proof (all_chars_break_at _ (fun c => char_in c "/?#") _
                  (all_chars_drop _ 2 _ Hr')) as [Hnr _].
    pose proof (all_chars_break_at _ (fun c => char_in c "/?#") _
                  (all_chars_drop _ 2 _ Ha')) as [Hna _].
    destruct (break_at _ (drop_str 2 rest)) as [nl rest0]. simpl in Hnl, Hnr, Hna.
    rewrite (has_char_absent "[" nl Hnl), (has_char_absent "]" nl Hnr).
    simpl. do 2 eexists. split; [reflexivity | exact Hna]. }
  destruct Hnet as (nl & rest' & -> & Hna). simpl.
  assert (Hck : checknetloc E nl = Ok tt).
  { unfold checknetloc. unfold isascii in Hna. unfold isascii.
    rewrite Hna, orb_true_r. reflexivity. }
  destruct (split_once "#" rest') as [[a b]|];
    [destruct (split_once "?" a) as [[a' q]|]
    |destruct (split_once "?" rest') as [[a' q]|]];
    rewrite Hck; eexists; reflexivity.
Qed.

Lemma urlparse_returns (E : pyenv) (url : string) :
  no_char "[" url = true -> no_char "]" url = true -> isascii url = true ->
  exists p, urlparse E url = Ok p.
Proof.
  intros Hl Hr Ha. unfold urlparse.
  destruct (urlsplit_returns E url Hl Hr Ha) as [r ->]. cbn [rbind].
  destruct (str_in (scheme r) uses_params && has_char ";" (path r));
    [|eexists; reflexivity].
  destruct (splitparams (path r)). eexists. reflexivity.
Qed.

(** X24: on an ASCII URL without a square bracket no validator raises:
    each of the three returns a verdict.  (With a bracket, or with a
    character beyond ASCII in the network location, [urlparse] can raise
    [ValueError], and the validator with it: none of them catches it.) *)
Theorem validators_return_without_brackets (E : pyenv) (url : string)
    (Hl : no_char "[" url = true) (Hr : no_char "]" url = true)
    (Ha : isascii url = true) :
  exists youtube tiktok instagram,
    is_valid_youtube_url E url = Ok youtube /\
    is_valid_tiktok_url E url = Ok tiktok /\
    is_valid_instagram_url E url = Ok instagram.
Proof.
  assert (Hp : exists p, urlparse E (with_default_scheme url) = Ok p).
  { apply urlparse_returns; apply all_chars_default_scheme;
      (reflexivity || assumption). }
  destruct Hp as [p Hp].
  assert (Hy : returns (is_valid_youtube_url E url) = true).
  { unfold is_valid_youtube_url. destruct (is_empty url); [reflexivity|].
    rewrite Hp. cbn [rbind].
    destruct (String.eqb (host_of p) "youtu.be"); [reflexivity|].
    destruct (str_in (host_of p) _); [|reflexivity].
    destruct (String.eqb (path p) "/watch"); [reflexivity|].
    destruct (startswith (path p) "/shorts/"); reflexivity. }
  assert (Ht : returns (is_valid_tiktok_url E url) = true).
  { unfold is_valid_tiktok_url. destruct (is_empty url); [reflexivity|].
    rewrite Hp. cbn [rbind]. destruct (str_in (host_of p) _); reflexivity. }
  assert (Hi : returns (is_valid_instagram_url E url) = true).
  { unfold is_valid_instagram_url. destruct (is_empty url); [reflexivity|].
    rewrite Hp. cbn [rbind]. destruct (negb (str_in (host_of p) _)); reflexivity. }
  apply returns_Ok in Hy as [y Hy]. apply returns_Ok in Ht as [t Ht].
  apply returns_Ok in Hi as [i Hi]. exists y, t, i. auto.
Qed.

(** X24 at a URL that is no URL. *)
Lemma validators_return_without_brackets_witness :
  exists youtube tiktok instagram,
    is_valid_youtube_url E0 "not a url" = Ok youtube /\
    is_valid_tiktok_url E0 "not a url" = Ok tiktok /\
    is_valid_instagram_url E0 "not a url" = Ok instagram.
Proof.
  apply (validators_return_without_brackets E0 "not a url"); reflexivity.
Defined.

(* ===================================================================== *)
(** * Paths written to a record and read back                             *)
(* ===================================================================== *)

Lemma split_all_no_sep (sep : ascii) (s : string) :
  Forall (fun x => no_char sep x = true) (split_all sep s).
Proof.
  induction s as [|c s IH]; simpl; [repeat constructor|].
  destruct (Ascii.eqb c sep) eqn:Hc; [constructor; [reflexivity | exact IH]|].
  destruct (split_all sep s) as [|h t]; [repeat constructor; simpl|].
  - unfold no_char. simpl. rewrite Hc. reflexivity.
  - inversion IH as [|? ? Hh Ht]; subst. constructor; [|exact Ht].
    unfold no_char in *. simpl. rewrite Hc, Hh. reflexivity.
Qed.

Lemma path_parts_ok (text : string) : Forall part_ok (path_parts text).
Proof.
  unfold path_parts. apply List.Forall_forall. intros x [Hin Hf]%filter_In.
  apply andb_true_iff in Hf as [Hne Hdot].
  pose proof (split_all_no_sep "/" text) as Hall.
  rewrite List.Forall_forall in Hall. split; [exact (Hall x Hin)|].
  split; [apply negb_true_iff, Hne|].
  intros ->. discriminate.
Qed.

Lemma wf_parse_path (text : string) : wf_path (parse_path text).
Proof.
  split; [|apply path_parts_ok]. unfold parse_path. simpl.
  destruct (negb (startswith text "/")); [auto|].
  destruct (startswith text "//" && negb (startswith text "///")); auto.
Qed.

Lemma wf_path_join (p : ppath) (text : string) :
  wf_path p -> wf_path (path_join p text).
Proof.
  intros [Hr Hp]. unfold path_join.
  destruct (str_truthy (p_root (parse_path text))); [apply wf_parse_path|].
  split; [exact Hr|]. simpl. apply Forall_app. split; [exact Hp|].
  apply path_parts_ok.
Qed.

Lemma all_chars_take (q : ascii -> bool) (n : nat) (s : string) :
  all_chars q s = true -> all_chars q (take_str n s) = true.
Proof.
  revert s. induction n as [|n IH]; intros [|c s]; simpl; trivial.
  intros [Hc Hs]%andb_true_iff. rewrite Hc. apply IH, Hs.
Qed.

Lemma Forall_removelast {A} (P : A -> Prop) (l : list A) :
  Forall P l -> Forall P (removelast l).
Proof.
  induction 1 as [|x l Hx Hl IH]; simpl; [constructor|].
  destruct l; [constructor|]. constructor; assumption.
Qed.

Lemma wf_with_suffix (p q : ppath) :
  wf_path p -> with_suffix p ".mp3" = Ok q -> wf_path q.
Proof.
  intros [Hr Hp]. unfold with_suffix.
  destruct (is_empty (p_name p)) eqn:Hne; [discriminate|].
  intros [= <-]. split; [exact Hr|]. simpl.
  apply Forall_app. split; [apply Forall_removelast, Hp|].
  constructor; [|constructor].
  assert (Hlast : no_char "/" (p_name p) = true).
  { unfold p_name. apply (last_Forall (fun x => no_char "/" x = true));
      [reflexivity|]. eapply Forall_impl; [exact Hp|]. intros x (H & _). exact H. }
  assert (Hstem : no_char "/" (name_stem (p_name p)) = true).
  { unfold name_stem. destruct (suffix_index (p_name p)); [|exact Hlast].
    apply all_chars_take, Hlast. }
  split; [|split].
  - unfold no_char in *. rewrite all_chars_app, Hstem. reflexivity.
  - apply app_nonempty. reflexivity.
  - apply app_not_dot. simpl. lia.
Qed.

Lemma split_all_head (x s : string) :
  no_char "/" x = true ->
  split_all "/" (x +:+ String "/" s) = x :: split_all "/" s.
Proof.
  unfold no_char. induction x as [|c x IH]; intros H.
  - rewrite append_empty. reflexivity.
  - rewrite append_cons. simpl in H |- *.
    apply andb_true_iff in H as [Hc Hx]. apply negb_true_iff in Hc.
    rewrite Hc, (IH Hx). reflexivity.
Qed.

Lemma split_all_join (parts : list string) :
  parts <> [] -> Forall part_ok parts ->
  split_all "/" (join_with "/" parts) = parts.
Proof.
  intros Hne Hp. induction Hp as [|x rest Hx Hrest IH]; [contradiction|].
  destruct rest as [|y rest].
  - simpl. apply split_all_plain, Hx.
  - change (join_with "/" (x :: y :: rest))
      with (x +:+ "/" +:+ join_with "/" (y :: rest)).
    change ("/" +:+ join_with "/" (y :: rest))
      with (String "/" (join_with "/" (y :: rest))).
    rewrite split_all_head by apply Hx. rewrite IH by discriminate. reflexivity.
Qed.

Lemma filter_parts_ok (parts : list string) :
  Forall part_ok parts ->
  List.filter (fun x => negb (is_empty x) && negb (String.eqb x ".")) parts = parts.
Proof.
  induction 1 as [|x rest (_ & Hne & Hdot) _ IH]; simpl; [reflexivity|].
  rewrite Hne. destruct (String.eqb_spec x "."); [contradiction|].
  simpl. rewrite IH. reflexivity.
Qed.

Lemma path_parts_join (parts : list string) :
  Forall part_ok parts -> path_parts (join_with "/" parts) = parts.
Proof.
  intros Hp. unfold path_parts. destruct parts as [|x rest]; [reflexivity|].
  rewrite split_all_join by (discriminate || exact Hp).
  apply filter_parts_ok, Hp.
Qed.

Lemma join_head (parts : list string) :
  Forall part_ok parts ->
  parts = [] \/ exists c t, join_with "/" parts = String c t /\ Ascii.eqb c "/" = false.
Proof.
  intros Hp. destruct Hp as [|x rest (Hs & Hne & _) _]; [left; reflexivity|].
  right. destruct x as [|c x]; [discriminate|].
  unfold no_char in Hs. simpl in Hs. apply andb_true_iff in Hs as [Hc _].
  apply negb_true_iff in Hc.
  destruct rest as [|y rest]; [exists c, x; auto|].
  exists c, (x +:+ "/" +:+ join_with "/" (y :: rest)). split; [reflexivity | exact Hc].
Qed.

Lemma path_parts_slash (s : string) : path_parts (String "/" s) = path_parts s.
Proof. reflexivity. Qed.

Lemma root_relative (c : ascii) (t : string) :
  Ascii.eqb c "/" = false -> p_root (parse_path (String c t)) = "".
Proof. intros Hc. unfold parse_path. simpl. rewrite Hc. reflexivity. Qed.

Lemma root_single (c : ascii) (t : string) :
  Ascii.eqb c "/" = false -> p_root (parse_path (String "/" (String c t))) = "/".
Proof. intros Hc. unfold parse_path. simpl. rewrite Hc. reflexivity. Qed.

Lemma root_double (c : ascii) (t : string) :
  Ascii.eqb c "/" = false ->
  p_root (parse_path (String "/" (String "/" (String c t)))) = "//".
Proof. intros Hc. unfold parse_path. simpl. rewrite Hc. reflexivity. Qed.

Lemma parse_path_parts (text root : string) (parts : list string) :
  p_root (parse_path text) = root -> path_parts text = parts ->
  parse_path text = {| p_root := root; p_parts := parts |}.
Proof. intros <- <-. reflexivity. Qed.

(** [Path(str(p))] is [p] again. *)
Lemma parse_path_str (p : ppath) : wf_path p -> parse_path (path_str p) = p.
Proof.
  destruct p as [root parts]. intros [Hr Hp]. simpl in Hr, Hp.
  pose proof (path_parts_join parts Hp) as Hparts.
  destruct (join_head parts Hp) as [-> | (c & t & Hj & Hc)].
  - destruct Hr as [-> | [-> | ->]]; reflexivity.
  - assert (Hstr : path_str {| p_root := root; p_parts := parts |}
                   = root +:+ join_with "/" parts).
    { unfold path_str. simpl. destruct root; [|reflexivity].
      destruct parts; [discriminate | reflexivity]. }
    rewrite Hstr, Hj in *. clear Hstr.
    destruct Hr as [-> | [-> | ->]]; apply parse_path_parts.
    + apply root_relative, Hc.
    + exact Hparts.
    + apply root_single, Hc.
    + exact Hparts.
    + apply root_double, Hc.
    + exact Hparts.
Qed.

Lemma path_str_truthy (p : ppath) : wf_path p -> str_truthy (path_str p) = true.
Proof.
  destruct p as [root parts]. intros [Hr Hp]. simpl in Hr, Hp.
  destruct (join_head parts Hp) as [-> | (c & t & Hj & _)].
  - destruct Hr as [-> | [-> | ->]]; reflexivity.
  - assert (Hstr : path_str {| p_root := root; p_parts := parts |}
                   = root +:+ join_with "/" parts).
    { unfold path_str. simpl. destruct root; [|reflexivity].
      destruct parts; [discriminate | reflexivity]. }
    rewrite Hstr, Hj. destruct Hr as [-> | [-> | ->]]; reflexivity.
Qed.

(** ** The paths a runner records *)

Lemma wf_resolve_output_path (info : info_dict) (fmt : string) (dir : ppath)
    (base : option string) (p : ppath) :
  wf_path dir -> resolve_output_path info fmt dir base = Ok p -> wf_path p.
Proof.
  intros Hdir. unfold resolve_output_path.
  match goal with
  | |- match ?r with Some _ => _ | None => _ end = _ -> _ => destruct r as [fp|]
  end.
  - destruct (String.eqb fmt "mp3").
    + apply wf_with_suffix, wf_parse_path.
    + intros [= <-]. apply wf_parse_path.
  - intros [= <-]. apply wf_path_join, Hdir.
Qed.

Lemma wf_locate_output (fs : filesystem) (info : info_dict) (fmt : string)
    (dir : ppath) (safe_name : string) (p : ppath) :
  wf_path dir -> Forall (fun e => wf_path (fst e)) fs ->
  locate_output fs info fmt dir safe_name = Ok p -> wf_path p.
Proof.
  intros Hdir Hfs. unfold locate_output.
  destruct (resolve_output_path info fmt dir (Some safe_name)) as [p0|] eqn:Hp0;
    [|discriminate].
  apply wf_resolve_output_path in Hp0; [|exact Hdir]. cbn [rbind].
  destruct (path_exists fs p0) eqn:He0; cbn [negb].
  - rewrite He0. cbn [negb]. intros H. apply Ok_inj in H. subst p. exact Hp0.
  - destruct (sorted_by_mtime_desc (glob_base fs dir safe_name)) as [|c rest] eqn:Hs.
    + rewrite He0. discriminate.
    + destruct (path_exists fs (fst c)); cbn [negb]; [|discriminate].
      intros H. apply Ok_inj in H. subst p.
      assert (Hhd : hd_error (sorted_by_mtime_desc (glob_base fs dir safe_name))
                    = Some c) by (rewrite Hs; reflexivity).
      apply sorted_head_latest in Hhd as [Hin _].
      apply glob_base_In in Hin as [Hin _].
      rewrite List.Forall_forall in Hfs. exact (Hfs c Hin).
Qed.

Lemma wf_target_dir (E : pyenv) (X : runner_env) (output_dir : option string)
    (dir : ppath) :
  wf_path (DOWNLOAD_DIR X) -> target_dir_of E X output_dir = Ok dir -> wf_path dir.
Proof.
  intros HD. unfold target_dir_of.
  destruct output_dir as [d|]; [|intros [= <-]; exact HD].
  destruct (str_truthy d); [|intros [= <-]; exact HD].
  destruct (expanduser E d) as [e|]; [|discriminate]. simpl.
  intros [= <-]. apply wf_parse_path.
Qed.

(** ** The handler run without interruption *)

Lemma holds_deref (w : world) (job_id : string) (l : nat) (d : gmap string jvalue) :
  holds w job_id l d -> deref w l = d.
Proof. intros [_ Hh]. unfold deref. rewrite Hh. reflexivity. Qed.

Lemma get_file_unknown (SE : send_env) (fs : filesystem) (job_id : string)
    (w : world) :
  jobs w !! job_id = None ->
  get_file SE fs job_id w
  = GfDone (Ok (FileJson (error_response 404 "Job not found."))).
Proof.
  intros Hj. unfold get_file, run_file_schedule. simpl. rewrite Hj. reflexivity.
Qed.

Lemma get_file_not_ready (SE : send_env) (fs : filesystem) (job_id : string)
    (w : world)
    (l : nat) (d : gmap string jvalue) :
  holds w job_id l d -> d <> ∅ ->
  jstr_eqb (record_get d "status") "completed" = false
  \/ truthy (record_get d "file_path") = false ->
  get_file SE fs job_id w = GfDone (Ok not_ready).
Proof.
  intros Hw Hne Hcase. pose proof (holds_deref _ _ _ _ Hw) as Hd.
  destruct Hw as [Hj _].
  unfold get_file, run_file_schedule. simpl. rewrite Hj. simpl. rewrite Hd.
  destruct (decide (d = ∅)) as [He|_]; [contradiction|]. simpl. rewrite Hd.
  destruct (jstr_eqb (record_get d "status") "completed"); [|reflexivity].
  simpl. rewrite Hd. destruct Hcase as [Hc | Hc]; [discriminate|].
  rewrite Hc. reflexivity.
Qed.

Lemma get_file_completed (SE : send_env) (fs : filesystem) (job_id : string)
    (w : world)
    (l : nat) (d : gmap string jvalue) (s : string) :
  holds w job_id l d ->
  d !! "status" = Some (JStr "completed") ->
  d !! "file_path" = Some (JStr s) -> str_truthy s = true ->
  get_file SE fs job_id w
  = GfDone (match exists_error SE (parse_path s) with
            | Some e => Raise e
            | None =>
                if path_exists fs (parse_path s)
                then send_file SE fs (parse_path s)
                       (if truthy (record_get d "file_name")
                        then record_get d "file_name"
                        else JStr (p_name (parse_path s)))
                else Ok (FileJson (error_response 404 "File no longer exists."))
            end).
Proof.
  intros Hw Hst Hfp Hs. pose proof (holds_deref _ _ _ _ Hw) as Hd.
  destruct Hw as [Hj _].
  assert (Hne : d <> ∅).
  { intros ->. rewrite lookup_empty in Hst. discriminate. }
  unfold get_file, run_file_schedule. simpl. rewrite Hj. simpl. rewrite Hd.
  destruct (decide (d = ∅)) as [He|_]; [contradiction|]. simpl. rewrite Hd.
  unfold record_get at 1. rewrite Hst. simpl. rewrite Hd.
  unfold record_get at 1. rewrite Hfp. simpl. rewrite Hs. simpl. rewrite Hd.
  unfold getitem. rewrite Hfp.
  destruct (exists_error SE (parse_path s)); [reflexivity|].
  destruct (path_exists fs (parse_path s)); simpl; [rewrite Hd|]; reflexivity.
Qed.

(* ===================================================================== *)
(** * [get_file] while runners work                                       *)
(* ===================================================================== *)

Lemma runner_update_path (kw : gmap string jvalue) :
  runner_update kw ->
  kw !! "file_path" = None \/ exists s, kw !! "file_path" = Some (JStr s).
Proof.
  intros [(q & -> & _) | [[msg ->] | [p ->]]].
  - left. reflexivity.
  - left. reflexivity.
  - right. eexists. reflexivity.
Qed.

Lemma path_field_ok_update (kw d : gmap string jvalue) :
  runner_update kw -> path_field_ok d -> path_field_ok (dict_update kw d).
Proof.
  intros Hkw Hd. unfold path_field_ok, dict_update.
  destruct (runner_update_path kw Hkw) as [Hn | [s Hs]].
  - rewrite lookup_union_r by exact Hn. exact Hd.
  - right. exists s. apply lookup_union_Some_l, Hs.
Qed.

Lemma paths_typed_update (job_id : string) (kw : gmap string jvalue) (w : world) :
  runner_update kw -> paths_typed w -> paths_typed (update_job job_id kw w).
Proof.
  intros Hkw Hw. unfold update_job.
  destruct (jobs w !! job_id) as [l0|]; [|exact Hw].
  intros l d. simpl. destruct (decide (l0 = l)) as [<- | Hne].
  - rewrite lookup_alter_eq.
    destruct (heap w !! l0) as [d0|] eqn:H0; simpl; [|discriminate].
    intros [= <-]. apply path_field_ok_update; [exact Hkw | exact (Hw l0 d0 H0)].
  - rewrite lookup_alter_ne by exact Hne. apply Hw.
Qed.

Lemma paths_typed_bind (job_id : string) (now : float) (w : world) :
  paths_typed w -> paths_typed (bind_job job_id (new_job_record now) w).
Proof.
  intros Hw l d. unfold bind_job. simpl.
  destruct (decide (fresh (dom (heap w)) = l)) as [<- | Hne].
  - rewrite lookup_insert_eq. intros [= <-]. left. reflexivity.
  - rewrite lookup_insert_ne by exact Hne. apply Hw.
Qed.

Lemma paths_typed_start_download (E : pyenv) (json : option jvalue)
    (job_id : string) (now : float) (w : world) :
  paths_typed w -> paths_typed (snd (start_download E json job_id now w)).
Proof.
  intros Hw. unfold start_download.
  destruct (start_download_checks E json) as [[resp | args] | e]; simpl; try exact Hw.
  destruct args as [[[[[url fmt] quality] sound_on] output_dir] output_name]. simpl.
  apply (paths_typed_bind job_id now w Hw).
Qed.

Lemma paths_typed_social_download (E : pyenv) validator (msg : string)
    (json : option jvalue) (job_id : string) (now : float) (w : world) :
  paths_typed w -> paths_typed (snd (social_download E validator msg json job_id now w)).
Proof.
  intros Hw. unfold social_download.
  match goal with
  | |- context [match ?c with _ => _ end] => destruct c as [[resp | args] | e]
  end; simpl; try exact Hw.
  destruct args as [[url output_dir] output_name]. simpl.
  apply (paths_typed_bind job_id now w Hw).
Qed.

Lemma served_reachable (E : pyenv) (w : world) : served E w -> reachable E w.
Proof.
  induction 1.
  - apply reach_empty.
  - apply reach_start_download; assumption.
  - apply reach_download_tiktok; assumption.
  - apply reach_download_instagram; assumption.
  - apply reach_update_job; assumption.
Qed.

Lemma served_paths_typed (E : pyenv) (w : world) : served E w -> paths_typed w.
Proof.
  induction 1.
  - intros l d. simpl. rewrite lookup_empty. discriminate.
  - apply paths_typed_start_download; assumption.
  - apply paths_typed_social_download; assumption.
  - apply paths_typed_social_download; assumption.
  - apply paths_typed_update; assumption.
Qed.

Lemma json_answer_ok (SE : send_env) (fs : filesystem) (j : response) :
  file_error j -> file_answer_ok SE fs (Ok (FileJson j)).
Proof. intros H. left. eauto. Qed.

Lemma gf_step_ok (SE : send_env) (fs : filesystem) (job_id : string) (w : world)
    (st : gf_state) :
  store_inv w -> paths_typed w -> gf_ok SE fs w st ->
  gf_ok SE fs w (gf_step SE fs job_id w st)
  /\ (gf_remaining (gf_step SE fs job_id w st) <= gf_remaining st - 1)%nat.
Proof.
  intros Hw Ht Hst. pose proof Hw as (_ & Hb & _).
  destruct st as [|[l|]|l|l|l|l path|r]; simpl in Hst |- *.
  - split; [|lia]. intros l Hl. apply (Hb job_id l Hl).
  - destruct (decide (deref w l = ∅)); simpl.
    + split; [|lia]. apply json_answer_ok. unfold file_error. auto.
    + split; [|lia]. apply Hst. reflexivity.
  - split; [|lia]. apply json_answer_ok. unfold file_error. auto.
  - destruct (jstr_eqb _ _); simpl; split; try lia; [exact Hst|].
    apply json_answer_ok. unfold file_error. auto.
  - destruct Hst as [d Hd]. unfold deref. rewrite Hd. simpl.
    destruct (truthy (record_get d "file_path")) eqn:Htr; simpl; split; try lia.
    + destruct (Ht l d Hd) as [Hn | [s Hs]].
      * unfold record_get in Htr. rewrite Hn in Htr. discriminate.
      * exists d, s. auto.
    + apply json_answer_ok. unfold file_error. auto.
  - destruct Hst as (d & s & Hd & Hs). unfold deref, getitem. rewrite Hd. simpl.
    rewrite Hs. destruct (exists_error SE (parse_path s)) as [e|] eqn:Hx.
    { simpl. split; [|lia]. right. left. eauto. }
    destruct (path_exists fs (parse_path s)) eqn:He; simpl;
      split; try lia.
    + split; [eauto | split; [exact Hx | exact He]].
    + apply json_answer_ok. unfold file_error. auto.
  - split; [|lia]. right. right. do 2 eexists.
    split; [apply Hst | split; [apply Hst | reflexivity]].
  - split; [exact Hst | lia].
Qed.

Lemma gf_ok_update (SE : send_env) (fs : filesystem) (job_id : string)
    (kw : gmap string jvalue)
    (w : world) (st : gf_state) :
  runner_update kw -> gf_ok SE fs w st -> gf_ok SE fs (update_job job_id kw w) st.
Proof.
  intros Hkw. pose proof (heap_grows_update job_id kw w) as Hg.
  destruct st as [|job|l|l|l|l path|r]; simpl; trivial.
  - intros H l Hl. apply Hg, H, Hl.
  - apply Hg.
  - apply Hg.
  - intros (d & s & Hd & Hs). unfold update_job.
    destruct (jobs w !! job_id) as [l0|]; [|eauto]. simpl.
    destruct (decide (l0 = l)) as [<- | Hne].
    + rewrite lookup_alter_eq, Hd. simpl.
      destruct (runner_update_path kw Hkw) as [Hn | [s' Hs']].
      * exists (dict_update kw d), s. split; [reflexivity|].
        unfold dict_update. rewrite lookup_union_r by exact Hn. exact Hs.
      * exists (dict_update kw d), s'. split; [reflexivity|].
        apply lookup_union_Some_l, Hs'.
    + rewrite lookup_alter_ne by exact Hne. eauto.
  - intros [H1 H2]. split; [apply Hg, H1 | exact H2].
Qed.

Lemma gf_ok_create (SE : send_env) (fs : filesystem) (job_id : string)
    (now : float)
    (w : world) (st : gf_state) :
  gf_ok SE fs w st -> gf_ok SE fs (create_job job_id now w) st.
Proof.
  pose proof (heap_grows_create job_id now w) as Hg.
  destruct st as [|job|l|l|l|l path|r]; simpl; trivial.
  - intros H l Hl. apply Hg, H, Hl.
  - apply Hg.
  - apply Hg.
  - intros (d & s & Hd & Hs). unfold create_job, bind_job. simpl.
    exists d, s. split; [|exact Hs].
    rewrite lookup_insert_ne; [exact Hd|].
    intros Heq. pose proof (is_fresh (dom (heap w))) as Hf.
    rewrite Heq in Hf. apply Hf. apply elem_of_dom. eauto.
  - intros [H1 H2]. split; [apply Hg, H1 | exact H2].
Qed.

Lemma run_file_schedule_ok (SE : send_env) (fs : filesystem) (job_id : string)
    (sched : list action) :
  runner_schedule sched ->
  forall st w, store_inv w -> paths_typed w -> gf_ok SE fs w st ->
    gf_ok SE fs (snd (run_file_schedule SE fs job_id sched (st, w)))
          (fst (run_file_schedule SE fs job_id sched (st, w)))
    /\ (gf_remaining (fst (run_file_schedule SE fs job_id sched (st, w)))
        <= gf_remaining st - handler_steps sched)%nat.
Proof.
  unfold run_file_schedule, handler_steps.
  induction 1 as [|a sched Ha _ IH]; intros st w Hw Ht Hst; simpl.
  - split; [exact Hst | lia].
  - destruct a as [|j kw|j now]; simpl.
    + destruct (gf_step_ok SE fs job_id w st Hw Ht Hst) as [Hok Hrem].
      destruct (IH _ w Hw Ht Hok) as [H1 H2]. split; [exact H1|]. lia.
    + destruct (IH st (update_job j kw w)) as [H1 H2].
      * apply store_inv_update_job, Hw.
      * apply paths_typed_update; assumption.
      * apply gf_ok_update; assumption.
      * split; [exact H1 | exact H2].
    + destruct (IH st (create_job j now w)) as [H1 H2].
      * apply store_inv_bind_job; [apply new_job_record_fields | exact Hw].
      * apply paths_typed_bind, Ht.
      * apply gf_ok_create, Hst.
      * split; [exact H1 | exact H2].
Qed.

Lemma path_under_rooted (root p : ppath) :
  str_truthy (p_root p) = true -> path_under root p = p.
Proof. intros H. unfold path_under. rewrite H. reflexivity. Qed.

(** [send_file] on a path with a root that exists fails only past
    [stat()]. *)
Lemma send_file_rooted (SE : send_env) (fs : filesystem) (p : ppath) (name : jvalue) :
  str_truthy (p_root p) = true -> path_exists fs p = true ->
  send_file SE fs p name
  = match respond_error SE p name with
    | Some e => Raise e
    | None => Ok (FileSent p name)
    end.
Proof.
  intros Hr He. unfold send_file. rewrite (path_under_rooted _ _ Hr), He.
  reflexivity.
Qed.

(** [send_file] raises when the path taken under [app.root_path] does not
    exist. *)
Lemma send_file_missing (SE : send_env) (fs : filesystem) (p : ppath) (name : jvalue) :
  path_exists fs (path_under (root_path SE) p) = false ->
  send_file SE fs p name = Raise (stat_error SE (path_under (root_path SE) p)).
Proof. intros H. unfold send_file. rewrite H. reflexivity. Qed.

Lemma send_file_raises (SE : send_env) (fs : filesystem) (p : ppath) (name : jvalue)
    (e : exn) :
  send_file SE fs p name = Raise e ->
  (path_exists fs (path_under (root_path SE) p) = false /\
   e = stat_error SE (path_under (root_path SE) p)) \/
  (path_exists fs (path_under (root_path SE) p) = true /\
   respond_error SE (path_under (root_path SE) p) name = Some e).
Proof.
  unfold send_file.
  destruct (path_exists fs (path_under (root_path SE) p)); simpl.
  - destruct (respond_error SE _ name) as [e'|]; [|discriminate].
    intros [= <-]. right. auto.
  - intros [= <-]. left. auto.
Qed.

Lemma send_file_returns (SE : send_env) (fs : filesystem) (p : ppath) (name : jvalue) :
  path_exists fs (path_under (root_path SE) p) = true ->
  respond_error SE (path_under (root_path SE) p) name = None ->
  send_file SE fs p name = Ok (FileSent (path_under (root_path SE) p) name).
Proof. intros He Hr. unfold send_file. rewrite He, Hr. reflexivity. Qed.

(** A recorded relative path: [path.exists()] holds in the working
    directory, and [send_file], which looks under [app.root_path], raises
    [FileNotFoundError]. *)
Lemma get_file_relative_path_raises :
  path_exists [(parse_path "out/j1.mp4", 1)] (parse_path "out/j1.mp4") = true /\
  get_file SE0 [(parse_path "out/j1.mp4", 1)] "j1" w_relative
  = GfDone (Raise (FileNotFoundError
                     "[Errno 2] No such file or directory: '/srv/app/out/j1.mp4'")).
Proof. split; vm_compute; reflexivity. Qed.

(** X25: [get_file] raises in [path.exists()] and in [send_file] only,
    while runners work.  From a store that the endpoints and the runners
    have reached, under every schedule in which runners update jobs and
    jobs are created between the handler's accesses, the handler has
    ended after its six accesses: with "Job not found." (404), "File is
    not ready." (400), "File no longer exists." (404), with the exception
    that [path.exists()] let through, or with what [send_file] does for a
    recorded path that [path.exists()] found.  An exception is that of
    [path.exists()] or one of [send_file]: the [OSError] of [stat()] when
    the path taken under [app.root_path] does not exist (a relative
    recorded path), or what [send_file] raised for a path that exists.
    Where none of them can happen the handler answers with one of the
    three errors or a file that exists. *)
Theorem get_file_raises_only_in_file_access
    (E : pyenv) (SE : send_env) (fs : filesystem) (w : world)
    (job_id : string) (Hw : served E w) :
  (forall sched, runner_schedule sched -> (6 <= handler_steps sched)%nat ->
      exists r,
        fst (run_file_schedule SE fs job_id sched (GfStart, w)) = GfDone r /\
        file_answer_ok SE fs r) /\
  (forall sched e, runner_schedule sched ->
      fst (run_file_schedule SE fs job_id sched (GfStart, w)) = GfDone (Raise e) ->
      (exists path, exists_error SE path = Some e) \/
      (exists path name,
         path_exists fs path = true /\
         send_file SE fs path name = Raise e /\
         ((path_exists fs (path_under (root_path SE) path) = false /\
           e = stat_error SE (path_under (root_path SE) path)) \/
          (path_exists fs (path_under (root_path SE) path) = true /\
           respond_error SE (path_under (root_path SE) path) name = Some e)))) /\
  (forall sched, runner_schedule sched -> (6 <= handler_steps sched)%nat ->
      (forall p, exists_error SE p = None) ->
      (forall p, path_exists fs p = true ->
                 path_exists fs (path_under (root_path SE) p) = true) ->
      (forall p name, respond_error SE p name = None) ->
      exists resp,
        fst (run_file_schedule SE fs job_id sched (GfStart, w)) = GfDone (Ok resp) /\
        file_response_ok fs resp).
Proof.
  pose proof (reachable_store_inv E w (served_reachable E w Hw)) as Hinv.
  pose proof (served_paths_typed E w Hw) as Ht.
  assert (Hend : forall sched, runner_schedule sched -> (6 <= handler_steps sched)%nat ->
            exists r,
              fst (run_file_schedule SE fs job_id sched (GfStart, w)) = GfDone r /\
              file_answer_ok SE fs r).
  { intros sched Hs Hn.
    destruct (run_file_schedule_ok SE fs job_id sched Hs GfStart w Hinv Ht I)
      as [Hok Hrem].
    destruct (fst (run_file_schedule SE fs job_id sched (GfStart, w)));
      simpl in Hrem; try lia.
    eexists. split; [reflexivity | exact Hok]. }
  split; [exact Hend|]. split.
  - intros sched e Hs Heq.
    destruct (run_file_schedule_ok SE fs job_id sched Hs GfStart w Hinv Ht I) as [Hok _].
    rewrite Heq in Hok.
    destruct Hok as [(j & Hj & _) | [(path & e' & Hx & Hr)
                                    | (path & name & _ & He & Hr)]];
      [discriminate | |].
    + injection Hr as ->. left. eauto.
    + right. exists path, name. split; [exact He|]. split; [symmetry; exact Hr|].
      apply send_file_raises. symmetry. exact Hr.
  - intros sched Hs Hn Hex Hroot Hopen.
    destruct (Hend sched Hs Hn)
      as (r & -> & [(j & -> & Hj) | [(path & e & Hx & _)
                                    | (path & name & _ & He & ->)]]).
    + exists (FileJson j). split; [reflexivity | exact Hj].
    + rewrite Hex in Hx. discriminate.
    + rewrite (send_file_returns SE fs path name (Hroot path He) (Hopen _ _)).
      eexists. split; [reflexivity|]. exact (Hroot path He).
Qed.

(** X25 at a job that is completed between two accesses of the handler. *)
Lemma get_file_raises_only_in_file_access_witness :
  exists r,
    fst (run_file_schedule SE0 [(j1_file, 1)] "j1"
           ([Handler; Handler; Update "j1" (kw_completed j1_file)]
            ++ repeat Handler 4)
           (GfStart,
            snd (start_download E0
                   (Some (JObject [("url", JStr "https://youtu.be/abc123")]))
                   "j1" zero empty_world)))
    = GfDone r /\
    file_answer_ok SE0 [(j1_file, 1)] r.
Proof.
  pose proof (get_file_raises_only_in_file_access E0 SE0 [(j1_file, 1)] _ "j1"
                (served_start_download E0 _
                   (Some (JObject [("url", JStr "https://youtu.be/abc123")]))
                   "j1" zero (served_empty E0))) as [H _].
  apply H.
  - unfold runner_schedule. simpl.
    repeat (constructor;
            [first [exact I | right; right; eexists; reflexivity]|]).
    constructor.
  - vm_compute. lia.
Defined.

(* ===================================================================== *)
(** * From the runner to [get_file]                                       *)
(* ===================================================================== *)

Lemma last_apply_updates_snoc (job_id : string) (hooks : list (gmap string jvalue))
    (kw : gmap string jvalue) (w : world) :
  after_runner job_id (hooks ++ [kw]) w
  = update_job job_id kw (after_runner job_id hooks w).
Proof.
  unfold after_runner. rewrite apply_updates_app. simpl. apply last_last.
Qed.

Lemma after_hooks (job_id : string) (l : nat) (hooks : list (gmap string jvalue))
    (w : world) (d : gmap string jvalue) :
  Forall progress_update hooks -> holds w job_id l d -> active d ->
  exists d', holds (after_runner job_id hooks w) job_id l d' /\ active d'.
Proof.
  intros Hh Hw Hd. unfold after_runner.
  apply (last_Forall (fun w' => exists d', holds w' job_id l d' /\ active d'));
    [eauto|].
  exact (history_hooks job_id l hooks Hh w d Hw Hd).
Qed.

Lemma active_new_record (now : float) : active (new_job_record now).
Proof. split; [reflexivity|]. exists 0. split; [reflexivity | lia]. Qed.

Lemma active_not_ready (SE : send_env) (fs : filesystem) (job_id : string)
    (w : world) (l : nat)
    (d : gmap string jvalue) :
  holds w job_id l d -> active d -> answers_by_status SE fs job_id w.
Proof.
  intros Hw [Hs _]. exists d. split; [apply holds_record with l, Hw|].
  right. split; [rewrite Hs; discriminate|].
  apply (get_file_not_ready SE fs job_id w l d Hw).
  - intros ->. discriminate.
  - left. unfold status_of in Hs. unfold record_get.
    destruct (d !! "status") as [[| | | |s| |]|]; try discriminate.
    injection Hs as ->. reflexivity.
Qed.

(** The store after hook calls and a last call. *)
Lemma answers_after_final (SE : send_env) (fs : filesystem) (job_id : string)
    (l : nat)
    (hooks : list (gmap string jvalue)) (kw : gmap string jvalue)
    (w : world) (d : gmap string jvalue) :
  Forall progress_update hooks ->
  (exists msg, kw = kw_error msg) \/ (exists p, kw = kw_completed p /\ wf_path p) ->
  holds w job_id l d -> active d ->
  answers_by_status SE fs job_id (after_runner job_id (hooks ++ [kw]) w).
Proof.
  intros Hh Hkw Hw Hd. rewrite last_apply_updates_snoc.
  destruct (after_hooks job_id l hooks w d Hh Hw Hd) as (d1 & Hw1 & _).
  pose proof (holds_update _ job_id l kw d1 Hw1) as Hw2.
  exists (dict_update kw d1). split; [apply holds_record with l, Hw2|].
  destruct Hkw as [[msg ->] | (p & -> & Hp)].
  - assert (Hst : dict_update (kw_error msg) d1 !! "status" = Some (JStr "error")).
    { apply lookup_union_Some_l. reflexivity. }
    right. split; [unfold status_of; rewrite Hst; discriminate|].
    apply (get_file_not_ready SE fs job_id _ l _ Hw2).
    + intros He. rewrite He, lookup_empty in Hst. discriminate.
    + left. unfold record_get. rewrite Hst. reflexivity.
  - assert (Hst : dict_update (kw_completed p) d1 !! "status"
                  = Some (JStr "completed")).
    { apply lookup_union_Some_l. reflexivity. }
    assert (Hfp : dict_update (kw_completed p) d1 !! "file_path"
                  = Some (JStr (path_str p))).
    { apply lookup_union_Some_l. reflexivity. }
    assert (Hfn : dict_update (kw_completed p) d1 !! "file_name"
                  = Some (JStr (p_name p))).
    { apply lookup_union_Some_l. reflexivity. }
    left. split; [unfold status_of; rewrite Hst; reflexivity|].
    exists p. split; [exact Hfp|].
    rewrite (get_file_completed SE fs job_id _ l _ (path_str p) Hw2 Hst Hfp
               (path_str_truthy p Hp)).
    rewrite (parse_path_str p Hp). unfold record_get. rewrite Hfn. simpl.
    destruct (exists_error SE p); [reflexivity|].
    destruct (str_truthy (p_name p)); reflexivity.
Qed.

(** The calls of the [try] block: hook calls, then an error or the
    completion with the path found. *)
Lemma download_and_finish_final (age_gate : bool) (run : download_run)
    (fmt : string) (target_dir : ppath) (safe_name : string) :
  exists hooks kw,
    download_and_finish age_gate run fmt target_dir safe_name = hooks ++ [kw]
    /\ Forall progress_update hooks
    /\ ((exists msg, kw = kw_error msg) \/
        (exists info fs p,
            ending run = Finished (Some info) fs /\
            locate_output fs info fmt target_dir safe_name = Ok p /\
            kw = kw_completed p)).
Proof.
  unfold download_and_finish.
  pose proof (run_hooks_range (events run)) as Hh.
  destruct (run_hooks (events run)) as [us raised]. simpl in Hh.
  eexists us, _. split; [reflexivity|]. split; [exact Hh|].
  destruct raised as [e|]; [|destruct (ending run) as [[info|] fs | e]].
  - left. destruct e; eauto. destruct (age_gate && _); eauto.
  - destruct (locate_output fs info fmt target_dir safe_name) as [p|e] eqn:Hl.
    + right. exists info, fs, p. auto.
    + left. eauto.
  - left. eauto.
  - left. destruct e; eauto. destruct (age_gate && _); eauto.
Qed.

Lemma finish_then_get_file (X : runner_env) (SE : send_env) (fs' : filesystem)
    (job_id : string)
    (age_gate : bool) (opts : ydl_opts) (url fmt : string) (dir : ppath)
    (safe_name : string) (l : nat) (w : world) (d : gmap string jvalue) :
  wf_path dir ->
  (forall opts u info fs,
      ending (extract_info X opts u) = Finished (Some info) fs ->
      Forall (fun e => wf_path (fst e)) fs) ->
  holds w job_id l d -> active d ->
  answers_by_status SE fs' job_id
    (after_runner job_id
       (download_and_finish age_gate (extract_info X opts url) fmt dir safe_name) w).
Proof.
  intros Hdir Hfs Hw Hd.
  destruct (download_and_finish_final age_gate (extract_info X opts url) fmt dir
              safe_name) as (hooks & kw & -> & Hh & Hkw).
  apply (answers_after_final SE fs' job_id l hooks kw w d Hh); [|exact Hw | exact Hd].
  destruct Hkw as [Herr | (info & fs & p & Hend & Hloc & ->)]; [left; exact Herr|].
  right. exists p. split; [reflexivity|].
  apply (wf_locate_output fs info fmt dir safe_name p Hdir); [|exact Hloc].
  exact (Hfs opts url info fs Hend).
Qed.

(** X26: from the runner to [get_file].  After all the calls of either
    runner on a freshly created job, [get_file] answers by the status of
    the record: "File is not ready." (400) unless the job is completed,
    and for a completed job it ends with the exception of
    [path.exists()] if that raises, with [send_file] for the recorded
    path and file name if that path exists, and answers "File no longer
    exists." (404) otherwise.  For a recorded path with a root,
    [send_file] sends that file unless building the response or opening
    it raises; for a relative one it looks under [app.root_path] and
    raises the [OSError] of [stat()] when there is no such file.  The
    download folder and the paths of the directory listing are taken to
    be in the form [Path] keeps. *)
Theorem get_file_after_runner
    (E : pyenv) (X : runner_env) (SE : send_env) (fs' : filesystem)
    (job_id url fmt quality : string) (sound_on : bool)
    (output_dir output_name : option string) (now : float) (w : world)
    (HD : wf_path (DOWNLOAD_DIR X))
    (Hfs : forall opts u info fs,
        ending (extract_info X opts u) = Finished (Some info) fs ->
        Forall (fun e => wf_path (fst e)) fs) :
  answers_by_status SE fs' job_id
    (after_runner job_id
       (run_download_job E X job_id url fmt quality sound_on output_dir output_name)
       (create_job job_id now w)) /\
  answers_by_status SE fs' job_id
    (after_runner job_id
       (run_social_download_job E X job_id url output_dir output_name)
       (create_job job_id now w)) /\
  (forall p name,
      str_truthy (p_root p) = true -> path_exists fs' p = true ->
      send_file SE fs' p name
      = match respond_error SE p name with
        | Some e => Raise e
        | None => Ok (FileSent p name)
        end) /\
  (forall p name,
      path_exists fs' (path_under (root_path SE) p) = false ->
      send_file SE fs' p name
      = Raise (stat_error SE (path_under (root_path SE) p))).
Proof.
  destruct (holds_create_job job_id now w) as [l Hw].
  pose proof (active_new_record now) as Hd.
  assert (Hnone : answers_by_status SE fs' job_id
                    (after_runner job_id [] (create_job job_id now w))).
  { exact (active_not_ready SE fs' job_id _ l _ Hw Hd). }
  assert (Hone : forall msg,
             answers_by_status SE fs' job_id
               (after_runner job_id [kw_error msg] (create_job job_id now w))).
  { intros msg.
    apply (answers_after_final SE fs' job_id l [] (kw_error msg)
             (create_job job_id now w) (new_job_record now));
      [constructor | left; eauto | exact Hw | exact Hd]. }
  split.
  - unfold run_download_job.
    destruct (get_format_selector fmt quality sound_on) as [sel|[]];
      try exact Hnone; try apply Hone.
    destruct (target_dir_of E X output_dir) as [dir|e] eqn:Hdir; [|exact Hnone].
    destruct (mkdir X dir); [apply Hone|].
    destruct (detect_ffmpeg_bin_dir X) as [ffmpeg_bin_dir|e]; [|exact Hnone].
    apply (finish_then_get_file X SE fs' job_id true _ url fmt dir _ l
             (create_job job_id now w) (new_job_record now));
      [exact (wf_target_dir E X output_dir dir HD Hdir) | exact Hfs
      | exact Hw | exact Hd].
  - split; [|split; [apply send_file_rooted | apply send_file_missing]].
    unfold run_social_download_job.
    destruct (target_dir_of E X output_dir) as [dir|e] eqn:Hdir; [|exact Hnone].
    destruct (mkdir X dir); [apply Hone|].
    destruct (detect_ffmpeg_bin_dir X) as [ffmpeg_bin_dir|e]; [|exact Hnone].
    apply (finish_then_get_file X SE fs' job_id false _ url "mp4" dir _ l
             (create_job job_id now w) (new_job_record now));
      [exact (wf_target_dir E X output_dir dir HD Hdir) | exact Hfs
      | exact Hw | exact Hd].
Qed.

(** X26 at an ordinary download whose file is still there. *)
Lemma get_file_after_runner_witness :
  answers_by_status SE0 [(j1_file, 1)] "j1"
    (after_runner "j1"
       (run_download_job E0 X0 "j1" "https://youtu.be/x" "mp4" "720p" true None None)
       (create_job "j1" zero empty_world)).
Proof.
  apply (get_file_after_runner E0 X0 SE0 [(j1_file, 1)] "j1" "https://youtu.be/x"
           "mp4" "720p" true None None zero empty_world).
  - apply wf_parse_path.
  - intros opts u info fs H. simpl in H. injection H as _ <-.
    constructor; [apply wf_parse_path | constructor].
Defined.

(* ===================================================================== *)
(** * The analysis endpoint                                               *)
(* ===================================================================== *)

(** The analysis of the empty metrics object, whatever the interpreter. *)
Lemma analyze_metrics_empty (E : pyenv) :
  exists r,
    analyze_metrics E [] = Ok r /\
    overall_score r = 0 /\ verdict r = "Underperforming" /\
    out_tips r = [healthy_tip].
Proof. eexists. split; [vm_compute; reflexivity|]. repeat split. Qed.

(** X27: the analysis endpoint on a JSON object.  Without metrics (the
    key is missing, or its value is null, empty or otherwise falsy) it
    answers with the analysis of no data: overall score 0, verdict
    "Underperforming", and the single tip that the metrics look healthy.
    With metrics that are truthy and no object it answers 400; with an
    object it answers with the analysis of that object. *)
Theorem analyze_video_outcomes (E : pyenv) (fields : list (string * jvalue)) :
  (truthy (dict_get "metrics" fields) = false ->
   exists r,
     analyze_video E (Some (JObject fields)) = Ok (inr r) /\
     overall_score r = 0 /\ verdict r = "Underperforming" /\
     out_tips r = [healthy_tip]) /\
  (truthy (dict_get "metrics" fields) = true ->
   (forall m, dict_get "metrics" fields <> JObject m) ->
   analyze_video E (Some (JObject fields))
   = Ok (inl (error_response 400 "metrics must be an object."))) /\
  (forall m, dict_get "metrics" fields = JObject m ->
   analyze_video E (Some (JObject fields))
   = let? r := analyze_metrics E m in Ok (inr r)).
Proof.
  assert (Hdata : forall k,
             data_get (request_data (Some (JObject fields))) k
             = Ok (dict_get k fields)).
  { intros k. unfold request_data. simpl. destruct fields; reflexivity. }
  unfold analyze_video. rewrite Hdata. cbn [rbind].
  split; [|split].
  - intros Hf. rewrite Hf.
    destruct (analyze_metrics_empty E) as (r & Hr & Hfacts).
    exists r. rewrite Hr. split; [reflexivity | exact Hfacts].
  - intros Ht Hno. rewrite Ht.
    destruct (dict_get "metrics" fields) as [| | | | | |m]; try reflexivity.
    exfalso. exact (Hno m eq_refl).
  - intros m Hm. rewrite Hm. destruct m; reflexivity.
Qed.

(** X27 at a body whose metrics are null. *)
Lemma analyze_video_outcomes_witness :
  exists r,
    analyze_video E0 (Some (JObject [("metrics", JNull)])) = Ok (inr r) /\
    overall_score r = 0 /\ verdict r = "Underperforming" /\
    out_tips r = [healthy_tip].
Proof.
  pose proof (analyze_video_outcomes E0 [("metrics", JNull)]) as [H _].
  apply H. reflexivity.
Defined.

(* ===================================================================== *)
(** * Durations                                                           *)
(* ===================================================================== *)

Lemma uint_text_no_colon (d : Decimal.uint) :
  no_char ":" (DecimalString.NilEmpty.string_of_uint d) = true.
Proof. unfold no_char. induction d; simpl; trivial. Qed.

Lemma int_text_no_colon (n : Z) : no_char ":" (int_text n) = true.
Proof.
  unfold int_text.
  assert (H : forall d,
             no_char ":" (DecimalString.NilZero.string_of_uint d) = true).
  { intros d. destruct d; try reflexivity; apply (uint_text_no_colon (_ d)). }
  destruct (Z.to_int n) as [d|d]; simpl; [apply H|].
  unfold no_char in *. simpl. apply H.
Qed.

Lemma text_02d_no_colon (n : Z) : no_char ":" (text_02d n) = true.
Proof.
  unfold text_02d, pad2. destruct (_ <? _)%nat; [|apply int_text_no_colon].
  unfold no_char. rewrite all_chars_app. simpl. apply int_text_no_colon.
Qed.

Lemma int_text_injective (a b : Z) : int_text a = int_text b -> a = b.
Proof.
  unfold int_text. intros H.
  assert (Hnn : forall z, Z.to_int z <> Decimal.Pos Decimal.Nil
                          /\ Z.to_int z <> Decimal.Neg Decimal.Nil).
  { intros [|p|p]; simpl; split; try discriminate;
      intros [= Hp]; exact (DecimalPos.Unsigned.to_uint_nonnil p Hp). }
  pose proof (DecimalString.NilZero.isi (Z.to_int a) (proj1 (Hnn a)) (proj2 (Hnn a))) as Ha.
  pose proof (DecimalString.NilZero.isi (Z.to_int b) (proj1 (Hnn b)) (proj2 (Hnn b))) as Hb.
  rewrite H, Hb in Ha. injection Ha as Ha.
  rewrite <- (DecimalZ.of_to a), <- (DecimalZ.of_to b), Ha. reflexivity.
Qed.

Lemma pad_table_holds : pad_table = true.
Proof. vm_compute. reflexivity. Qed.

Lemma text_02d_injective (a b : Z) :
  0 <= a < 60 -> 0 <= b < 60 -> text_02d a = text_02d b -> a = b.
Proof.
  intros Ha Hb H. pose proof pad_table_holds as T. unfold pad_table in T.
  rewrite forallb_forall in T.
  assert (Hin : forall z, 0 <= z < 60 -> In (Z.to_nat z) (seq 0 60)).
  { intros z Hz. apply in_seq. lia. }
  specialize (T _ (Hin a Ha)). rewrite forallb_forall in T.
  specialize (T _ (Hin b Hb)).
  rewrite !Z2Nat.id in T by lia. rewrite H, String.eqb_refl in T. simpl in T.
  apply Nat.eqb_eq in T. lia.
Qed.

Lemma split_all_field (sep : ascii) (x s : string) :
  no_char sep x = true ->
  split_all sep (x +:+ String sep s) = x :: split_all sep s.
Proof.
  unfold no_char. induction x as [|c x IH]; intros H.
  - rewrite append_empty. simpl. rewrite Ascii.eqb_refl. reflexivity.
  - rewrite append_cons. simpl in H |- *.
    apply andb_true_iff in H as [Hc Hx]. apply negb_true_iff in Hc.
    rewrite Hc, (IH Hx). reflexivity.
Qed.

(** The text of a duration, cut at the colons, gives its fields. *)
Lemma duration_text_fields (z : Z) :
  split_all ":" (duration_text z) = duration_fields z.
Proof.
  unfold duration_text, duration_fields.
  destruct (negb (duration_hours z =? 0)).
  - change (int_text (duration_hours z) +:+ ":" +:+ text_02d (duration_minutes z)
            +:+ ":" +:+ text_02d (duration_seconds z))
      with (int_text (duration_hours z)
            +:+ String ":" (text_02d (duration_minutes z)
                            +:+ String ":" (text_02d (duration_seconds z)))).
    rewrite split_all_field by apply int_text_no_colon.
    rewrite split_all_field by apply text_02d_no_colon.
    rewrite split_all_plain by apply text_02d_no_colon. reflexivity.
  - change (int_text (duration_minutes z) +:+ ":" +:+ text_02d (duration_seconds z))
      with (int_text (duration_minutes z)
            +:+ String ":" (text_02d (duration_seconds z))).
    rewrite split_all_field by apply int_text_no_colon.
    rewrite split_all_plain by apply text_02d_no_colon. reflexivity.
Qed.

Lemma duration_parts (z : Z) :
  z = 3600 * duration_hours z + 60 * duration_minutes z + duration_seconds z
  /\ 0 <= duration_minutes z < 60 /\ 0 <= duration_seconds z < 60.
Proof.
  unfold duration_hours, duration_minutes, duration_seconds.
  pose proof (Z.div_mod z 3600 ltac:(lia)) as H1.
  pose proof (Z.mod_pos_bound z 3600 ltac:(lia)) as B1.
  pose proof (Z.div_mod (z mod 3600) 60 ltac:(lia)) as H2.
  pose proof (Z.mod_pos_bound (z mod 3600) 60 ltac:(lia)) as B2.
  assert (H3 : (z mod 3600) mod 60 = z mod 60).
  { apply Z.mod_mod_divide. exists 60. reflexivity. }
  rewrite H3 in *.
  pose proof (Z.div_pos (z mod 3600) 60 ltac:(lia) ltac:(lia)) as B3.
  assert (B4 : (z mod 3600) / 60 < 60).
  { apply Z.div_lt_upper_bound; lia. }
  lia.
Qed.

Lemma duration_text_injective (a b : Z) :
  duration_text a = duration_text b -> a = b.
Proof.
  intros H. apply (f_equal (split_all ":")) in H.
  rewrite !duration_text_fields in H. unfold duration_fields in H.
  destruct (duration_parts a) as (Ha & Hma & Hsa).
  destruct (duration_parts b) as (Hb & Hmb & Hsb).
  destruct (Z.eqb_spec (duration_hours a) 0) as [Ea|Ea],
           (Z.eqb_spec (duration_hours b) 0) as [Eb|Eb]; simpl in H;
    try discriminate.
  - injection H as Hm Hs. apply int_text_injective in Hm.
    apply text_02d_injective in Hs; [|assumption..]. lia.
  - injection H as Hh Hm Hs. apply int_text_injective in Hh.
    apply text_02d_injective in Hm; [|assumption..].
    apply text_02d_injective in Hs; [|assumption..]. lia.
Qed.

Lemma digits_table_holds : digits_table = true.
Proof. vm_compute. reflexivity. Qed.

(** A number from 0 to 59 is formatted whatever the limit. *)
Lemma format_d_small (E : pyenv) (n : Z) :
  0 <= n < 60 -> format_d E n = Ok (int_text n).
Proof.
  intros Hn. pose proof digits_table_holds as T. unfold digits_table in T.
  rewrite forallb_forall in T.
  assert (Hin : In (Z.to_nat n) (seq 0 60)) by (apply in_seq; lia).
  specialize (T _ Hin). rewrite Z2Nat.id in T by lia. apply Nat.leb_le in T.
  unfold format_d, exceeds_str_digits, str_digits_threshold.
  replace (640 <? decimal_digits n)%nat with false
    by (symmetry; apply Nat.ltb_ge; lia).
  reflexivity.
Qed.

Lemma format_02d_small (E : pyenv) (n : Z) :
  0 <= n < 60 -> format_02d E n = Ok (text_02d n).
Proof. intros Hn. unfold format_02d. rewrite (format_d_small E n Hn). reflexivity. Qed.

(** Only the hours can be refused: the duration is formatted exactly when
    they are not. *)
Lemma format_duration_cases (E : pyenv) (z : Z) :
  format_duration E z
  = if exceeds_str_digits E (duration_hours z)
    then Raise (int_str_error E) else Ok (duration_text z).
Proof.
  destruct (duration_parts z) as (_ & Hm & Hs).
  unfold format_duration, duration_text.
  destruct (Z.eqb_spec (duration_hours z) 0) as [Eh|Eh]; cbn [negb].
  - rewrite (format_d_small E _ Hm), (format_02d_small E _ Hs). cbn [rbind].
    rewrite Eh. pose proof (format_d_small E 0 ltac:(lia)) as H0.
    unfold format_d in H0. destruct (exceeds_str_digits E 0); [discriminate|].
    reflexivity.
  - unfold format_d at 1. destruct (exceeds_str_digits E (duration_hours z));
      [reflexivity|]. cbn [rbind].
    rewrite (format_02d_small E _ Hm), (format_02d_small E _ Hs). reflexivity.
Qed.

Lemma parse_duration_int (E : pyenv) (z : Z) :
  z <> 0 ->
  parse_duration E (JInt z)
  = if exceeds_str_digits E (duration_hours z)
    then Raise (int_str_error E) else Ok (duration_text z).
Proof.
  intros Hz. unfold parse_duration. simpl.
  destruct (Z.eqb_spec z 0); [contradiction|]. simpl. apply format_duration_cases.
Qed.

Lemma duration_text_known (z : Z) : duration_text z <> "Unknown".
Proof.
  intros H. apply (f_equal (split_all ":")) in H. rewrite duration_text_fields in H.
  unfold duration_fields in H. destruct (negb _); discriminate.
Qed.

(** With the default limit of 4300 digits, a duration whose hours have
    4301 digits is refused. *)
Lemma parse_duration_refuses_huge_hours :
  parse_duration E0 (JInt (3600 * 10 ^ 4300)) = Raise (int_str_error E0).
Proof.
  rewrite parse_duration_int by (vm_compute; discriminate).
  assert (H : exceeds_str_digits E0 (duration_hours (3600 * 10 ^ 4300)) = true)
    by (vm_compute; reflexivity).
  rewrite H. reflexivity.
Qed.

(** X28: [parse_duration] on integers.  Zero gives "Unknown".  For an
    integer other than zero the two f-strings are formatted unless the
    number of hours has more decimal digits than the interpreter's limit
    for integer string conversion, in which case [f"{h:d}"] raises
    [ValueError]; minutes and seconds are always formatted.  Two integers
    other than zero for which the same text is returned are equal: the
    text determines the number of seconds, and it is never "Unknown". *)
Theorem parse_duration_determines_seconds (E : pyenv) (a b : Z) (t : string)
    (Ha : a <> 0) (Hb : b <> 0)
    (Hta : parse_duration E (JInt a) = Ok t)
    (Htb : parse_duration E (JInt b) = Ok t) :
  a = b /\
  t = duration_text a /\
  t <> "Unknown" /\
  parse_duration E (JInt 0) = Ok "Unknown" /\
  (forall z, z <> 0 ->
     (exceeds_str_digits E (duration_hours z) = false ->
      parse_duration E (JInt z) = Ok (duration_text z)) /\
     (exceeds_str_digits E (duration_hours z) = true ->
      parse_duration E (JInt z) = Raise (int_str_error E))) /\
  (forall z, (decimal_digits (duration_hours z) <= 640)%nat
             \/ int_max_str_digits E = 0%nat
             \/ (decimal_digits (duration_hours z) <= int_max_str_digits E)%nat ->
     exceeds_str_digits E (duration_hours z) = false).
Proof.
  rewrite (parse_duration_int E a Ha) in Hta.
  rewrite (parse_duration_int E b Hb) in Htb.
  destruct (exceeds_str_digits E (duration_hours a)); [discriminate|].
  destruct (exceeds_str_digits E (duration_hours b)); [discriminate|].
  apply Ok_inj in Hta. apply Ok_inj in Htb.
  split; [apply duration_text_injective; congruence|].
  split; [symmetry; exact Hta|].
  split; [rewrite <- Hta; apply duration_text_known|].
  split; [reflexivity|]. split.
  - intros z Hz. rewrite (parse_duration_int E z Hz).
    split; intros ->; reflexivity.
  - intros z H. unfold exceeds_str_digits, str_digits_threshold.
    destruct H as [H | [H | H]].
    + replace (640 <? _)%nat with false by (symmetry; apply Nat.ltb_ge; lia).
      reflexivity.
    + rewrite H. change (0 <? 0)%nat with false. rewrite andb_false_r. reflexivity.
    + replace (int_max_str_digits E <? _)%nat with false
        by (symmetry; apply Nat.ltb_ge; lia).
      apply andb_false_r.
Qed.

(** X28 at an hour, a minute and a second. *)
Lemma parse_duration_determines_seconds_witness :
  parse_duration E0 (JInt 3661) = Ok "1:01:01" /\
  3661 = 3661 /\ "1:01:01" = duration_text 3661.
Proof.
  split; [reflexivity|].
  pose proof (parse_duration_determines_seconds E0 3661 3661 "1:01:01") as H.
  destruct H as (H1 & H2 & _); [discriminate | discriminate | reflexivity
                               | reflexivity |].
  split; [exact H1 | exact H2].
Defined.

(* ===================================================================== *)
(** * The metadata endpoint                                               *)
(* ===================================================================== *)

Lemma parse_duration_float (E : pyenv) (f : float) :
  f_truthy f = true ->
  parse_duration E (JFloat f)
  = Raise (ValueError "Unknown format code 'd' for object of type 'float'").
Proof. intros H. unfold parse_duration. simpl. rewrite H. reflexivity. Qed.

(** The [try] block returns exactly when the extractor returns metadata,
    the duration is formatted and the dictionary is serialised. *)
Lemma fetch_attempt_returns (E : pyenv)
    (probe : string -> result (option (list (string * jvalue))))
    (url : string) (resp : response) :
  fetch_attempt E probe url = Ok resp <->
  exists info t,
    probe url = Ok (Some info) /\
    parse_duration E (dict_get "duration" info) = Ok t /\
    jsonify_error E (info_body info t) = None /\
    resp = {| status_code := 200; body := info_body info t |}.
Proof.
  unfold fetch_attempt. split.
  - destruct (probe url) as [[info|]|e]; cbn [rbind]; try discriminate.
    destruct (parse_duration E (dict_get "duration" info)) as [t|e] eqn:Hd;
      cbn [rbind]; [|discriminate].
    destruct (jsonify_error E (info_body info t)) eqn:Hj; [discriminate|].
    intros H. apply Ok_inj in H. exists info, t. auto.
  - intros (info & t & -> & Hd & Hj & ->). cbn [rbind]. rewrite Hd. cbn [rbind].
    rewrite Hj. reflexivity.
Qed.

(** What the [try] block raises. *)
Lemma fetch_attempt_raises (E : pyenv)
    (probe : string -> result (option (list (string * jvalue))))
    (url : string) (e : exn) :
  fetch_attempt E probe url = Raise e <->
  probe url = Raise e \/
  (probe url = Ok None /\
   e = AttributeError "'NoneType' object has no attribute 'get'") \/
  (exists info,
      probe url = Ok (Some info) /\
      (parse_duration E (dict_get "duration" info) = Raise e \/
       exists t, parse_duration E (dict_get "duration" info) = Ok t /\
                 jsonify_error E (info_body info t) = Some e)).
Proof.
  unfold fetch_attempt. split.
  - destruct (probe url) as [[info|]|e'] eqn:Hp; cbn [rbind].
    + destruct (parse_duration E (dict_get "duration" info)) as [t|e'] eqn:Hd;
        cbn [rbind].
      * destruct (jsonify_error E (info_body info t)) as [e'|] eqn:Hj;
          [|discriminate].
        intros [= <-]. right. right. exists info. split; [reflexivity|].
        right. exists t. auto.
      * intros [= <-]. right. right. exists info. auto.
    + intros [= <-]. right. left. auto.
    + intros [= <-]. left. reflexivity.
  - intros [-> | [[-> ->] | (info & -> & [Hd | (t & Hd & Hj)])]]; cbn [rbind];
      try reflexivity; rewrite Hd; cbn [rbind]; [reflexivity|].
    rewrite Hj. reflexivity.
Qed.

(** X29: [fetch_info] after the URL has passed the validator.  It does
    not raise: it answers 200, 400 or 500.  It answers 200, with the ten
    keys of the body in the order of the code, exactly when the [try]
    block returns: the extractor returns metadata, [parse_duration]
    formats its duration and [jsonify] serialises the dictionary.  It
    answers 400 exactly when the [try] block raises [DownloadError], as
    the extractor does, and 500 with the text of the exception for every
    other one: a duration that is a float other than zero, a duration
    whose hours are beyond the limit for integer string conversion, or a
    dictionary that [jsonify] refuses. *)
Theorem fetch_info_answers (E : pyenv)
    (probe : string -> result (option (list (string * jvalue))))
    (json : option jvalue) (url : string)
    (Hurl : get_stripped (request_data json) "url" "" = Ok url)
    (Hvalid : is_valid_youtube_url E url = Ok true) :
  exists resp,
    fetch_info E probe json = Ok resp /\
    (status_code resp = 200 \/ status_code resp = 400 \/ status_code resp = 500) /\
    (status_code resp = 200 <->
     exists info t,
       probe url = Ok (Some info) /\
       parse_duration E (dict_get "duration" info) = Ok t /\
       jsonify_error E (info_body info t) = None) /\
    (status_code resp = 400 <->
     exists msg, fetch_attempt E probe url = Raise (DownloadError msg)) /\
    (forall msg, probe url = Raise (DownloadError msg) ->
       resp = error_response 400
                (if contains "Sign in to confirm your age" msg
                 then age_restricted_message else msg)) /\
    (status_code resp = 200 -> map fst (body resp) = info_keys) /\
    (forall e, fetch_attempt E probe url = Raise e ->
       (forall msg, e <> DownloadError msg) ->
       resp = error_response 500 (exn_str e)) /\
    (forall info,
       probe url = Ok (Some info) ->
       (forall f, dict_get "duration" info = JFloat f -> f_truthy f = true ->
          resp = error_response 500
                   "Unknown format code 'd' for object of type 'float'") /\
       (forall z, dict_get "duration" info = JInt z -> z <> 0 ->
          exceeds_str_digits E (duration_hours z) = true ->
          resp = error_response 500 (exn_str (int_str_error E))) /\
       (forall t e, parse_duration E (dict_get "duration" info) = Ok t ->
          jsonify_error E (info_body info t) = Some e ->
          (forall msg, e <> DownloadError msg) ->
          resp = error_response 500 (exn_str e))).
Proof.
  unfold fetch_info. rewrite Hurl. cbn [rbind]. rewrite Hvalid. cbn [rbind negb].
  destruct (fetch_attempt E probe url) as [r|e] eqn:Ha.
  - apply fetch_attempt_returns in Ha as (info & t & Hp & Hd & Hj & ->).
    eexists. split; [reflexivity|]. cbn [status_code body].
    split; [auto|]. split; [split; eauto 6|].
    split; [split; [discriminate | intros [msg Hm]; discriminate]|].
    split; [intros msg Hm; rewrite Hm in Hp; discriminate|].
    split; [reflexivity|]. split; [discriminate|].
    intros info' Hp'. rewrite Hp in Hp'. apply Ok_inj in Hp'.
    injection Hp' as <-. split; [|split].
    + intros f Hf Ht. rewrite Hf, (parse_duration_float E f Ht) in Hd. discriminate.
    + intros z Hz Hnz Hex. rewrite Hz, (parse_duration_int E z Hnz), Hex in Hd.
      discriminate.
    + intros t' e Hd' Hj'. rewrite Hd in Hd'. apply Ok_inj in Hd'. subst t'.
      rewrite Hj in Hj'. discriminate.
  - assert (Hno200 : forall info t,
              probe url = Ok (Some info) ->
              parse_duration E (dict_get "duration" info) = Ok t ->
              jsonify_error E (info_body info t) = None -> False).
    { intros info t Hp Hd Hj.
      assert (H : fetch_attempt E probe url
                  = Ok {| status_code := 200; body := info_body info t |})
        by (apply fetch_attempt_returns; eauto 6).
      rewrite Ha in H. discriminate. }
    assert (Hinfo : forall resp,
              (forall e', e' = e -> (forall msg, e' <> DownloadError msg) ->
                 resp = error_response 500 (exn_str e')) ->
              forall info,
                probe url = Ok (Some info) ->
                (forall f, dict_get "duration" info = JFloat f -> f_truthy f = true ->
                   resp = error_response 500
                            "Unknown format code 'd' for object of type 'float'") /\
                (forall z, dict_get "duration" info = JInt z -> z <> 0 ->
                   exceeds_str_digits E (duration_hours z) = true ->
                   resp = error_response 500 (exn_str (int_str_error E))) /\
                (forall t e', parse_duration E (dict_get "duration" info) = Ok t ->
                   jsonify_error E (info_body info t) = Some e' ->
                   (forall msg, e' <> DownloadError msg) ->
                   resp = error_response 500 (exn_str e'))).
    { intros resp Hresp info Hp.
      assert (Hraise : forall e',
                parse_duration E (dict_get "duration" info) = Raise e' \/
                (exists t, parse_duration E (dict_get "duration" info) = Ok t /\
                           jsonify_error E (info_body info t) = Some e') ->
                e' = e).
      { intros e' H.
        assert (H' : fetch_attempt E probe url = Raise e')
          by (apply fetch_attempt_raises; right; right; exists info; auto).
        rewrite Ha in H'. injection H' as ->. reflexivity. }
      split; [|split].
      - intros f Hf Ht.
        rewrite (Hresp (ValueError "Unknown format code 'd' for object of type 'float'"));
          [reflexivity | | discriminate].
        apply Hraise. left. rewrite Hf. apply parse_duration_float, Ht.
      - intros z Hz Hnz Hex.
        apply Hresp; [|unfold int_str_error; discriminate].
        apply Hraise. left. rewrite Hz, (parse_duration_int E z Hnz), Hex.
        reflexivity.
      - intros t e' Hd Hj Hne. apply Hresp; [|exact Hne].
        apply Hraise. right. eauto. }
    assert (Hcase : (exists msg, e = DownloadError msg) \/
                    (forall msg, e <> DownloadError msg)).
    { destruct e; try (right; discriminate). left. eauto. }
    destruct Hcase as [[msg ->] | Hne].
    + eexists. split; [reflexivity|]. cbn [status_code body error_response].
      split; [auto|].
      split; [split; [discriminate
                     | intros (i & t & Hi & Hd & Hj); exfalso; eauto]|].
      split; [split; eauto|].
      split.
      { intros msg' Hm.
        assert (H' : fetch_attempt E probe url = Raise (DownloadError msg'))
          by (apply fetch_attempt_raises; auto).
        rewrite Ha in H'. injection H' as ->. reflexivity. }
      split; [discriminate|].
      split; [intros e' [= <-] Hne; exfalso; exact (Hne msg eq_refl)|].
      apply Hinfo. intros e' -> Hne. exfalso. exact (Hne msg eq_refl).
    + exists (error_response 500 (exn_str e)).
      split; [destruct e; try reflexivity; exfalso; eapply Hne; reflexivity|].
      cbn [status_code body error_response]. split; [auto|].
      split; [split; [discriminate
                     | intros (i & t & Hi & Hd & Hj); exfalso; eauto]|].
      split; [split; [discriminate
                     | intros [msg [= Hm]]; exfalso; exact (Hne msg Hm)]|].
      split.
      { intros msg Hm. exfalso.
        assert (H' : fetch_attempt E probe url = Raise (DownloadError msg))
          by (apply fetch_attempt_raises; auto).
        rewrite Ha in H'. injection H' as H'. exact (Hne msg H'). }
      split; [discriminate|].
      split; [intros e' [= <-] _; reflexivity|].
      apply Hinfo. intros e' -> _. reflexivity.
Qed.

(** X29 at metadata with a duration of 75 seconds. *)
Lemma fetch_info_answers_witness :
  exists resp,
    fetch_info E0 (fun _ => Ok (Some [("title", JStr "clip"); ("duration", JInt 75)]))
      (Some (JObject [("url", JStr "https://youtu.be/abc123")])) = Ok resp /\
    status_code resp = 200 /\
    In ("duration", JStr "1:15") (body resp).
Proof.
  destruct (fetch_info_answers E0
              (fun _ => Ok (Some [("title", JStr "clip"); ("duration", JInt 75)]))
              (Some (JObject [("url", JStr "https://youtu.be/abc123")]))
              "https://youtu.be/abc123" eq_refl eq_refl)
    as (resp & Hresp & _).
  exists resp. split; [exact Hresp|].
  vm_compute in Hresp. apply Ok_inj in Hresp. rewrite <- Hresp.
  split; [reflexivity|]. simpl. right. right. left. reflexivity.
Defined.
